(** * gopdf (package wkhtmltopdf): option model, argument serialization,
      page providers, duplicate-flag check and JSON interchange.

    A shallow embedding of wkhtmltopdf.go and json.go, and of the parts of
    the two commands (cmd/example, cmd/gopdf-runner) that prepare a
    document.

    Conventions of the embedding.
    - A Go [string] and a Go [[]byte] are both sequences of 8-bit bytes; both
      are Rocq [string]s here (a Rocq [ascii] is one byte).
    - A Go [map[string]string] is an [option (gmap string string)]: [None] is
      the nil map.  Ranging over a Go map visits the entries in an order the
      runtime picks afresh at every loop, so a function that ranges over a map
      ([AddPage], the loop over the replacements in the runner) returns the
      list of all the results it can produce (the list monad); a
      deterministic function has exactly one.  The [Args()] methods are
      written in the same form.
    - An [error] value is what [fmt.Errorf] builds: a message, and for [%w]
      the wrapped cause.
    - An [io.Reader] handed to [NewPageReader] is a shared object: it lives
      in a store of readers and the page holds a reference to it.
    - The document holds its pages by value. A method that changes a page
      through its pointer ([AddPage] on the options, [Reader] on the cache
      of a markdown page) returns the page as it is afterwards, and the
      functions over the document put it back in the page sequence.  That
      is what the code does as long as no pointer is in the sequence twice;
      [PDFGenerator_AddPage] is [AddPage] on the pointers themselves, for
      the case that the caller adds a page that the sequence holds already.
    - A run-time panic (the slice expression of [MarkdownPage.Reader]) is
      the result [None]. *)

From Stdlib Require Import Floats.PrimFloat Floats.FloatOps Floats.SpecFloat.
From Stdlib Require Import Ascii DecimalString.
From stdpp Require Import gmap strings list.


(** ** Bytes, strings and errors *)

Definition bytes := string.

Inductive error :=
| errorString (s : string)               (* errors.New, fmt.Errorf without %w *)
| wrapError (msg : string) (err : error) (* fmt.Errorf with %w *).

Definition Error (e : error) : string :=
  match e with
  | errorString s => s
  | wrapError msg _ => msg
  end.

(** [strings.HasPrefix s prefix]. *)
Definition HasPrefix (s prefix : string) : bool := String.prefix prefix s.

(** ** Option primitives

    The field sets are those json.go marshals ([option], [value], and
    [isSet] for the numeric kinds). *)

Record stringOption := { so_option : string; so_value : string }.
Record boolOption := { bo_option : string; bo_value : bool }.
(* [uo_value] is a Go [uint]; nothing in the package computes with it, so
   its 64-bit bound is left out. *)
Record uintOption := { uo_option : string; uo_isSet : bool; uo_value : N }.
Record floatOption := { fo_option : string; fo_isSet : bool; fo_value : float }.
Record mapOption := { mo_option : string; mo_value : option (gmap string string) }.
Record sliceOption := { slo_option : string; slo_value : list string }.

Definition stringOption_Set (so : stringOption) (value : string) : stringOption :=
  {| so_option := so_option so; so_value := value |}.
Definition stringOption_Unset (so : stringOption) : stringOption :=
  {| so_option := so_option so; so_value := "" |}.

Definition boolOption_Set (bo : boolOption) (value : bool) : boolOption :=
  {| bo_option := bo_option bo; bo_value := value |}.
Definition boolOption_Unset (bo : boolOption) : boolOption :=
  {| bo_option := bo_option bo; bo_value := false |}.

Definition uintOption_Set (uo : uintOption) (value : N) : uintOption :=
  {| uo_option := uo_option uo; uo_isSet := true; uo_value := value |}.
Definition uintOption_Unset (uo : uintOption) : uintOption :=
  {| uo_option := uo_option uo; uo_isSet := false; uo_value := uo_value uo |}.

Definition floatOption_Set (fo : floatOption) (value : float) : floatOption :=
  {| fo_option := fo_option fo; fo_isSet := true; fo_value := value |}.
Definition floatOption_Unset (fo : floatOption) : floatOption :=
  {| fo_option := fo_option fo; fo_isSet := false; fo_value := fo_value fo |}.

(** [mo.Set(key, value)]: the map is created on first use. *)
Definition mapOption_Set (mo : mapOption) (key value : string) : mapOption :=
  {| mo_option := mo_option mo;
     mo_value := Some (<[key := value]> (default ∅ (mo_value mo))) |}.
Definition mapOption_Unset (mo : mapOption) : mapOption :=
  {| mo_option := mo_option mo; mo_value := None |}.

Definition sliceOption_Set (so : sliceOption) (value : string) : sliceOption :=
  {| slo_option := slo_option so; slo_value := slo_value so ++ [value] |}.
Definition sliceOption_Unset (so : sliceOption) : sliceOption :=
  {| slo_option := slo_option so; slo_value := [] |}.

(** *** Formatting of numbers *)

Definition formatUint (n : N) : string := NilEmpty.string_of_uint (N.to_uint n).

Definition pad3 (n : N) : string :=
  let s := formatUint n in
  match String.length s with
  | 0 => "000"
  | 1 => "00" +:+ s
  | 2 => "0" +:+ s
  | _ => s
  end.

(** [fmt.Sprintf("%.3f", f)]: the exact binary value, rounded to three
    decimals, ties to even. *)
Definition formatFloat3 (f : float) : string :=
  match Prim2SF f with
  | S754_nan => "NaN"
  | S754_infinity s => if s then "-Inf" else "+Inf"
  | S754_zero s => if s then "-0.000" else "0.000"
  | S754_finite s m e =>
      let q := (Z.pos m * 1000)%Z in
      let n :=
        if (0 <=? e)%Z then (q * 2 ^ e)%Z
        else
          let d := (2 ^ (- e))%Z in
          let k := (q / d)%Z in
          let r := (q mod d)%Z in
          if (d <? 2 * r)%Z then (k + 1)%Z
          else if ((d =? 2 * r)%Z && Z.odd k)%bool then (k + 1)%Z
          else k in
      (if s then "-" else "") +:+ formatUint (Z.to_N (n / 1000))
        +:+ "." +:+ pad3 (Z.to_N (n mod 1000))
  end.

(** *** Parse

    Modelled from the spec: the [Parse] methods of the six option kinds are
    declared in options.go, which is not among the sources.  They follow
    section 4.1 (an unset option gives no argument, a boolean flag gives
    [--flag], a single-valued option [--flag value], a map one
    [--flag key value] triple per entry, a list one [--flag item] pair per
    item) and the expectations of TestStringOption, TestSliceOption,
    TestMapOption, TestUIntOption, TestFloatOption and TestBoolOption.
    For the map kind the spec names no order among the triples (4.1: all
    entries are emitted) and asks that the output be a function of the
    state (4.2 and 8: the same sequence at every call on an unchanged
    document).  [mapEntries] is that order; the model takes the order of
    the keys in the [gmap], and the properties use of it only that it holds
    every entry once. *)

Definition flag (option : string) : string := "--" +:+ option.

Definition stringOption_Parse (so : stringOption) : list string :=
  if decide (so_value so = "") then [] else [flag (so_option so); so_value so].

Definition boolOption_Parse (bo : boolOption) : list string :=
  if bo_value bo then [flag (bo_option bo)] else [].

Definition uintOption_Parse (uo : uintOption) : list string :=
  if uo_isSet uo then [flag (uo_option uo); formatUint (uo_value uo)] else [].

Definition floatOption_Parse (fo : floatOption) : list string :=
  if fo_isSet fo then [flag (fo_option fo); formatFloat3 (fo_value fo)] else [].

Definition sliceOption_Parse (so : sliceOption) : list string :=
  flat_map (λ v, [flag (slo_option so); v]) (slo_value so).

Definition mapEntries (m : option (gmap string string)) : list (string * string) :=
  match m with
  | None => []
  | Some m => map_to_list m
  end.

Definition mapTriples (option : string) (kvs : list (string * string)) : list string :=
  flat_map (λ kv, [flag option; kv.1; kv.2]) kvs.

Definition mapOption_Parse (mo : mapOption) : list string :=
  mapTriples (mo_option mo) (mapEntries (mo_value mo)).

(** [for k, v := range m] in the sources ([AddPage], the runner): every order
    of the entries can be the one the runtime visits. *)
Definition rangeMap (m : option (gmap string string)) : list (list (string * string)) :=
  match m with
  | None => [[]]
  | Some m => permutations (map_to_list m)
  end.

(** ** Option groups

    Modelled from the spec: the struct declarations of the option groups
    ([globalOptions], [outlineOptions], [pageOptions], [tocOptions],
    [headerAndFooterOptions]) are in options.go, which is not among the
    sources.  A group is the sequence of its fields in declaration order,
    each a Go field name with the option it holds; [Args] concatenates the
    fields' [Parse] output in that order (section 4.2). *)

Inductive optionCell :=
| StringCell (o : stringOption)
| BoolCell (o : boolOption)
| UintCell (o : uintOption)
| FloatCell (o : floatOption)
| MapCell (o : mapOption)
| SliceCell (o : sliceOption).

Definition Parse (c : optionCell) : list (list string) :=
  match c with
  | StringCell o => [stringOption_Parse o]
  | BoolCell o => [boolOption_Parse o]
  | UintCell o => [uintOption_Parse o]
  | FloatCell o => [floatOption_Parse o]
  | MapCell o => [mapOption_Parse o]
  | SliceCell o => [sliceOption_Parse o]
  end.

Definition optionGroup := list (string * optionCell).

(** The loop [for x in xs { args = append(args, f(x)...) }], where [f] gives
    the list of its results. *)
Fixpoint appendAll {A} (f : A → list (list string)) (args : list string) (xs : list A)
  : list (list string) :=
  match xs with
  | [] => [args]
  | x :: xs => s ← f x; appendAll f (args ++ s) xs
  end.

Definition group_Args (g : optionGroup) : list (list string) :=
  appendAll (λ fld, Parse fld.2) [] g.

(** Field selection [g.Name] and assignment through it. *)
Fixpoint getField (name : string) (g : optionGroup) : option optionCell :=
  match g with
  | [] => None
  | (n, c) :: g => if decide (n = name) then Some c else getField name g
  end.

Fixpoint alterField (name : string) (f : optionCell → optionCell) (g : optionGroup)
  : optionGroup :=
  match g with
  | [] => []
  | (n, c) :: g =>
      if decide (n = name) then (n, f c) :: g else (n, c) :: alterField name f g
  end.

(** Typed views of a field, as the type checker of Go guarantees them. *)
Definition stringField (name : string) (g : optionGroup) : option stringOption :=
  match getField name g with
  | Some (StringCell o) => Some o
  | _ => None
  end.

Definition mapField (name : string) (g : optionGroup) : option mapOption :=
  match getField name g with
  | Some (MapCell o) => Some o
  | _ => None
  end.

Definition alterString (name : string) (f : stringOption → stringOption) : optionGroup → optionGroup :=
  alterField name (λ c, match c with StringCell o => StringCell (f o) | _ => c end).

Definition alterMap (name : string) (f : mapOption → mapOption) : optionGroup → optionGroup :=
  alterField name (λ c, match c with MapCell o => MapCell (f o) | _ => c end).

(** ** Pages *)

(** [PageOptions] embeds [pageOptions] and [headerAndFooterOptions]. *)
Record PageOptions := {
  pageOptions : optionGroup;
  headerAndFooterOptions : optionGroup;
}.

Definition PageOptions_Args (po : PageOptions) : list (list string) :=
  a ← group_Args (pageOptions po);
  b ← group_Args (headerAndFooterOptions po);
  mret (([] ++ a) ++ b).

(** What a page's [Reader()] hands out: a shared reader of the store, a
    fresh [bytes.NewReader] over a byte slice, or an [errorReader]. *)
Inductive ioReader :=
| storeReader (ref : nat)
| bytesReader (b : bytes)
| errorReader (err : error).

Record Page := {
  Page_Input : string;
  Page_PageOptions : PageOptions;
}.

Record PageReader := {
  PageReader_Input : option nat;   (* nil, or a reference to the reader *)
  PageReader_PageOptions : PageOptions;
}.

Record MarkdownPage := {
  InputPath : string;
  SkipFirstH1H2 : bool;
  MarkdownPage_PageOptions : PageOptions;
  htmlCache : option bytes;
  readErr : option error;
}.

Inductive PageProvider :=
| IsPage (p : Page)
| IsPageReader (pr : PageReader)
| IsMarkdownPage (mp : MarkdownPage).

Definition Options (p : PageProvider) : PageOptions :=
  match p with
  | IsPage p => Page_PageOptions p
  | IsPageReader pr => PageReader_PageOptions pr
  | IsMarkdownPage mp => MarkdownPage_PageOptions mp
  end.

(** Assignment through the pointer that [Options()] returns. *)
Definition withOptions (p : PageProvider) (opts : PageOptions) : PageProvider :=
  match p with
  | IsPage p => IsPage {| Page_Input := Page_Input p; Page_PageOptions := opts |}
  | IsPageReader pr =>
      IsPageReader {| PageReader_Input := PageReader_Input pr; PageReader_PageOptions := opts |}
  | IsMarkdownPage mp =>
      IsMarkdownPage {| InputPath := InputPath mp; SkipFirstH1H2 := SkipFirstH1H2 mp;
                        MarkdownPage_PageOptions := opts;
                        htmlCache := htmlCache mp; readErr := readErr mp |}
  end.

Definition InputFile (p : PageProvider) : string :=
  match p with
  | IsPage p => Page_Input p
  | IsPageReader _ => "-"
  | IsMarkdownPage _ => "-"
  end.

Definition PageProvider_Args (p : PageProvider) : list (list string) :=
  PageOptions_Args (Options p).

(** ** The document *)

Record cover := {
  cover_Input : string;
  cover_pageOptions : optionGroup;
}.

Record toc := {
  Include : bool;
  toc_pageOptions : optionGroup;
  tocOptions : optionGroup;
  toc_headerAndFooterOptions : optionGroup;
}.

Record PDFGenerator := {
  globalOptions : optionGroup;
  outlineOptions : optionGroup;
  Cover : cover;
  TOC : toc;
  OutputFile : string;
  userStyleSheetPath : string;
  headerHTMLPath : string;
  footerHTMLPath : string;
  replace : mapOption;
  binPath : string;
  outbuf : bytes;
  outWriter : option nat;   (* nil, or the writer set by SetOutput *)
  stdErr : option nat;      (* nil, or the writer set by SetStderr *)
  pages : list PageProvider;
}.

Definition pageFragments (page : PageProvider) : list (list string) :=
  a ← PageProvider_Args page; mret (["page"] ++ [InputFile page] ++ a).

Definition PDFGenerator_Args (pdfg : PDFGenerator) : list (list string) :=
  g ← group_Args (globalOptions pdfg);
  let args := [] ++ g in
  o ← group_Args (outlineOptions pdfg);
  let args := args ++ o in
  args ← (if decide (cover_Input (Cover pdfg) ≠ "") then
            c ← group_Args (cover_pageOptions (Cover pdfg));
            mret (((args ++ ["cover"]) ++ [cover_Input (Cover pdfg)]) ++ c)
          else mret args);
  args ← (if Include (TOC pdfg) then
            p ← group_Args (toc_pageOptions (TOC pdfg));
            t ← group_Args (tocOptions (TOC pdfg));
            h ← group_Args (toc_headerAndFooterOptions (TOC pdfg));
            mret ((((args ++ ["toc"]) ++ p) ++ t) ++ h)
          else mret args);
  args ← appendAll pageFragments args (pages pdfg);
  if decide (OutputFile pdfg ≠ "") then mret (args ++ [OutputFile pdfg])
  else mret (args ++ ["-"]).

(** [strings.Join(pdfg.Args(), " ")]. *)
Definition ArgString (pdfg : PDFGenerator) : list string :=
  String.concat " " <$> PDFGenerator_Args pdfg.

(** ** Constructors *)

Definition newString (name option : string) : string * optionCell :=
  (name, StringCell {| so_option := option; so_value := "" |}).
Definition newBool (name option : string) : string * optionCell :=
  (name, BoolCell {| bo_option := option; bo_value := false |}).
Definition newUint (name option : string) : string * optionCell :=
  (name, UintCell {| uo_option := option; uo_isSet := false; uo_value := 0 |}).
Definition newFloat (name option : string) : string * optionCell :=
  (name, FloatCell {| fo_option := option; fo_isSet := false; fo_value := 0%float |}).
Definition newMap (name option : string) : string * optionCell :=
  (name, MapCell {| mo_option := option; mo_value := None |}).
Definition newSlice (name option : string) : string * optionCell :=
  (name, SliceCell {| slo_option := option; slo_value := [] |}).

(** Modelled from the spec: [newGlobalOptions], [newOutlineOptions],
    [newPageOptions], [newHeaderAndFooterOptions] and [newTocOptions] are in
    options.go, which is not among the sources.  The groups below hold the
    fields that the sources refer to (the tests, the commands and the
    documentation), under the flag names the tests expect.  The order of
    the global group is one that agrees with what the spec and the tests
    say of it: --page-size before --margin-top (section 8, the Letter
    scenario), --dpi, --margin-bottom and --margin-left before --page-size
    (expectedArgString), and the four margins in the order bottom, left,
    right, top before --page-height and --page-width (TestUnitOptions).
    Neither fixes the place of the other fields.  The outline group, which
    no source touches, has the four outline flags of the tool. *)
Definition newGlobalOptions : optionGroup :=
  [ newUint "Dpi" "dpi";
    newBool "Grayscale" "grayscale";
    newUint "MarginBottom" "margin-bottom";
    newString "MarginBottomUnit" "margin-bottom";
    newUint "MarginLeft" "margin-left";
    newString "MarginLeftUnit" "margin-left";
    newString "PageSize" "page-size";
    newUint "MarginRight" "margin-right";
    newString "MarginRightUnit" "margin-right";
    newUint "MarginTop" "margin-top";
    newString "MarginTopUnit" "margin-top";
    newBool "NoCollate" "no-collate";
    newString "Orientation" "orientation";
    newUint "PageHeight" "page-height";
    newString "PageHeightUnit" "page-height";
    newUint "PageWidth" "page-width";
    newString "PageWidthUnit" "page-width";
    newString "Title" "title";
    newBool "Version" "version" ].

Definition newOutlineOptions : optionGroup :=
  [ newBool "DumpDefaultTocXsl" "dump-default-toc-xsl";
    newString "DumpOutline" "dump-outline";
    newBool "NoOutline" "no-outline";
    newUint "OutlineDepth" "outline-depth" ].

Definition newPageOptions : optionGroup :=
  [ newSlice "Allow" "allow";
    newMap "CustomHeader" "custom-header";
    newBool "DisableJavascript" "disable-javascript";
    newBool "EnableJavascript" "enable-javascript";
    newBool "DisableSmartShrinking" "disable-smart-shrinking";
    newBool "EnableLocalFileAccess" "enable-local-file-access";
    newString "UserStyleSheet" "user-style-sheet";
    newString "ViewportSize" "viewport-size";
    newString "WindowStatus" "window-status";
    newFloat "Zoom" "zoom" ].

Definition newHeaderAndFooterOptions : optionGroup :=
  [ newString "FooterCenter" "footer-center";
    newUint "FooterFontSize" "footer-font-size";
    newString "FooterHTML" "footer-html";
    newString "FooterRight" "footer-right";
    newFloat "FooterSpacing" "footer-spacing";
    newString "HeaderHTML" "header-html";
    newFloat "HeaderSpacing" "header-spacing";
    newMap "Replace" "replace" ].

Definition newTocOptions : optionGroup :=
  [ newBool "DisableDottedLines" "disable-dotted-lines";
    newString "TocHeaderText" "toc-header-text";
    newString "XslStyleSheet" "xsl-style-sheet" ].

Definition PageSizeA4 : string := "A4".
Definition PageSizeLetter : string := "Letter".

Definition NewPageOptions : PageOptions :=
  {| pageOptions := newPageOptions;
     headerAndFooterOptions := newHeaderAndFooterOptions |}.

Definition NewPage (input : string) : Page :=
  {| Page_Input := input; Page_PageOptions := NewPageOptions |}.

Definition NewPageReader (input : option nat) : PageReader :=
  {| PageReader_Input := input; PageReader_PageOptions := NewPageOptions |}.

Definition NewMarkdownPage (inputPath : string) : MarkdownPage :=
  {| InputPath := inputPath; SkipFirstH1H2 := false;
     MarkdownPage_PageOptions := NewPageOptions;
     htmlCache := None; readErr := None |}.

Definition NewPDFPreparer : PDFGenerator :=
  {| globalOptions := newGlobalOptions;
     outlineOptions := newOutlineOptions;
     Cover := {| cover_Input := ""; cover_pageOptions := newPageOptions |};
     TOC := {| Include := false;
               toc_pageOptions := newPageOptions;
               tocOptions := newTocOptions;
               toc_headerAndFooterOptions := newHeaderAndFooterOptions |};
     OutputFile := "";
     userStyleSheetPath := "";
     headerHTMLPath := "";
     footerHTMLPath := "";
     replace := {| mo_option := "replace"; mo_value := None |};
     binPath := "";
     outbuf := "";
     outWriter := None;
     stdErr := None;
     pages := [] |}.

(** ** Assignments to the fields of the document *)

Definition with_globalOptions (g : optionGroup) (d : PDFGenerator) : PDFGenerator :=
  {| globalOptions := g; outlineOptions := outlineOptions d; Cover := Cover d; TOC := TOC d;
     OutputFile := OutputFile d; userStyleSheetPath := userStyleSheetPath d;
     headerHTMLPath := headerHTMLPath d; footerHTMLPath := footerHTMLPath d;
     replace := replace d; binPath := binPath d; outbuf := outbuf d;
     outWriter := outWriter d; stdErr := stdErr d; pages := pages d |}.

Definition with_outlineOptions (g : optionGroup) (d : PDFGenerator) : PDFGenerator :=
  {| globalOptions := globalOptions d; outlineOptions := g; Cover := Cover d; TOC := TOC d;
     OutputFile := OutputFile d; userStyleSheetPath := userStyleSheetPath d;
     headerHTMLPath := headerHTMLPath d; footerHTMLPath := footerHTMLPath d;
     replace := replace d; binPath := binPath d; outbuf := outbuf d;
     outWriter := outWriter d; stdErr := stdErr d; pages := pages d |}.

Definition with_Cover (c : cover) (d : PDFGenerator) : PDFGenerator :=
  {| globalOptions := globalOptions d; outlineOptions := outlineOptions d; Cover := c; TOC := TOC d;
     OutputFile := OutputFile d; userStyleSheetPath := userStyleSheetPath d;
     headerHTMLPath := headerHTMLPath d; footerHTMLPath := footerHTMLPath d;
     replace := replace d; binPath := binPath d; outbuf := outbuf d;
     outWriter := outWriter d; stdErr := stdErr d; pages := pages d |}.

Definition with_TOC (t : toc) (d : PDFGenerator) : PDFGenerator :=
  {| globalOptions := globalOptions d; outlineOptions := outlineOptions d; Cover := Cover d; TOC := t;
     OutputFile := OutputFile d; userStyleSheetPath := userStyleSheetPath d;
     headerHTMLPath := headerHTMLPath d; footerHTMLPath := footerHTMLPath d;
     replace := replace d; binPath := binPath d; outbuf := outbuf d;
     outWriter := outWriter d; stdErr := stdErr d; pages := pages d |}.

Definition with_OutputFile (f : string) (d : PDFGenerator) : PDFGenerator :=
  {| globalOptions := globalOptions d; outlineOptions := outlineOptions d; Cover := Cover d; TOC := TOC d;
     OutputFile := f; userStyleSheetPath := userStyleSheetPath d;
     headerHTMLPath := headerHTMLPath d; footerHTMLPath := footerHTMLPath d;
     replace := replace d; binPath := binPath d; outbuf := outbuf d;
     outWriter := outWriter d; stdErr := stdErr d; pages := pages d |}.

Definition with_defaults (css header footer : string) (r : mapOption) (d : PDFGenerator)
  : PDFGenerator :=
  {| globalOptions := globalOptions d; outlineOptions := outlineOptions d; Cover := Cover d; TOC := TOC d;
     OutputFile := OutputFile d; userStyleSheetPath := css;
     headerHTMLPath := header; footerHTMLPath := footer;
     replace := r; binPath := binPath d; outbuf := outbuf d;
     outWriter := outWriter d; stdErr := stdErr d; pages := pages d |}.

Definition with_binPath (path : string) (d : PDFGenerator) : PDFGenerator :=
  {| globalOptions := globalOptions d; outlineOptions := outlineOptions d; Cover := Cover d; TOC := TOC d;
     OutputFile := OutputFile d; userStyleSheetPath := userStyleSheetPath d;
     headerHTMLPath := headerHTMLPath d; footerHTMLPath := footerHTMLPath d;
     replace := replace d; binPath := path; outbuf := outbuf d;
     outWriter := outWriter d; stdErr := stdErr d; pages := pages d |}.

Definition with_outbuf (b : bytes) (d : PDFGenerator) : PDFGenerator :=
  {| globalOptions := globalOptions d; outlineOptions := outlineOptions d; Cover := Cover d; TOC := TOC d;
     OutputFile := OutputFile d; userStyleSheetPath := userStyleSheetPath d;
     headerHTMLPath := headerHTMLPath d; footerHTMLPath := footerHTMLPath d;
     replace := replace d; binPath := binPath d; outbuf := b;
     outWriter := outWriter d; stdErr := stdErr d; pages := pages d |}.

Definition with_writers (out err : option nat) (d : PDFGenerator) : PDFGenerator :=
  {| globalOptions := globalOptions d; outlineOptions := outlineOptions d; Cover := Cover d; TOC := TOC d;
     OutputFile := OutputFile d; userStyleSheetPath := userStyleSheetPath d;
     headerHTMLPath := headerHTMLPath d; footerHTMLPath := footerHTMLPath d;
     replace := replace d; binPath := binPath d; outbuf := outbuf d;
     outWriter := out; stdErr := err; pages := pages d |}.

Definition with_pages (ps : list PageProvider) (d : PDFGenerator) : PDFGenerator :=
  {| globalOptions := globalOptions d; outlineOptions := outlineOptions d; Cover := Cover d; TOC := TOC d;
     OutputFile := OutputFile d; userStyleSheetPath := userStyleSheetPath d;
     headerHTMLPath := headerHTMLPath d; footerHTMLPath := footerHTMLPath d;
     replace := replace d; binPath := binPath d; outbuf := outbuf d;
     outWriter := outWriter d; stdErr := stdErr d; pages := ps |}.

Definition SetPages (pdfg : PDFGenerator) (p : list PageProvider) : PDFGenerator :=
  with_pages p pdfg.
Definition ResetPages (pdfg : PDFGenerator) : PDFGenerator := with_pages [] pdfg.
Definition Bytes (pdfg : PDFGenerator) : bytes := outbuf pdfg.
Definition SetOutput (pdfg : PDFGenerator) (w : option nat) : PDFGenerator :=
  with_writers w (stdErr pdfg) pdfg.
Definition SetStderr (pdfg : PDFGenerator) (w : option nat) : PDFGenerator :=
  with_writers (outWriter pdfg) w pdfg.
Definition SetUserStyleSheet (pdfg : PDFGenerator) (path : string) : PDFGenerator :=
  with_defaults path (headerHTMLPath pdfg) (footerHTMLPath pdfg) (replace pdfg) pdfg.
Definition SetHeaderHTML (pdfg : PDFGenerator) (path : string) : PDFGenerator :=
  with_defaults (userStyleSheetPath pdfg) path (footerHTMLPath pdfg) (replace pdfg) pdfg.
Definition SetFooterHTML (pdfg : PDFGenerator) (path : string) : PDFGenerator :=
  with_defaults (userStyleSheetPath pdfg) (headerHTMLPath pdfg) path (replace pdfg) pdfg.
Definition SetReplace (pdfg : PDFGenerator) (key value : string) : PDFGenerator :=
  with_defaults (userStyleSheetPath pdfg) (headerHTMLPath pdfg) (footerHTMLPath pdfg)
    (mapOption_Set (replace pdfg) key value) pdfg.
Definition SetCover (pdfg : PDFGenerator) (path : string) : PDFGenerator :=
  with_Cover {| cover_Input := path; cover_pageOptions := cover_pageOptions (Cover pdfg) |} pdfg.

(** ** AddPage *)

Definition stringValue (name : string) (g : optionGroup) : string :=
  from_option so_value "" (stringField name g).

Definition mapValue (name : string) (g : optionGroup) : option (gmap string string) :=
  mo ← mapField name g; mo_value mo.

Definition on_pageOptions (f : optionGroup → optionGroup) (po : PageOptions) : PageOptions :=
  {| pageOptions := f (pageOptions po); headerAndFooterOptions := headerAndFooterOptions po |}.

Definition on_headerAndFooterOptions (f : optionGroup → optionGroup) (po : PageOptions)
  : PageOptions :=
  {| pageOptions := pageOptions po; headerAndFooterOptions := f (headerAndFooterOptions po) |}.

(** The body of [for k, v := range pdfg.replace.value], over the entries in
    the order [kvs] in which the loop visits them. *)
Definition copyAbsent (page : gmap string string) (kvs : list (string * string))
  : gmap string string :=
  foldl (λ m kv, if decide (is_Some (m !! kv.1)) then m else <[kv.1 := kv.2]> m) page kvs.

(** [if global != "" && opts.Name.value == "" { opts.Name.Set(global) }]. *)
Definition applyDefault (name global : string) (g : optionGroup) : optionGroup :=
  if decide (global ≠ "" ∧ stringValue name g = "")
  then alterString name (λ o, stringOption_Set o global) g
  else g.

(** The block [if pdfg.replace.value != nil { ... }]: the page's map is made
    if it is nil, then the loop runs. *)
Definition applyReplace (global : option (gmap string string)) (kvs : list (string * string))
    (g : optionGroup) : optionGroup :=
  match global with
  | Some _ =>
      alterMap "Replace" (λ mo,
        {| mo_option := mo_option mo;
           mo_value := Some (copyAbsent (default ∅ (mo_value mo)) kvs) |}) g
  | None => g
  end.

(** The four steps of [AddPage] on the page's options, [kvs] being the order
    in which the loop visits the global map.  [UserStyleSheet] is a field of
    the embedded [pageOptions]; [HeaderHTML], [FooterHTML] and [Replace] are
    fields of [headerAndFooterOptions]. *)
Definition mergeDefaults (pdfg : PDFGenerator) (kvs : list (string * string))
    (opts : PageOptions) : PageOptions :=
  let opts := on_pageOptions (applyDefault "UserStyleSheet" (userStyleSheetPath pdfg)) opts in
  let opts := on_headerAndFooterOptions (applyDefault "HeaderHTML" (headerHTMLPath pdfg)) opts in
  let opts := on_headerAndFooterOptions (applyDefault "FooterHTML" (footerHTMLPath pdfg)) opts in
  on_headerAndFooterOptions (applyReplace (mo_value (replace pdfg)) kvs) opts.

(** [pdfg.AddPage(p)] for a page whose pointer the sequence does not hold
    yet (a page just made by [NewPage], [NewPageReader] or [NewMarkdownPage],
    as in json.go, in the tests and in the commands): the merge is written
    to the page and the page goes to the end of the sequence. *)
Definition AddPage (pdfg : PDFGenerator) (p : PageProvider) : list PDFGenerator :=
  kvs ← rangeMap (mo_value (replace pdfg));
  mret (with_pages (pages pdfg ++ [withOptions p (mergeDefaults pdfg kvs (Options p))]) pdfg).

(** The page objects by address, and the pages that a slice of addresses
    shows (a slice built by [AddPage] holds no nil pointer; an address
    without an object shows no page). *)
Definition pagesOf (h : gmap nat PageProvider) (slice : list nat) : list PageProvider :=
  omap (λ p, h !! p) slice.

(** [pdfg.AddPage(p)] as it is written, on the pointer.  The page objects
    live in a heap [h], [pdfg.pages] is a slice of their addresses; the
    merge is written to the object at [p] and [p] itself is appended.  An
    address that the slice holds already shows the merged options in its
    earlier slots too.  An address without an object is the nil pointer, on
    which [p.Options()] panics ([None]).  The other fields of the document
    are those of [pdfg]; [AddPage] assigns to none of them. *)
Definition PDFGenerator_AddPage
 (pdfg : PDFGenerator) (h : gmap nat PageProvider)
    (slice : list nat) (p : nat) : option (list (gmap nat PageProvider * list nat)) :=
  page ← h !! p;
  Some (kvs ← rangeMap (mo_value (replace pdfg));
        mret (<[p := withOptions page (mergeDefaults pdfg kvs (Options page))]> h,
              slice ++ [p])).

(** ** The interchange records of json.go *)

Record jsonPage := {
  Type_ : string;            (* "page", "reader" or "markdown" *)
  jsonPage_PageOptions : PageOptions;
  jsonPage_InputFile : string;
  jsonPage_InputPath : string;
  Base64PageData : string;
}.

Record jsonPDFGenerator := {
  GlobalOptions : optionGroup;
  OutlineOptions : optionGroup;
  jsonCover : cover;
  jsonTOC : toc;
  Pages : list jsonPage;
}.

(** ** The world outside the package

    The file system, the markdown library, [encoding/base64], the text
    layer of [encoding/json] (the option kinds marshal all their fields, see
    the [MarshalJSON] and [UnmarshalJSON] methods of json.go) and the search
    for the executable that [findPath] performs. *)
Record Env := {
  ReadFile : string → bytes + error;        (* os.ReadFile *)
  markdownToHTML : bytes → bytes;           (* parser.Parse, then markdown.Render *)
  EncodeToString : bytes → string;          (* base64.StdEncoding *)
  DecodeString : string → bytes + error;
  Marshal : jsonPDFGenerator → bytes + error;      (* json.Marshal *)
  Unmarshal : bytes → jsonPDFGenerator + error;    (* json.NewDecoder(r).Decode *)
  Quote : string → string;                  (* the verb %q of fmt *)
  findPath : string + error;
}.

(** ** Library functions used by [MarkdownPage.Reader] *)

Definition byteString (codes : list N) : string :=
  String.string_of_list_ascii (Ascii.ascii_of_N <$> codes).

(** The UTF-8 encodings of the code points for which [unicode.IsSpace]
    holds: tab, line feed, vertical tab, form feed, carriage return, space,
    U+0085, U+00A0, U+1680, U+2000 to U+200A, U+2028, U+2029, U+202F,
    U+205F and U+3000. *)
Definition spaceRunes : list string :=
  byteString <$>
    [ [9]; [10]; [11]; [12]; [13]; [32]; [194; 133]; [194; 160]; [225; 154; 128];
      [226; 128; 128]; [226; 128; 129]; [226; 128; 130]; [226; 128; 131];
      [226; 128; 132]; [226; 128; 133]; [226; 128; 134]; [226; 128; 135];
      [226; 128; 136]; [226; 128; 137]; [226; 128; 138]; [226; 128; 168];
      [226; 128; 169]; [226; 128; 175]; [226; 129; 159]; [227; 128; 128] ]%N.

Fixpoint stripPrefix (p s : string) : option string :=
  match p, s with
  | EmptyString, _ => Some s
  | String a p, String b s => if decide (a = b) then stripPrefix p s else None
  | String _ _, EmptyString => None
  end.

Definition stripOne (runes : list string) (s : string) : option string :=
  list_find (λ o, is_Some o) ((λ r, stripPrefix r s) <$> runes) ≫= snd.

Fixpoint trimLeftWith (runes : list string) (fuel : nat) (s : string) : string :=
  match fuel with
  | 0 => s
  | S fuel =>
      match stripOne runes s with
      | Some s' => trimLeftWith runes fuel s'
      | None => s
      end
  end.

(** [strings.TrimSpace]: leading, then trailing white space is cut. *)
Definition TrimSpace (s : string) : string :=
  let l := trimLeftWith spaceRunes (String.length s) s in
  String.rev (trimLeftWith (String.rev <$> spaceRunes) (String.length l) (String.rev l)).

Definition newline : ascii := Ascii.ascii_of_N 10.
Definition carriageReturn : ascii := Ascii.ascii_of_N 13.

(** [bufio.ScanLines]: the data is cut after every line feed; a last piece
    without line feed is a line too, unless it is empty. [cur] is the
    current piece, reversed. *)
Fixpoint splitLines (cur : string) (data : string) : list string :=
  match data with
  | EmptyString => if decide (cur = "") then [] else [String.rev cur]
  | String c data =>
      if decide (c = newline) then String.rev cur :: splitLines "" data
      else splitLines (String c cur) data
  end.

(** [dropCR]: one trailing carriage return is removed. *)
Definition dropCR (line : string) : string :=
  match String.rev line with
  | String c r => if decide (c = carriageReturn) then String.rev r else line
  | EmptyString => line
  end.

(** [bufio.MaxScanTokenSize]: a piece that does not fit the buffer ends the
    scan (with [bufio.ErrTooLong]). *)
Definition MaxScanTokenSize : N := 65536.

Fixpoint scanTokens (pieces : list string) : list string :=
  match pieces with
  | [] => []
  | piece :: pieces =>
      if (N.of_nat (String.length piece) <? MaxScanTokenSize)%N
      then dropCR piece :: scanTokens pieces
      else []
  end.

(** The lines that [for scanner.Scan()] visits over [data]. *)
Definition scannerLines (data : bytes) : list string := scanTokens (splitLines "" data).

(** ** MarkdownPage.Reader *)

(** The scanning loop of [Reader]: [Some byteOffset] when the loop leaves
    with [skipped = true], [None] when it ends with [skipped = false]. *)
Fixpoint skipScan (lines : list string) (byteOffset : nat) (foundH1 : bool) : option nat :=
  match lines with
  | [] => None
  | line :: lines =>
      let trimmedLine := TrimSpace line in
      let lineLen := String.length line + 1 in
      if negb foundH1 && HasPrefix trimmedLine "# " then
        skipScan lines (byteOffset + lineLen) true
      else if foundH1 && HasPrefix trimmedLine "## " then
        Some (byteOffset + lineLen)
      else if foundH1 && bool_decide (trimmedLine ≠ "") then
        Some byteOffset
      else if foundH1 && bool_decide (trimmedLine = "") then
        skipScan lines (byteOffset + lineLen) foundH1
      else if negb foundH1 then
        skipScan lines (byteOffset + lineLen) foundH1
      else None
  end.

(** [b[off:]]; out of range the slice expression panics ([None]). *)
Definition sliceFrom (b : bytes) (off : nat) : option bytes :=
  if decide (off ≤ String.length b)
  then Some (String.substring off (String.length b - off) b)
  else None.

(** The bytes handed to the markdown parser; [None] is a run-time panic.
    The branch on [scanner.Err()] is taken only with [skipped = true], that
    is right after a [Scan] that succeeded, where the scanner holds no
    error. *)
Definition mdBytesToParse (skipFirstH1H2 : bool) (mdBytesAll : bytes) : option bytes :=
  if skipFirstH1H2 then
    match skipScan (scannerLines mdBytesAll) 0 false with
    | Some byteOffset => sliceFrom mdBytesAll byteOffset
    | None => Some mdBytesAll
    end
  else Some mdBytesAll.

Definition with_cache (cache : option bytes) (err : option error) (mp : MarkdownPage)
  : MarkdownPage :=
  {| InputPath := InputPath mp; SkipFirstH1H2 := SkipFirstH1H2 mp;
     MarkdownPage_PageOptions := MarkdownPage_PageOptions mp;
     htmlCache := cache; readErr := err |}.

Definition htmlOpen : string :=
  "<!DOCTYPE html><html><head><meta charset=" +:+ byteString [34%N] +:+ "utf-8"
    +:+ byteString [34%N] +:+ "><title></title></head><body>".
Definition htmlClose : string := "</body></html>".

(** [mp.Reader()]: the reader returned and the page afterwards; [None] is a
    run-time panic. *)
Definition MarkdownPage_Reader (E : Env) (mp : MarkdownPage)
  : option (ioReader * MarkdownPage) :=
  match readErr mp, htmlCache mp with
  | Some err, _ => Some (errorReader err, mp)
  | None, Some cache => Some (bytesReader cache, mp)
  | None, None =>
      match ReadFile E (InputPath mp) with
      | inr err =>
          let e := wrapError ("failed to read markdown file " +:+ InputPath mp +:+ ": "
                              +:+ Error err) err in
          Some (errorReader e, with_cache (htmlCache mp) (Some e) mp)
      | inl mdBytesAll =>
          toParse ← mdBytesToParse (SkipFirstH1H2 mp) mdBytesAll;
          let fullHTML := htmlOpen +:+ markdownToHTML E toParse +:+ htmlClose in
          Some (bytesReader fullHTML, with_cache (Some fullHTML) (readErr mp) mp)
      end
  end.

(** ** Readers

    A reader of the store holds the bytes not yet read and what follows
    them: end of file, or an error. *)
Record reader := { r_data : bytes; r_err : option error }.

Definition emptyReader : reader := {| r_data := ""; r_err := None |}.

(** [io.ReadAll(r)]: the result and the store afterwards.  A shared reader
    is left at its end. *)
Definition ReadAll (σ : gmap nat reader) (r : ioReader) : (bytes + error) * gmap nat reader :=
  match r with
  | storeReader ref =>
      let rd := default emptyReader (σ !! ref) in
      (match r_err rd with
       | None => inl (r_data rd)
       | Some err => inr err
       end,
       <[ref := {| r_data := ""; r_err := r_err rd |}]> σ)
  | bytesReader b => (inl b, σ)
  | errorReader err => (inr err, σ)
  end.

(** [page.Reader()]: the reader (or nil) and the page afterwards; [None] is
    a run-time panic. *)
Definition Reader (E : Env) (p : PageProvider) : option (option ioReader * PageProvider) :=
  match p with
  | IsPage _ => Some (None, p)
  | IsPageReader pr => Some (storeReader <$> PageReader_Input pr, p)
  | IsMarkdownPage mp =>
      match MarkdownPage_Reader E mp with
      | Some (r, mp') => Some (Some r, IsMarkdownPage mp')
      | None => None
      end
  end.

(** ** checkDuplicateFlags *)

Fixpoint checkDuplicates (options : list string) (args : list string) : option error :=
  match args with
  | [] => None
  | arg :: args =>
      if HasPrefix arg "--" then
        if existsb (λ option, bool_decide (option = arg)) options
        then Some (errorString ("duplicate argument: " +:+ arg))
        else checkDuplicates (options ++ [arg]) args
      else checkDuplicates options args
  end.

Definition checkDuplicateFlags (pdfg : PDFGenerator) : list (option error) :=
  args ← group_Args (globalOptions pdfg); mret (checkDuplicates [] args).

(** ** run *)

(** The command handed to [os/exec]. *)
Record Cmd := {
  Path : string;
  Args : list string;
  Stdin : option ioReader;
  Stdout : option nat;     (* the writer of SetOutput, or [None] for [&pdfg.outbuf] *)
  Stderr : option nat;     (* the writer of SetStderr, or [None] for the own buffer *)
}.

(** What [cmd.Run()] leaves behind: the bytes written to the two output
    streams, its error, and [ctx.Err()] afterwards. *)
Record ProcessResult := {
  stdoutBytes : bytes;
  stderrBytes : bytes;
  runErr : option error;
  ctxErr : option error;
}.

(** The loop that looks for the page to read standard input from. *)
Fixpoint selectStdin (E : Env) (pages : list PageProvider)
  : option (option ioReader * list PageProvider) :=
  match pages with
  | [] => Some (None, [])
  | page :: rest =>
      match Reader E page with
      | None => None
      | Some (Some _, page) =>
          match Reader E page with
          | None => None
          | Some (stdin, page) => Some (stdin, page :: rest)
          end
      | Some (None, page) =>
          match selectStdin E rest with
          | None => None
          | Some (stdin, rest) => Some (stdin, page :: rest)
          end
      end
  end.

Record RunResult := {
  result : option error;       (* the error returned *)
  spawned : option Cmd;        (* the command run, if any *)
  after : PDFGenerator;
}.

Definition processError (pdfg : PDFGenerator) (res : ProcessResult) : option error :=
  match runErr res with
  | None => None
  | Some err =>
      match ctxErr res with
      | Some ctxErr => Some ctxErr
      | None =>
          match stdErr pdfg with
          | None =>
              if decide (TrimSpace (stderrBytes res) ≠ "")
              then Some (errorString (stderrBytes res +:+ String newline "" +:+ Error err))
              else Some err
          | Some _ => Some err
          end
      end
  end.

(** [pdfg.run(ctx)], over a store [σ] of readers and an executable [proc];
    [None] is a run-time panic. *)
Definition run (E : Env) (proc : Cmd → gmap nat reader → ProcessResult)
    (σ : gmap nat reader) (pdfg : PDFGenerator) : list (option RunResult) :=
  err ← checkDuplicateFlags pdfg;
  match err with
  | Some err => mret (Some {| result := Some err; spawned := None; after := pdfg |})
  | None =>
      args ← PDFGenerator_Args pdfg;
      let pdfg1 := match outWriter pdfg with
                   | Some _ => pdfg
                   | None => with_outbuf "" pdfg
                   end in
      match selectStdin E (pages pdfg1) with
      | None => mret None
      | Some (stdin, pages') =>
          let cmd := {| Path := binPath pdfg; Args := args; Stdin := stdin;
                        Stdout := outWriter pdfg; Stderr := stdErr pdfg |} in
          let res := proc cmd σ in
          let pdfg2 := match outWriter pdfg with
                       | Some _ => with_pages pages' pdfg1
                       | None => with_outbuf (stdoutBytes res) (with_pages pages' pdfg1)
                       end in
          mret (Some {| result := processError pdfg res; spawned := Some cmd;
                        after := pdfg2 |})
      end
  end.

(** [Create] runs with [context.Background()], which is never cancelled;
    [CreateContext] runs with the caller's context. *)
Definition Create (E : Env) (proc : Cmd → gmap nat reader → ProcessResult)
    (σ : gmap nat reader) (pdfg : PDFGenerator) : list (option RunResult) :=
  run E (λ cmd σ, let res := proc cmd σ in
                  {| stdoutBytes := stdoutBytes res; stderrBytes := stderrBytes res;
                     runErr := runErr res; ctxErr := None |}) σ pdfg.

Definition CreateContext := run.

(** ** ToJSON *)

Definition readingError (type : string) (err : error) : error :=
  wrapError ("error reading content for JSON serialization (from " +:+ type +:+ "): "
             +:+ Error err) err.

(** The body of the loop over [pdfg.pages] for one page: the page record or
    the error returned, the store and the page afterwards; [None] is a
    run-time panic. *)
Definition pageToJSON (E : Env) (σ : gmap nat reader) (p : PageProvider)
  : option ((jsonPage + error) * gmap nat reader * PageProvider) :=
  let type := match p with
              | IsPage _ => "page"
              | IsPageReader _ => "reader"
              | IsMarkdownPage _ => "markdown"
              end in
  let inputPath := match p with
                   | IsMarkdownPage mp => InputPath mp
                   | _ => ""
                   end in
  let jp data := {| Type_ := type; jsonPage_PageOptions := Options p;
                    jsonPage_InputFile := InputFile p; jsonPage_InputPath := inputPath;
                    Base64PageData := data |} in
  match p with
  | IsPage _ => Some (inl (jp ""), σ, p)
  | _ =>
      match Reader E p with
      | None => None
      | Some (None, p') => Some (inl (jp ""), σ, p')
      | Some (Some pageContentReader, p') =>
          match ReadAll σ pageContentReader with
          | (inr err, σ') => Some (inr (readingError type err), σ', p')
          | (inl buf, σ') => Some (inl (jp (EncodeToString E buf)), σ', p')
          end
      end
  end.

Fixpoint pagesToJSON (E : Env) (σ : gmap nat reader) (ps : list PageProvider)
  : option ((list jsonPage + error) * gmap nat reader * list PageProvider) :=
  match ps with
  | [] => Some (inl [], σ, [])
  | p :: ps =>
      match pageToJSON E σ p with
      | None => None
      | Some (inr err, σ', p') => Some (inr err, σ', p' :: ps)
      | Some (inl jp, σ', p') =>
          match pagesToJSON E σ' ps with
          | None => None
          | Some (inr err, σ'', ps') => Some (inr err, σ'', p' :: ps')
          | Some (inl jps, σ'', ps') => Some (inl (jp :: jps), σ'', p' :: ps')
          end
      end
  end.

(** The record that [ToJSON] hands to [json.Marshal]. *)
Definition jsonOf (pdfg : PDFGenerator) (jps : list jsonPage) : jsonPDFGenerator :=
  {| GlobalOptions := globalOptions pdfg; OutlineOptions := outlineOptions pdfg;
     jsonCover := Cover pdfg; jsonTOC := TOC pdfg; Pages := jps |}.

(** [pdfg.ToJSON()]: the bytes or the error, the store and the document
    afterwards; [None] is a run-time panic. *)
Definition ToJSON (E : Env) (σ : gmap nat reader) (pdfg : PDFGenerator)
  : option ((bytes + error) * gmap nat reader * PDFGenerator) :=
  match pagesToJSON E σ (pages pdfg) with
  | None => None
  | Some (inr err, σ', ps') => Some (inr err, σ', with_pages ps' pdfg)
  | Some (inl jps, σ', ps') => Some (Marshal E (jsonOf pdfg jps), σ', with_pages ps' pdfg)
  end.

(** ** NewPDFGeneratorFromJSON *)

Definition NewPDFGenerator (E : Env) : PDFGenerator * option error :=
  match findPath E with
  | inl path => (with_binPath path NewPDFPreparer, None)
  | inr err => (NewPDFPreparer, Some err)
  end.

Definition formatInt (i : nat) : string := formatUint (N.of_nat i).

(** The loop over [jp.Pages], from page number [i] on. [bytes.NewReader]
    allocates a new reader in the store. *)
Fixpoint restorePages (E : Env) (i : nat) (ps : list jsonPage) (σ : gmap nat reader)
    (pdfg : PDFGenerator) : list ((PDFGenerator + error) * gmap nat reader) :=
  match ps with
  | [] => mret (inl pdfg, σ)
  | p :: ps =>
      if decide (Type_ p = "page") then
        if decide (jsonPage_InputFile p = "" ∨ jsonPage_InputFile p = "-") then
          mret (inr (errorString ("invalid InputFile value for page type on page "
                                  +:+ formatInt i)), σ)
        else
          let page := {| Page_Input := jsonPage_InputFile p;
                         Page_PageOptions := jsonPage_PageOptions p |} in
          pdfg' ← AddPage pdfg (IsPage page);
          restorePages E (S i) ps σ pdfg'
      else if decide (Type_ p = "reader") then
        if decide (Base64PageData p = "") then
          mret (inr (errorString ("missing Base64PageData for reader type on page "
                                  +:+ formatInt i)), σ)
        else
          match DecodeString E (Base64PageData p) with
          | inr err =>
              mret (inr (wrapError ("error decoding base64 input for reader type on page "
                                    +:+ formatInt i +:+ ": " +:+ Error err) err), σ)
          | inl buf =>
              let ref := fresh (dom σ) in
              let σ' := <[ref := {| r_data := buf; r_err := None |}]> σ in
              let pageReader := {| PageReader_Input := Some ref;
                                   PageReader_PageOptions := jsonPage_PageOptions p |} in
              pdfg' ← AddPage pdfg (IsPageReader pageReader);
              restorePages E (S i) ps σ' pdfg'
          end
      else if decide (Type_ p = "markdown") then
        if decide (jsonPage_InputPath p = "") then
          mret (inr (errorString ("missing InputPath for markdown type on page "
                                  +:+ formatInt i)), σ)
        else
          let markdownPage := {| InputPath := jsonPage_InputPath p; SkipFirstH1H2 := false;
                                 MarkdownPage_PageOptions := jsonPage_PageOptions p;
                                 htmlCache := None; readErr := None |} in
          pdfg' ← AddPage pdfg (IsMarkdownPage markdownPage);
          restorePages E (S i) ps σ pdfg'
      else
        mret (inr (errorString ("unknown page type " +:+ Quote E (Type_ p)
                                +:+ " encountered during JSON deserialization on page "
                                +:+ formatInt i)), σ)
  end.

Definition NewPDFGeneratorFromJSON (E : Env) (σ : gmap nat reader) (jsonReader : bytes)
  : list ((PDFGenerator + error) * gmap nat reader) :=
  match Unmarshal E jsonReader with
  | inr err => mret (inr (errorString ("error unmarshaling JSON: " +:+ Error err)), σ)
  | inl jp =>
      match NewPDFGenerator E with
      | (_, Some err) =>
          mret (inr (errorString ("error creating PDF generator: " +:+ Error err)), σ)
      | (pdfg, None) =>
          let pdfg := with_TOC (jsonTOC jp) pdfg in
          let pdfg := with_Cover (jsonCover jp) pdfg in
          let pdfg := with_globalOptions (GlobalOptions jp) pdfg in
          let pdfg := with_outlineOptions (OutlineOptions jp) pdfg in
          restorePages E 0 (Pages jp) σ pdfg
      end
  end.

(** ** Calls of [Set] on a field of a group: [g.Name.Set(v)] *)

Definition setString (name value : string) : optionGroup → optionGroup :=
  alterString name (λ o, stringOption_Set o value).
Definition setBool (name : string) (value : bool) : optionGroup → optionGroup :=
  alterField name (λ c, match c with BoolCell o => BoolCell (boolOption_Set o value) | _ => c end).
Definition setUint (name : string) (value : N) : optionGroup → optionGroup :=
  alterField name (λ c, match c with UintCell o => UintCell (uintOption_Set o value) | _ => c end).
Definition setFloat (name : string) (value : float) : optionGroup → optionGroup :=
  alterField name (λ c, match c with FloatCell o => FloatCell (floatOption_Set o value) | _ => c end).
Definition setMap (name key value : string) : optionGroup → optionGroup :=
  alterMap name (λ o, mapOption_Set o key value).
Definition setSlice (name value : string) : optionGroup → optionGroup :=
  alterField name (λ c, match c with SliceCell o => SliceCell (sliceOption_Set o value) | _ => c end).

Definition on_globalOptions (f : optionGroup → optionGroup) (pdfg : PDFGenerator) : PDFGenerator :=
  with_globalOptions (f (globalOptions pdfg)) pdfg.

(** The document of newTestPDFGenerator, and the string of
    expectedArgString. *)
Definition testDocument : list PDFGenerator :=
  let pdfg :=
    on_globalOptions
      (λ g, setUint "MarginLeft" 0 (setUint "MarginBottom" 40 (setString "PageSize" PageSizeA4
              (setBool "NoCollate" false (setUint "Dpi" 600 g)))))
      NewPDFPreparer in
  let page1 :=
    on_pageOptions
      (λ g, setBool "EnableLocalFileAccess" true (setString "ViewportSize" "3840x2160"
              (setMap "CustomHeader" "X-AppKey" "abcdef"
                 (setSlice "Allow" "/usr/local/images" (setSlice "Allow" "/usr/local/html"
                    (setBool "DisableSmartShrinking" true g))))))
      (on_headerAndFooterOptions (setFloat "HeaderSpacing" 0x1.4051eb851eb85p+3%float)
         NewPageOptions) in
  pdfg ← AddPage pdfg (IsPage {| Page_Input := "https://www.google.com";
                                 Page_PageOptions := page1 |});
  let pdfg :=
    with_Cover {| cover_Input := "https://wkhtmltopdf.org/index.html";
                  cover_pageOptions := setFloat "Zoom" 0.75%float
                                         (cover_pageOptions (Cover pdfg)) |} pdfg in
  mret (with_TOC {| Include := true;
                    toc_pageOptions := toc_pageOptions (TOC pdfg);
                    tocOptions := setBool "DisableDottedLines" true (tocOptions (TOC pdfg));
                    toc_headerAndFooterOptions := toc_headerAndFooterOptions (TOC pdfg) |}
          pdfg).

Definition expectedArgString : string :=
  "--dpi 600 --margin-bottom 40 --margin-left 0 --page-size A4 "
  +:+ "cover https://wkhtmltopdf.org/index.html --zoom 0.750 toc --disable-dotted-lines "
  +:+ "page https://www.google.com --allow /usr/local/html --allow /usr/local/images "
  +:+ "--custom-header X-AppKey abcdef --disable-smart-shrinking "
  +:+ "--enable-local-file-access --viewport-size 3840x2160 --header-spacing 10.010 -".

(** The document of TestUnitOptions. *)
Definition unitOptionsDocument : list PDFGenerator :=
  pdfg ← AddPage NewPDFPreparer (IsPage (NewPage "https://www.google.com"));
  mret (on_globalOptions
          (λ g, setString "PageWidthUnit" "5.5in" (setString "PageHeightUnit" "10in"
                  (setString "MarginTopUnit" "10mm" (setString "MarginBottomUnit" "0.5cm"
                     (setString "MarginLeftUnit" "2cm" (setString "MarginRightUnit" "1mm" g))))))
          pdfg).

(** * Vocabulary of the properties and sample documents *)

(** ** Vocabulary for C1: the component order of [Args] *)

Definition coverPart (pdfg : PDFGenerator) (c : list string) : Prop :=
  if decide (cover_Input (Cover pdfg) ≠ "") then
    ∃ a, a ∈ group_Args (cover_pageOptions (Cover pdfg))
         ∧ c = ["cover"; cover_Input (Cover pdfg)] ++ a
  else c = [].

Definition tocPart (pdfg : PDFGenerator) (t : list string) : Prop :=
  if Include (TOC pdfg) then
    ∃ l s h, l ∈ group_Args (toc_pageOptions (TOC pdfg))
             ∧ s ∈ group_Args (tocOptions (TOC pdfg))
             ∧ h ∈ group_Args (toc_headerAndFooterOptions (TOC pdfg))
             ∧ t = ["toc"] ++ l ++ s ++ h
  else t = [].

Definition pagePart (page : PageProvider) (part : list string) : Prop :=
  ∃ a, a ∈ PageProvider_Args page ∧ part = ["page"; InputFile page] ++ a.

Definition outputTarget (pdfg : PDFGenerator) : string :=
  if decide (OutputFile pdfg ≠ "") then OutputFile pdfg else "-".

(** ** Vocabulary for C2: the duplicate-flag check *)

Definition occurrences (a : string) (l : list string) : nat :=
  length (filter (λ x, x = a) l).

(** [a] is a flag token that occurs more than once in [args]. *)
Definition duplicatedFlag (args : list string) (a : string) : Prop :=
  HasPrefix a "--" = true ∧ 2 ≤ occurrences a args.

(** [a] is a flag that occurs more than once in what the global group's
    [Args()] returns. *)
Definition globalDuplicate (pdfg : PDFGenerator) (a : string) : Prop :=
  ∃ gargs, gargs ∈ group_Args (globalOptions pdfg) ∧ duplicatedFlag gargs a.

(** The build stopped at the check: the error names [a], nothing was
    spawned and the document is as it was. *)
Definition abortedWith (pdfg : PDFGenerator) (a : string) (out : option RunResult) : Prop :=
  out = Some {| result := Some (errorString ("duplicate argument: " +:+ a));
                spawned := None; after := pdfg |}.

Definition flags (args : list string) : list string :=
  filter (λ a, HasPrefix a "--" = true) args.

(** A well-behaved world for the concrete scenarios: no markdown file is
    readable, base64 is the identity, and the JSON text layer gives back
    the record [j]. *)
Definition sampleEnv (j : jsonPDFGenerator) : Env :=
  {| ReadFile := λ _, inr (errorString "open: no such file or directory");
     markdownToHTML := λ b, b;
     EncodeToString := λ b, b;
     DecodeString := λ s, inl s;
     Marshal := λ _, inl "{}";
     Unmarshal := λ _, inl j;
     Quote := λ s, s;
     findPath := inl "/usr/local/bin/wkhtmltopdf" |}.

Definition sampleProcess : Cmd → gmap nat reader → ProcessResult :=
  λ _ _, {| stdoutBytes := "%PDF-"; stderrBytes := ""; runErr := None; ctxErr := None |}.

Definition emptyJSON : jsonPDFGenerator := jsonOf NewPDFPreparer [].

(** The document of TestDuplicateOptions. *)
Definition duplicateOptionsDocument : PDFGenerator :=
  on_globalOptions (λ g, setString "MarginRightUnit" "1cm" (setUint "MarginRight" 1 g))
    (with_pages [IsPage (NewPage "https://www.google.com")] NewPDFPreparer).

(** ** Vocabulary for C3: AddPage merges the global defaults *)

(** What the merge promises for a slot of a string option. *)
Definition mergedValue (global own : string) : string :=
  if decide (global ≠ "" ∧ own = "") then global else own.

(** What the merge promises for the placeholder map: with no global map
    the page's map is untouched; else the page gets a map, with its own
    entries and those global ones whose key it does not hold. *)
Definition mergedReplace (global own result : option (gmap string string)) : Prop :=
  match global with
  | None => result = own
  | Some g =>
      ∃ m, result = Some m ∧
           ∀ k, m !! k = match default ∅ own !! k with
                         | Some v => Some v
                         | None => g !! k
                         end
  end.

(** The page declares the four fields that [AddPage] touches. *)
Definition declaresDefaults (opts : PageOptions) : Prop :=
  is_Some (stringField "UserStyleSheet" (pageOptions opts)) ∧
  is_Some (stringField "HeaderHTML" (headerAndFooterOptions opts)) ∧
  is_Some (stringField "FooterHTML" (headerAndFooterOptions opts)) ∧
  is_Some (mapField "Replace" (headerAndFooterOptions opts)).

(** A document with a global stylesheet, footer and placeholder, and a page
    that brings its own footer and its own value for the same placeholder. *)
Definition defaultsDocument : PDFGenerator :=
  SetReplace (SetFooterHTML (SetUserStyleSheet NewPDFPreparer "theme.css") "footer.html")
    "author" "LocalRivet".

Definition ownFooterPage : PageProvider :=
  IsPage {| Page_Input := "https://example.com";
            Page_PageOptions :=
              on_headerAndFooterOptions
                (λ g, setMap "Replace" "author" "Me" (setString "FooterHTML" "own.html" g))
                NewPageOptions |}.


(** ** Vocabulary for C5: the derived-markup page computes its content once *)

(** Later calls of [mp.Reader()], one per environment of [Es], each with
    the file system and the markdown library as they are by then. *)
Fixpoint readerCalls (Es : list Env) (mp : MarkdownPage)
  : option (list ioReader * MarkdownPage) :=
  match Es with
  | [] => Some ([], mp)
  | E :: Es =>
      match MarkdownPage_Reader E mp with
      | None => None
      | Some (r, mp) =>
          match readerCalls Es mp with
          | None => None
          | Some (rs, mp) => Some (r :: rs, mp)
          end
      end
  end.

(** A readable markdown file, which is gone at the later calls. *)
Definition fileEnv (content : bytes) : Env :=
  {| ReadFile := λ _, inl content;
     markdownToHTML := λ b, b;
     EncodeToString := λ b, b;
     DecodeString := λ s, inl s;
     Marshal := λ _, inl "{}";
     Unmarshal := λ _, inl emptyJSON;
     Quote := λ s, s;
     findPath := inl "/usr/local/bin/wkhtmltopdf" |}.

(** ** Vocabulary for C9: the first page with a reader feeds standard input *)

(** Two stream pages, over the readers 0 and 1 of the store. *)
Definition twoStreamsDocument : PDFGenerator :=
  with_pages [IsPageReader (NewPageReader (Some 0)); IsPageReader (NewPageReader (Some 1))]
    NewPDFPreparer.

Definition twoStreams : gmap nat reader :=
  {[ 0 := {| r_data := "<p>one</p>"; r_err := None |};
     1 := {| r_data := "<p>two</p>"; r_err := None |} ]}.

(** ** Vocabulary for C7: repeated calls of [Args] *)

(** A page with two custom headers. *)
Definition twoHeadersDocument : PDFGenerator :=
  with_pages
    [IsPage {| Page_Input := "https://example.com";
               Page_PageOptions :=
                 on_pageOptions
                   (λ g, setMap "CustomHeader" "X-B" "2" (setMap "CustomHeader" "X-A" "1" g))
                   NewPageOptions |}]
    NewPDFPreparer.

(** ** Vocabulary for C8: the Letter scenario *)

(** Page size Letter, top margin "25mm", one page at https://example.com. *)
Definition letterDocument : list PDFGenerator :=
  AddPage
    (on_globalOptions
       (λ g, setString "MarginTopUnit" "25mm" (setString "PageSize" PageSizeLetter g))
       NewPDFPreparer)
    (IsPage (NewPage "https://example.com")).

(** The same configuration made in another order: the page first, then the
    top margin, then the page size. *)
Definition letterDocumentLate : list PDFGenerator :=
  pdfg ← AddPage NewPDFPreparer (IsPage (NewPage "https://example.com"));
  mret (on_globalOptions
          (λ g, setString "PageSize" PageSizeLetter (setString "MarginTopUnit" "25mm" g))
          pdfg).

(** ** Vocabulary for C10: serialization consumes the stream pages *)

(** The reader of a stream page is at its end; a markdown page holds its
    converted bytes. *)
Definition settled (σ : gmap nat reader) (p : PageProvider) : Prop :=
  match p with
  | IsPage _ => True
  | IsPageReader pr => ∀ ref, PageReader_Input pr = Some ref → σ !! ref = Some emptyReader
  | IsMarkdownPage mp => is_Some (htmlCache mp) ∧ readErr mp = None
  end.

(** The page is the same page, the cache of a markdown page apart. *)
Definition samePage (p p' : PageProvider) : Prop :=
  match p with
  | IsMarkdownPage mp =>
      ∃ mp', p' = IsMarkdownPage mp' ∧ InputPath mp' = InputPath mp
             ∧ SkipFirstH1H2 mp' = SkipFirstH1H2 mp
             ∧ MarkdownPage_PageOptions mp' = MarkdownPage_PageOptions mp
  | _ => p' = p
  end.

(** What the second serialization embeds for a page: the encoding of no
    bytes at all for a stream page with a reader. *)
Definition emptyBlob (E : Env) (p : PageProvider) (jp : jsonPage) : Prop :=
  match p with
  | IsPageReader pr => is_Some (PageReader_Input pr) → Base64PageData jp = EncodeToString E ""
  | _ => True
  end.

(** One stream page over the reader 0. *)
Definition streamDocument : PDFGenerator :=
  with_pages [IsPageReader (NewPageReader (Some 0))] NewPDFPreparer.

Definition streamStore : gmap nat reader :=
  {[ 0 := {| r_data := "<p>content</p>"; r_err := None |} ]}.

(** ** Vocabulary for C4: the round trip through JSON *)

Definition readerRef (p : PageProvider) : option nat :=
  match p with
  | IsPageReader pr => PageReader_Input pr
  | _ => None
  end.

(** A page that [NewPDFGeneratorFromJSON] accepts back: a located page
    whose locator is neither empty nor "-", or a stream page whose reader
    still has bytes to give and gives them without error. *)
Definition restorablePage (σ : gmap nat reader) (p : PageProvider) : Prop :=
  match p with
  | IsPage pg => Page_Input pg ≠ "" ∧ Page_Input pg ≠ "-"
  | IsPageReader pr =>
      ∃ ref rd, PageReader_Input pr = Some ref ∧ σ !! ref = Some rd
                ∧ r_err rd = None ∧ r_data rd ≠ ""
  | IsMarkdownPage _ => False
  end.

(** The pages can be restored, and no two of them share a reader. *)
Definition restorablePages (σ : gmap nat reader) (ps : list PageProvider) : Prop :=
  Forall (restorablePage σ) ps ∧ NoDup (omap readerRef ps).

(** [encoding/base64] decodes what it encodes, and encodes only the empty
    input to the empty string. *)
Definition base64Sound (E : Env) : Prop :=
  (∀ b, DecodeString E (EncodeToString E b) = inl b) ∧
  (∀ b, EncodeToString E b = "" → b = "").

(** The record of a page that comes back as a page with the same locator
    and the same options. *)
Definition recordOf (E : Env) (p : PageProvider) (jp : jsonPage) : Prop :=
  jsonPage_PageOptions jp = Options p ∧ jsonPage_InputFile jp = InputFile p ∧
  match p with
  | IsPage pg => Type_ jp = "page" ∧ Page_Input pg ≠ "" ∧ Page_Input pg ≠ "-"
  | IsPageReader _ =>
      Type_ jp = "reader" ∧ ∃ buf, Base64PageData jp = EncodeToString E buf ∧ buf ≠ ""
  | IsMarkdownPage _ => False
  end.

(** A freshly made document holds no global defaults, so [AddPage] appends
    the page as it is. *)
Definition noDefaults (pdfg : PDFGenerator) : Prop :=
  userStyleSheetPath pdfg = "" ∧ headerHTMLPath pdfg = "" ∧ footerHTMLPath pdfg = ""
  ∧ mo_value (replace pdfg) = None.

(** The pages that come back: same locators, same options. *)
Definition sameArguments (p p' : PageProvider) : Prop :=
  Options p' = Options p ∧ InputFile p' = InputFile p.

(** A located page with a zoom of its own and a stream page. *)
Definition roundTripDocument : PDFGenerator :=
  with_pages
    [IsPage {| Page_Input := "https://example.com";
               Page_PageOptions := on_pageOptions (setString "ViewportSize" "800x600")
                                     NewPageOptions |};
     IsPageReader (NewPageReader (Some 0))]
    NewPDFPreparer.

Definition roundTripRecord : jsonPDFGenerator :=
  jsonOf roundTripDocument
    [ {| Type_ := "page";
         jsonPage_PageOptions := on_pageOptions (setString "ViewportSize" "800x600")
                                   NewPageOptions;
         jsonPage_InputFile := "https://example.com"; jsonPage_InputPath := "";
         Base64PageData := "" |};
      {| Type_ := "reader"; jsonPage_PageOptions := NewPageOptions;
         jsonPage_InputFile := "-"; jsonPage_InputPath := "";
         Base64PageData := "<p>content</p>" |} ].

(** The document writes to out.pdf. *)
Definition outputFileDocument : PDFGenerator :=
  with_OutputFile "out.pdf"
    (with_pages [IsPage (NewPage "https://example.com")] NewPDFPreparer).

Definition outputFileRecord : jsonPDFGenerator :=
  jsonOf outputFileDocument
    [ {| Type_ := "page"; jsonPage_PageOptions := NewPageOptions;
         jsonPage_InputFile := "https://example.com"; jsonPage_InputPath := "";
         Base64PageData := "" |} ].

(** ** Vocabulary for C6: the leading heading block *)

(** A markdown page with the skip flag, and a source with a line of text
    before its only heading. *)
Definition skippingPage : MarkdownPage :=
  {| InputPath := "notes.md"; SkipFirstH1H2 := true;
     MarkdownPage_PageOptions := NewPageOptions;
     htmlCache := None; readErr := None |}.

Definition introLines : list string := ["intro"; "# Title"; "body"].

Definition isH1 (line : string) : bool := HasPrefix (TrimSpace line) "# ".
Definition isH2 (line : string) : bool := HasPrefix (TrimSpace line) "## ".
Definition isBlank (line : string) : bool := bool_decide (TrimSpace line = "").

(** A source text whose lines all end in a line feed. *)
Fixpoint joinLines (lines : list string) : bytes :=
  match lines with
  | [] => ""
  | line :: lines => line +:+ String newline (joinLines lines)
  end.

Fixpoint hasNewline (s : string) : bool :=
  match s with
  | EmptyString => false
  | String c s => bool_decide (c = newline) || hasNewline s
  end.

(** A line as the scanner gives it back unchanged: no line feed inside, no
    carriage return at its end, and short enough for the scanner's buffer. *)
Definition plainLine (line : string) : Prop :=
  hasNewline line = false ∧ dropCR line = line
  ∧ (N.of_nat (String.length line) <? MaxScanTokenSize)%N = true.

(** The rule in the words of C6, on the lines of the source: of the first
    top-level heading and what follows it, (a) the heading, the blank lines
    and the second-level heading are skipped, or (b) the heading line only;
    every other line is kept. *)
Fixpoint dropBlankThenH2 (lines : list string) : option (list string) :=
  match lines with
  | [] => None
  | line :: lines =>
      if isH2 line then Some lines
      else if isBlank line then dropBlankThenH2 lines
      else None
  end.

Fixpoint specSkip (lines : list string) : list string :=
  match lines with
  | [] => []
  | line :: lines =>
      if isH1 line then
        match dropBlankThenH2 lines with
        | Some rest => rest
        | None => lines
        end
      else line :: specSkip lines
  end.

(** * Further parts of the package *)

(** ** The path of the executable

    The package variable [binPath] is a [stringStore]: a string behind a
    mutex.  The embedding is sequential, so [Get] and [Set] read and write
    the string. *)
Record stringStore := { val : string }.

Definition stringStore_Get (ss : stringStore) : string := val ss.
Definition stringStore_Set (ss : stringStore) (s : string) : stringStore := {| val := s |}.

(** [SetPath] and [GetPath], over the package variable. *)
Definition SetPath (store : stringStore) (path : string) : stringStore :=
  stringStore_Set store path.
Definition GetPath (store : stringStore) : string := stringStore_Get store.

(** What [findPath] asks of the operating system. *)
Record OS := {
  programDir : string + error;                  (* filepath.Abs(filepath.Dir(os.Args[0])) *)
  Join : string → string → string;              (* filepath.Join *)
  lookPath : string → string * option error;    (* the variable lookPath = exec.LookPath *)
  IsErrDot : error → bool;                      (* errors.Is(err, exec.ErrDot) *)
  Getenv : string → string;                     (* os.Getenv *)
}.

Definition exe : string := "wkhtmltopdf".

(** [err == nil && path != ""]. *)
Definition foundPath (r : string * option error) : bool :=
  match r.2 with
  | None => bool_decide (r.1 ≠ "")
  | Some _ => false
  end.

(** [errors.Is(err, exec.ErrDot)]; it is false of the nil error. *)
Definition errDot (os : OS) (r : string * option error) : bool :=
  match r.2 with
  | None => false
  | Some err => IsErrDot os err
  end.

(** [pdfg.findPath()]: the error returned, the package variable and the
    document afterwards. *)
Definition PDFGenerator_findPath (os : OS) (store : stringStore) (pdfg : PDFGenerator)
  : option error * stringStore * PDFGenerator :=
  let pdfg := with_binPath (GetPath store) pdfg in
  if decide (binPath pdfg ≠ "") then (None, store, pdfg)
  else
    match programDir os with
    | inr err => (Some err, store, pdfg)
    | inl exeDir =>
        let r := lookPath os (Join os exeDir exe) in
        if foundPath r then (None, stringStore_Set store r.1, with_binPath r.1 pdfg)
        else
          let r := lookPath os exe in
          if errDot os r then (r.2, store, pdfg)
          else if foundPath r then (None, stringStore_Set store r.1, with_binPath r.1 pdfg)
          else
            let dir := Getenv os "WKHTMLTOPDF_PATH" in
            if decide (dir = "") then (Some (errorString (exe +:+ " not found")), store, pdfg)
            else
              let r := lookPath os (Join os dir exe) in
              if errDot os r then (r.2, store, pdfg)
              else if foundPath r
              then (None, stringStore_Set store r.1, with_binPath r.1 pdfg)
              else (Some (errorString (exe +:+ " not found")), store, pdfg)
    end.

(** ** Vocabulary of the further properties *)

(** A document whose buffer holds the output of an earlier build. *)
Definition rebuiltDocument : PDFGenerator :=
  with_outbuf "%PDF-old" (with_pages [IsPage (NewPage "https://example.com")] NewPDFPreparer).

(** A process that fails after writing to both its streams. *)
Definition failingProcess : Cmd → gmap nat reader → ProcessResult :=
  λ _ _, {| stdoutBytes := "%PDF-1"; stderrBytes := "Exit with code 1 due to network error";
            runErr := Some (errorString "exit status 1"); ctxErr := None |}.

(** The text is empty or ends in a line feed. *)
Fixpoint terminated (b : bytes) : bool :=
  match b with
  | EmptyString => true
  | String c b' =>
      match b' with
      | EmptyString => bool_decide (c = newline)
      | String _ _ => terminated b'
      end
  end.

(** The bytes that the loop of [Reader] counts for a sequence of lines. *)
Definition linesLen (lines : list string) : nat :=
  sum_list ((λ line, String.length line + 1) <$> lines).

(** A markdown page over the file notes.md, with the skip flag. *)
Definition notesPage : MarkdownPage :=
  {| InputPath := "notes.md"; SkipFirstH1H2 := true;
     MarkdownPage_PageOptions := NewPageOptions; htmlCache := None; readErr := None |}.

(** The [Type] that [ToJSON] writes for a page. *)
Definition kindOf (p : PageProvider) : string :=
  match p with
  | IsPage _ => "page"
  | IsPageReader _ => "reader"
  | IsMarkdownPage _ => "markdown"
  end.

(** A located page, a markdown page whose file cannot be read, and a stream
    page over the reader 0 of the store. *)
Definition unreadableDocument : PDFGenerator :=
  with_pages [IsPage (NewPage "https://example.com");
              IsMarkdownPage (NewMarkdownPage "missing.md");
              IsPageReader (NewPageReader (Some 0))]
    NewPDFPreparer.

(** A page record that [NewPDFGeneratorFromJSON] takes: a "page" with a
    locator other than "" and "-", a "reader" with content that is not
    empty and decodes, or a "markdown" with a path. *)
Definition validRecord (E : Env) (p : jsonPage) : Prop :=
  (Type_ p = "page" ∧ jsonPage_InputFile p ≠ "" ∧ jsonPage_InputFile p ≠ "-") ∨
  (Type_ p = "reader" ∧ Base64PageData p ≠ ""
   ∧ ∃ buf, DecodeString E (Base64PageData p) = inl buf) ∨
  (Type_ p = "markdown" ∧ jsonPage_InputPath p ≠ "").

(** The page that a record comes back as, over the store [σ] of readers. *)
Definition restoredFrom (E : Env) (σ : gmap nat reader) (p : jsonPage) (page : PageProvider)
  : Prop :=
  match page with
  | IsPage pg =>
      Type_ p = "page" ∧
      pg = {| Page_Input := jsonPage_InputFile p; Page_PageOptions := jsonPage_PageOptions p |}
  | IsPageReader pr =>
      Type_ p = "reader" ∧ PageReader_PageOptions pr = jsonPage_PageOptions p ∧
      ∃ ref buf, PageReader_Input pr = Some ref ∧
                 DecodeString E (Base64PageData p) = inl buf ∧
                 σ !! ref = Some {| r_data := buf; r_err := None |}
  | IsMarkdownPage mp =>
      Type_ p = "markdown" ∧
      mp = {| InputPath := jsonPage_InputPath p; SkipFirstH1H2 := false;
              MarkdownPage_PageOptions := jsonPage_PageOptions p;
              htmlCache := None; readErr := None |}
  end.

(** The document that [NewPDFGeneratorFromJSON] makes of a record, before
    it adds the pages. *)
Definition restoredDocument (path : string) (jp : jsonPDFGenerator) : PDFGenerator :=
  with_outlineOptions (OutlineOptions jp)
    (with_globalOptions (GlobalOptions jp)
       (with_Cover (jsonCover jp) (with_TOC (jsonTOC jp) (with_binPath path NewPDFPreparer)))).

(** A record with a markdown page that was written with the skip flag. *)
Definition markdownRecord : jsonPDFGenerator :=
  jsonOf NewPDFPreparer
    [ {| Type_ := "markdown"; jsonPage_PageOptions := NewPageOptions;
         jsonPage_InputFile := "-"; jsonPage_InputPath := "notes.md";
         Base64PageData := "<h1>Title</h1>" |};
      {| Type_ := "reader"; jsonPage_PageOptions := NewPageOptions;
         jsonPage_InputFile := "-"; jsonPage_InputPath := "";
         Base64PageData := "<p>content</p>" |} ].

(** The record that a second [ToJSON] writes for [streamDocument]. *)
Definition drainedRecord : jsonPDFGenerator :=
  jsonOf streamDocument
    [ {| Type_ := "reader"; jsonPage_PageOptions := NewPageOptions;
         jsonPage_InputFile := "-"; jsonPage_InputPath := "";
         Base64PageData := "" |} ].

(** A page from which [run] gets no reader: a located page, or a stream
    page made with a nil reader. *)
Definition noReader (p : PageProvider) : Prop :=
  match p with
  | IsPage _ => True
  | IsPageReader pr => PageReader_Input pr = None
  | IsMarkdownPage _ => False
  end.

(** A located page and a stream page without a reader. *)
Definition nilReaderDocument : PDFGenerator :=
  with_pages [IsPage (NewPage "https://example.com"); IsPageReader (NewPageReader None)]
    NewPDFPreparer.

(** ** The JSON forms of the option kinds

    json.go gives each option kind a [MarshalJSON] and an [UnmarshalJSON]
    method over a struct of exported fields, which [encoding/json] encodes
    and decodes. *)

Record jsonBoolOption := { jbo_Option : string; jbo_Value : bool }.
Record jsonStringOption := { jso_Option : string; jso_Value : string }.
Record jsonUintOption := { juo_Option : string; juo_IsSet : bool; juo_Value : N }.
Record jsonFloatOption := { jfo_Option : string; jfo_IsSet : bool; jfo_Value : float }.
Record jsonMapOption := { jmo_Option : string; jmo_Value : option (gmap string string) }.
Record jsonSliceOption := { jslo_Option : string; jslo_Value : list string }.

(** [json.Marshal] and [json.Unmarshal] at the type [A]. *)
Record Codec (A : Type) := {
  json_Marshal : A → bytes + error;
  json_Unmarshal : bytes → A + error;
}.
Arguments json_Marshal {A}.
Arguments json_Unmarshal {A}.

Definition boolOption_MarshalJSON (J : Codec jsonBoolOption) (bo : boolOption) : bytes + error :=
  json_Marshal J {| jbo_Option := bo_option bo; jbo_Value := bo_value bo |}.

Definition boolOption_UnmarshalJSON (J : Codec jsonBoolOption) (bo : boolOption) (b : bytes)
  : boolOption * option error :=
  match json_Unmarshal J b with
  | inr err => (bo, Some err)
  | inl jbo => ({| bo_option := jbo_Option jbo; bo_value := jbo_Value jbo |}, None)
  end.

Definition stringOption_MarshalJSON (J : Codec jsonStringOption) (so : stringOption)
  : bytes + error :=
  json_Marshal J {| jso_Option := so_option so; jso_Value := so_value so |}.

Definition stringOption_UnmarshalJSON (J : Codec jsonStringOption) (so : stringOption)
    (b : bytes) : stringOption * option error :=
  match json_Unmarshal J b with
  | inr err => (so, Some err)
  | inl jso => ({| so_option := jso_Option jso; so_value := jso_Value jso |}, None)
  end.

Definition uintOption_MarshalJSON (J : Codec jsonUintOption) (io : uintOption) : bytes + error :=
  json_Marshal J {| juo_Option := uo_option io; juo_IsSet := uo_isSet io;
                    juo_Value := uo_value io |}.

Definition uintOption_UnmarshalJSON (J : Codec jsonUintOption) (io : uintOption) (b : bytes)
  : uintOption * option error :=
  match json_Unmarshal J b with
  | inr err => (io, Some err)
  | inl jio => ({| uo_option := juo_Option jio; uo_isSet := juo_IsSet jio;
                   uo_value := juo_Value jio |}, None)
  end.

Definition floatOption_MarshalJSON (J : Codec jsonFloatOption) (fo : floatOption)
  : bytes + error :=
  json_Marshal J {| jfo_Option := fo_option fo; jfo_IsSet := fo_isSet fo;
                    jfo_Value := fo_value fo |}.

Definition floatOption_UnmarshalJSON (J : Codec jsonFloatOption) (fo : floatOption) (b : bytes)
  : floatOption * option error :=
  match json_Unmarshal J b with
  | inr err => (fo, Some err)
  | inl jfo => ({| fo_option := jfo_Option jfo; fo_isSet := jfo_IsSet jfo;
                   fo_value := jfo_Value jfo |}, None)
  end.

Definition mapOption_MarshalJSON (J : Codec jsonMapOption) (mo : mapOption) : bytes + error :=
  json_Marshal J {| jmo_Option := mo_option mo; jmo_Value := mo_value mo |}.

Definition mapOption_UnmarshalJSON (J : Codec jsonMapOption) (mo : mapOption) (b : bytes)
  : mapOption * option error :=
  match json_Unmarshal J b with
  | inr err => (mo, Some err)
  | inl jmo => ({| mo_option := jmo_Option jmo; mo_value := jmo_Value jmo |}, None)
  end.

Definition sliceOption_MarshalJSON (J : Codec jsonSliceOption) (so : sliceOption)
  : bytes + error :=
  json_Marshal J {| jslo_Option := slo_option so; jslo_Value := slo_value so |}.

Definition sliceOption_UnmarshalJSON (J : Codec jsonSliceOption) (so : sliceOption) (b : bytes)
  : sliceOption * option error :=
  match json_Unmarshal J b with
  | inr err => (so, Some err)
  | inl jso => ({| slo_option := jslo_Option jso; slo_value := jslo_Value jso |}, None)
  end.

(** The decoder gives back the struct that was encoded as [b]. *)
Definition inverts {A} (J : Codec A) (b : bytes) : Prop :=
  ∀ a, json_Marshal J a = inl b → json_Unmarshal J b = inl a.

(** ** The runner's [-replace] flag (cmd/gopdf-runner/main.go) *)

Definition equalsSign : ascii := Ascii.ascii_of_N 61.

(** The text before and the text after the first "=". *)
Fixpoint cutAtEquals (s : string) : option (string * string) :=
  match s with
  | EmptyString => None
  | String c s' =>
      if decide (c = equalsSign) then Some ("", s')
      else match cutAtEquals s' with
           | Some (k, v) => Some (String c k, v)
           | None => None
           end
  end.

(** [strings.SplitN(value, "=", 2)]. *)
Definition SplitN2 (value : string) : list string :=
  match cutAtEquals value with
  | Some (k, v) => [k; v]
  | None => [value]
  end.

(** [r.Set(value)]: the map and the error afterwards; [None] is the run-time
    panic of an assignment to an entry of a nil map. *)
Definition replaceMap_Set (r : option (gmap string string)) (value : string)
  : option (option (gmap string string) * option error) :=
  let parts := SplitN2 value in
  if decide (length parts ≠ 2) then
    Some (r, Some (errorString ("invalid format for replace flag: " +:+ value
                                +:+ ". Use key=value")))
  else
    match parts, r with
    | k :: v :: _, Some m => Some (Some (<[k := v]> m), None)
    | _, _ => None
    end.

Fixpoint hasEquals (s : string) : bool :=
  match s with
  | EmptyString => false
  | String c s' => bool_decide (c = equalsSign) || hasEquals s'
  end.

(** A document of the one page [notesPage], and the record that [ToJSON]
    writes for it when the file holds "# Title". *)
Definition notesDocument : PDFGenerator :=
  with_pages [IsMarkdownPage notesPage] NewPDFPreparer.

Definition notesRecord : jsonPDFGenerator :=
  jsonOf NewPDFPreparer
    [ {| Type_ := "markdown"; jsonPage_PageOptions := NewPageOptions;
         jsonPage_InputFile := "-"; jsonPage_InputPath := "notes.md";
         Base64PageData := htmlOpen +:+ "# Title" +:+ htmlClose |} ].

(** ** The example program: the cover page (cmd/example/example.go)

    [createCoverPage] reads the titles of the markdown file with the same
    scanner and the same tests as [MarkdownPage.Reader], and writes a cover
    page that shows them. *)

(** The files of the example program.  A file that opens is read without
    error to its end. *)
Record FS := {
  os_Open : string → bytes + error;               (* os.Open, and the reads of the scanner *)
  os_WriteFile : string → bytes → option error;   (* os.WriteFile *)
}.

(** [strings.TrimPrefix]. *)
Definition TrimPrefix (s prefix : string) : string := default s (stripPrefix prefix s).

Definition ErrTooLong : error := errorString "bufio.Scanner: token too long".

(** [scanner.Err()] after a loop that ran until [Scan] returned false. *)
Fixpoint scanErr (pieces : list string) : option error :=
  match pieces with
  | [] => None
  | piece :: pieces =>
      if (N.of_nat (String.length piece) <? MaxScanTokenSize)%N then scanErr pieces
      else Some ErrTooLong
  end.

(** The loop of [createCoverPage] over the lines that the scanner gives:
    the two titles, and whether the loop was left by [break]. *)
Fixpoint coverScan (lines : list string) (foundH1 : bool) (h1Title h2Title : string)
  : string * string * bool :=
  match lines with
  | [] => (h1Title, h2Title, false)
  | text :: lines =>
      let line := TrimSpace text in
      if negb foundH1 && HasPrefix line "# " then
        coverScan lines true (TrimSpace (TrimPrefix line "# ")) h2Title
      else if foundH1 && bool_decide (h2Title = "") && HasPrefix line "## " then
        (h1Title, TrimSpace (TrimPrefix line "## "), true)
      else if foundH1 && bool_decide (line ≠ "") then (h1Title, h2Title, true)
      else coverScan lines foundH1 h1Title h2Title
  end.

Definition dq : string := byteString [34%N].

(** The text that [fmt.Sprintf] makes of the template. *)
Definition coverTemplate (h1Title h2Title author : string) : string :=
  String.concat (String newline "")
    [ "<!DOCTYPE html>";
      "<html>";
      "<head>";
      "    <meta charset=" +:+ dq +:+ "utf-8" +:+ dq +:+ ">";
      "    <title>Cover</title>";
      "    <style>";
      "        html, body { height: 100%; margin: 0; padding: 0; "
        +:+ "font-family: sans-serif; } /* Ensure full height */";
      "        body { display: flex; flex-direction: column; "
        +:+ "justify-content: center; /* Vertical centering with flex */ "
        +:+ "min-height: 100vh; text-align: center; padding: 5%; box-sizing: "
        +:+ "border-box; }";
      "        .content { max-width: 80%; margin-left: auto; margin-right: "
        +:+ "auto; } /* Horizontal centering with auto margins */";
      "        h1 { font-size: 2.8em; margin-bottom: 0.5em; color: #111; "
        +:+ "line-height: 1.2; font-weight: bold; } /* Ensure H1 is bold */";
      "        h2 { font-size: 1.6em; color: #555; font-weight: normal; "
        +:+ "margin-bottom: 1.5em; line-height: 1.3; }";
      "        .author { font-size: 1.2em; color: #444; margin-top: 2em; }";
      "    </style>";
      "</head>";
      "<body>";
      "    <div class=" +:+ dq +:+ "content" +:+ dq +:+ ">";
      "        <h1>" +:+ h1Title +:+ "</h1>";
      "        <h2>" +:+ h2Title +:+ "</h2>";
      "        <div class=" +:+ dq +:+ "author" +:+ dq +:+ ">" +:+ author
        +:+ "</div> <!-- Added author -->";
      "    </div>";
      "</body>";
      "</html>" ].

(** What a call of [createCoverPage] returns, and the file it has handed to
    [os.WriteFile], if any. *)
Record CoverResult := {
  returnedPath : string;
  returnedErr : option error;
  written : option (string * bytes);
}.

Definition createCoverPage (fs : FS) (markdownPath coverPath author : string) : CoverResult :=
  match os_Open fs markdownPath with
  | inr err =>
      {| returnedPath := "";
         returnedErr := Some (wrapError ("failed to open markdown file: " +:+ Error err) err);
         written := None |}
  | inl content =>
      let pieces := splitLines "" content in
      let '(h1Title, h2Title, broke) := coverScan (scanTokens pieces) false "" "" in
      match (if broke then None else scanErr pieces) with
      | Some err =>
          {| returnedPath := "";
             returnedErr := Some (wrapError ("error scanning markdown file: " +:+ Error err) err);
             written := None |}
      | None =>
          if decide (h1Title = "") then
            {| returnedPath := "";
               returnedErr := Some (errorString "no H1 title found in markdown file");
               written := None |}
          else
            let coverHTML := coverTemplate h1Title h2Title author in
            match os_WriteFile fs coverPath coverHTML with
            | Some err =>
                {| returnedPath := "";
                   returnedErr := Some (wrapError ("failed to write cover page HTML: "
                                                +:+ Error err) err);
                   written := Some (coverPath, coverHTML) |}
            | None =>
                {| returnedPath := coverPath; returnedErr := None;
                   written := Some (coverPath, coverHTML) |}
            end
      end
  end.

(** The title that [createCoverPage] takes from a heading line. *)
Definition headingTitle (prefix line : string) : string :=
  TrimSpace (TrimPrefix (TrimSpace line) prefix).

(** A file system with the one markdown file [content], in which every
    write succeeds. *)
Definition oneFile (content : bytes) : FS :=
  {| os_Open := λ _, inl content; os_WriteFile := λ _ _, None |}.

(** ** The runner: from the flags to the document (cmd/gopdf-runner/main.go) *)

(** The values of the command-line flags after [flag.Parse()]. *)
Record RunnerFlags := {
  input : string;
  outputPath : string;
  inputType : string;
  themePath : string;
  footerPath : string;
  headerPath : string;
  coverFile : string;       (* the variable coverPath *)
  skipH1H2 : bool;
  marginTop : string;
  marginBottom : string;
  marginLeft : string;
  marginRight : string;
  pageSize : string;
  orientation : string;
  docTitle : string;        (* the variable title *)
  replacements : gmap string string;
}.

(** The statement [if value != "" { pdfg.Name.Set(value) }] over the value of
    a flag, for a string option of the global group. *)
Definition setIfGiven (name value : string) (pdfg : PDFGenerator) : PDFGenerator :=
  if decide (value ≠ "") then on_globalOptions (setString name value) pdfg else pdfg.

(** The part of [main] that applies the flags to the document, up to the
    loop over the replacements; [coverFound] says whether [os.Stat] finds
    the cover file. *)
Definition applySettings (f : RunnerFlags) (coverFound : bool) (pdfg : PDFGenerator)
  : PDFGenerator :=
  let pdfg := setIfGiven "Title" (docTitle f) pdfg in
  let pdfg := setIfGiven "PageSize" (pageSize f) pdfg in
  let pdfg := setIfGiven "Orientation" (orientation f) pdfg in
  let pdfg := setIfGiven "MarginTopUnit" (marginTop f) pdfg in
  let pdfg := setIfGiven "MarginBottomUnit" (marginBottom f) pdfg in
  let pdfg := setIfGiven "MarginLeftUnit" (marginLeft f) pdfg in
  let pdfg := setIfGiven "MarginRightUnit" (marginRight f) pdfg in
  let pdfg := if decide (themePath f ≠ "") then SetUserStyleSheet pdfg (themePath f)
              else pdfg in
  let pdfg := if decide (footerPath f ≠ "") then SetFooterHTML pdfg (footerPath f)
              else pdfg in
  let pdfg := if decide (headerPath f ≠ "") then SetHeaderHTML pdfg (headerPath f)
              else pdfg in
  if decide (coverFile f ≠ "") then
    if coverFound then SetCover pdfg (coverFile f) else pdfg
  else pdfg.

(** The settings, then the loop [for k, v := range replacements], which
    visits the map in an order that the runtime picks. *)
Definition applyFlags (f : RunnerFlags) (coverFound : bool) (pdfg : PDFGenerator)
  : list PDFGenerator :=
  let pdfg := applySettings f coverFound pdfg in
  kvs ← rangeMap (Some (replacements f));
  mret (foldl (λ pdfg kv, SetReplace pdfg kv.1 kv.2) pdfg kvs).

(** The page that [main] makes of the input: a markdown page over the
    temporary file [tmpName], or a stream page over a new reader [ref] that
    holds the input; [lowered] is what [strings.ToLower] makes of the flag
    inputType.  [None] is the exit of [log.Fatalf]. *)
Definition runnerPage (f : RunnerFlags) (lowered tmpName : string) (ref : nat)
  : option PageProvider :=
  if decide (lowered = "markdown") then
    let mdPage := NewMarkdownPage tmpName in
    Some (IsMarkdownPage {| InputPath := InputPath mdPage; SkipFirstH1H2 := skipH1H2 f;
                            MarkdownPage_PageOptions := MarkdownPage_PageOptions mdPage;
                            htmlCache := htmlCache mdPage; readErr := readErr mdPage |})
  else if decide (lowered = "html") then Some (IsPageReader (NewPageReader (Some ref)))
  else None.

(** The document that [main] hands to [Create]. *)
Definition runnerDocument (f : RunnerFlags) (coverFound : bool) (lowered tmpName : string)
    (ref : nat) (pdfg : PDFGenerator) : option (list PDFGenerator) :=
  match runnerPage f lowered tmpName ref with
  | None => None
  | Some pageProvider => Some (pdfg ← applyFlags f coverFound pdfg; AddPage pdfg pageProvider)
  end.

(** The flags of a run with a theme, a footer and two replacements. *)
Definition sampleFlags : RunnerFlags :=
  {| input := "<p>Hello</p>"; outputPath := "out.pdf"; inputType := "html";
     themePath := "theme.css"; footerPath := "footer.html"; headerPath := "";
     coverFile := "cover.html"; skipH1H2 := false;
     marginTop := "25mm"; marginBottom := ""; marginLeft := ""; marginRight := "";
     pageSize := "Letter"; orientation := ""; docTitle := "";
     replacements := {[ "author" := "LocalRivet"; "date" := "today" ]} |}.

(** A text of [n] letters. *)
Fixpoint letters (n : nat) : string :=
  match n with
  | 0 => ""
  | S n => String (Ascii.ascii_of_N 120) (letters n)
  end.

(** * Properties *)

(** ** The outcomes of the append loop *)

Lemma elem_of_appendAll {A} (f : A → list (list string)) xs args r :
  r ∈ appendAll f args xs ↔
  ∃ parts, Forall2 (λ x part, part ∈ f x) xs parts ∧ r = args ++ concat parts.
Proof.
  revert args. induction xs as [|x xs IH]; intros args; simpl.
  - rewrite list_elem_of_singleton. split.
    + intros ->. exists []. split; [constructor | by rewrite app_nil_r].
    + intros (parts & Hf & ->). inversion Hf; subst. by rewrite app_nil_r.
  - rewrite list_elem_of_bind. split.
    + intros (s & Hr & Hs). apply IH in Hr as (parts & Hf & ->).
      exists (s :: parts). split; [by constructor |]. by rewrite <- app_assoc.
    + intros (parts & Hf & ->). inversion Hf as [|? s ? parts' Hs Hf']; subst.
      exists s. split; [| done]. apply IH. exists parts'. split; [done |].
      by rewrite <- app_assoc.
Qed.

Lemma rangeMap_nonempty m : rangeMap m ≠ [].
Proof.
  destruct m as [m|]; simpl; [| done].
  intros H. pose proof (permutations_refl (map_to_list m)) as Hin.
  rewrite H in Hin. by apply not_elem_of_nil in Hin.
Qed.

Lemma bind_nonempty {A B} (f : A → list B) (l : list A) :
  l ≠ [] → (∀ x, f x ≠ []) → l ≫= f ≠ [].
Proof.
  destruct l as [|x l]; [done |]. intros _ Hf. simpl.
  specialize (Hf x). destruct (f x); [done | by simpl].
Qed.

Lemma Parse_nonempty c : Parse c ≠ [].
Proof. by destruct c. Qed.

Lemma appendAll_nonempty {A} (f : A → list (list string)) xs args :
  (∀ x, f x ≠ []) → appendAll f args xs ≠ [].
Proof.
  intros Hf. revert args. induction xs as [|x xs IH]; intros args; simpl; [done |].
  apply bind_nonempty; [apply Hf | intros s; apply IH].
Qed.

Lemma group_Args_nonempty g : group_Args g ≠ [].
Proof. apply appendAll_nonempty. intros [? c]. apply Parse_nonempty. Qed.

Lemma PageOptions_Args_nonempty po : PageOptions_Args po ≠ [].
Proof.
  unfold PageOptions_Args.
  apply bind_nonempty; [apply group_Args_nonempty | intros a].
  apply bind_nonempty; [apply group_Args_nonempty | done].
Qed.

Lemma pageFragments_nonempty page : pageFragments page ≠ [].
Proof.
  unfold pageFragments, PageProvider_Args.
  apply bind_nonempty; [apply PageOptions_Args_nonempty | done].
Qed.

Lemma PDFGenerator_Args_nonempty pdfg : PDFGenerator_Args pdfg ≠ [].
Proof.
  unfold PDFGenerator_Args.
  apply bind_nonempty; [apply group_Args_nonempty | intros g].
  apply bind_nonempty; [apply group_Args_nonempty | intros o].
  apply bind_nonempty.
  { case_decide; [| done].
    apply bind_nonempty; [apply group_Args_nonempty | done]. }
  intros args1. apply bind_nonempty.
  { destruct (Include (TOC pdfg)); [| done].
    apply bind_nonempty; [apply group_Args_nonempty | intros p].
    apply bind_nonempty; [apply group_Args_nonempty | intros t].
    apply bind_nonempty; [apply group_Args_nonempty | done]. }
  intros args2. apply bind_nonempty.
  { apply appendAll_nonempty, pageFragments_nonempty. }
  intros args3. by case_decide.
Qed.

(** ** C1: the component order of [Args] *)

Lemma elem_of_pages_loop (ps : list PageProvider) args r :
  r ∈ appendAll pageFragments args ps ↔
  ∃ parts, Forall2 pagePart ps parts ∧ r = args ++ concat parts.
Proof.
  rewrite elem_of_appendAll. split.
  - intros (parts & Hf & ->). exists parts. split; [| done].
    eapply Forall2_impl; [exact Hf |]. intros page part Hp.
    unfold pageFragments in Hp. apply list_elem_of_bind in Hp as (a & Hp & Ha).
    apply list_elem_of_ret in Hp. by exists a.
  - intros (parts & Hf & ->). exists parts. split; [| done].
    eapply Forall2_impl; [exact Hf |]. intros page part (a & Ha & ->).
    unfold pageFragments. apply list_elem_of_bind. exists a. split; [| done].
    by apply list_elem_of_ret.
Qed.

(** Every result of [Args()] falls into its components. *)
Lemma PDFGenerator_Args_parts (pdfg : PDFGenerator) r :
  r ∈ PDFGenerator_Args pdfg →
  ∃ g o c t ps,
    g ∈ group_Args (globalOptions pdfg) ∧
    o ∈ group_Args (outlineOptions pdfg) ∧
    coverPart pdfg c ∧
    tocPart pdfg t ∧
    Forall2 pagePart (pages pdfg) ps ∧
    r = g ++ o ++ c ++ t ++ concat ps ++ [outputTarget pdfg].
Proof.
  unfold PDFGenerator_Args, coverPart, tocPart, outputTarget. intros Hr.
  apply list_elem_of_bind in Hr as (g & Hr & Hg).
  apply list_elem_of_bind in Hr as (o & Hr & Ho).
  apply list_elem_of_bind in Hr as (args1 & Hr & H1).
  apply list_elem_of_bind in Hr as (args2 & Hr & H2).
  apply list_elem_of_bind in Hr as (args3 & Hr & H3).
  apply elem_of_pages_loop in H3 as (ps & Hps & ->).
  assert (Hc : ∃ c, args1 = g ++ o ++ c ∧
    if decide (cover_Input (Cover pdfg) ≠ "") then
      ∃ a, a ∈ group_Args (cover_pageOptions (Cover pdfg))
           ∧ c = ["cover"; cover_Input (Cover pdfg)] ++ a
    else c = []).
  { case_decide.
    - apply list_elem_of_bind in H1 as (a & H1 & Ha). apply list_elem_of_ret in H1.
      exists (["cover"; cover_Input (Cover pdfg)] ++ a). split; [| by exists a].
      subst args1. simpl. by rewrite <- !app_assoc.
    - apply list_elem_of_ret in H1. exists []. split; [| done].
      subst args1. simpl. by rewrite app_nil_r. }
  destruct Hc as (c & -> & Hc).
  assert (Ht : ∃ t, args2 = (g ++ o ++ c) ++ t ∧
    if Include (TOC pdfg) then
      ∃ l s h, l ∈ group_Args (toc_pageOptions (TOC pdfg))
               ∧ s ∈ group_Args (tocOptions (TOC pdfg))
               ∧ h ∈ group_Args (toc_headerAndFooterOptions (TOC pdfg))
               ∧ t = ["toc"] ++ l ++ s ++ h
    else t = []).
  { destruct (Include (TOC pdfg)).
    - apply list_elem_of_bind in H2 as (l & H2 & Hl).
      apply list_elem_of_bind in H2 as (s & H2 & Hs).
      apply list_elem_of_bind in H2 as (h & H2 & Hh).
      apply list_elem_of_ret in H2.
      exists (["toc"] ++ l ++ s ++ h). split; [| by exists l, s, h].
      subst args2. by rewrite <- !app_assoc.
    - apply list_elem_of_ret in H2. exists []. split; [| done].
      subst args2. by rewrite app_nil_r. }
  destruct Ht as (t & -> & Ht).
  exists g, o, c, t, ps. repeat split; try done.
  destruct (decide (OutputFile pdfg ≠ "")); apply list_elem_of_ret in Hr; subst r;
    by rewrite <- !app_assoc.
Qed.

(** C1. [Args()] returns, and whatever it returns is made of the global
    group's arguments, the outline group's, then (only with a cover locator)
    "cover", the locator and the cover's page options, then (only with the
    TOC included) "toc" and the three TOC groups, then for each page in order
    "page", its locator and its own arguments, and last exactly one output
    target: the output file, or "-" when there is none.  Every sequence of
    that shape is a possible result. *)
Theorem Args_component_order (pdfg : PDFGenerator) :
  PDFGenerator_Args pdfg ≠ [] ∧
  ∀ r, r ∈ PDFGenerator_Args pdfg ↔
    ∃ g o c t ps,
      g ∈ group_Args (globalOptions pdfg) ∧
      o ∈ group_Args (outlineOptions pdfg) ∧
      coverPart pdfg c ∧
      tocPart pdfg t ∧
      Forall2 pagePart (pages pdfg) ps ∧
      r = g ++ o ++ c ++ t ++ concat ps ++ [outputTarget pdfg].
Proof.
  split; [apply PDFGenerator_Args_nonempty |].
  intros r. split; [apply PDFGenerator_Args_parts |].
  unfold PDFGenerator_Args, coverPart, tocPart, outputTarget.
  intros (g & o & c & t & ps & Hg & Ho & Hc & Ht & Hps & ->).
  apply list_elem_of_bind. exists g. split; [| done].
  apply list_elem_of_bind. exists o. split; [| done].
  apply list_elem_of_bind. exists (g ++ o ++ c). split; cycle 1.
  { case_decide.
    - destruct Hc as (a & Ha & ->). apply list_elem_of_bind. exists a.
      split; [| done]. apply list_elem_of_ret. simpl. by rewrite <- !app_assoc.
    - subst c. apply list_elem_of_ret. simpl. by rewrite app_nil_r. }
  apply list_elem_of_bind. exists ((g ++ o ++ c) ++ t). split; cycle 1.
  { destruct (Include (TOC pdfg)).
    - destruct Ht as (l & s & h & Hl & Hs & Hh & ->).
      apply list_elem_of_bind. exists l. split; [| done].
      apply list_elem_of_bind. exists s. split; [| done].
      apply list_elem_of_bind. exists h. split; [| done].
      apply list_elem_of_ret. by rewrite <- !app_assoc.
    - subst t. apply list_elem_of_ret. by rewrite app_nil_r. }
  apply list_elem_of_bind. exists (((g ++ o ++ c) ++ t) ++ concat ps). split; cycle 1.
  { apply elem_of_pages_loop. by exists ps. }
  destruct (decide (OutputFile pdfg ≠ "")); apply list_elem_of_ret;
    by rewrite <- !app_assoc.
Qed.

(** ** C2: the duplicate-flag check *)

Lemma occurrences_cons a x l :
  occurrences a (x :: l) = (if decide (x = a) then 1 else 0) + occurrences a l.
Proof. unfold occurrences. rewrite filter_cons. by case_decide. Qed.

Lemma occurrences_app a l k : occurrences a (l ++ k) = occurrences a l + occurrences a k.
Proof. unfold occurrences. by rewrite filter_app, length_app. Qed.

Lemma occurrences_pos a l : a ∈ l ↔ 1 ≤ occurrences a l.
Proof.
  induction l as [|x l IH].
  - split; [by intros ?%elem_of_nil | unfold occurrences; simpl; lia].
  - rewrite occurrences_cons, elem_of_cons. case_decide as Hx.
    + split; [lia | intros _; by left].
    + rewrite <- IH. split; [intros [-> | ?]; [congruence | done] | by right].
Qed.

Lemma occurrences_NoDup a l : NoDup l → occurrences a l ≤ 1.
Proof.
  induction 1 as [|x l Hx _ IH]; [unfold occurrences; simpl; lia |].
  rewrite occurrences_cons. case_decide; [| lia]. subst x.
  assert (occurrences a l = 0); [| lia].
  destruct (occurrences a l) eqn:E; [done |].
  exfalso. apply Hx, occurrences_pos. lia.
Qed.

Lemma occurrences_Permutation a l k : l ≡ₚ k → occurrences a l = occurrences a k.
Proof. intros H. unfold occurrences. by rewrite H. Qed.

Lemma existsb_elem_of (arg : string) options :
  existsb (λ option, bool_decide (option = arg)) options = true ↔ arg ∈ options.
Proof.
  rewrite existsb_exists. split.
  - intros (x & Hx & ->%bool_decide_eq_true). by apply list_elem_of_In.
  - intros H. exists arg. split; [by apply list_elem_of_In | by apply bool_decide_eq_true].
Qed.

Lemma checkDuplicates_spec args : ∀ options,
  match checkDuplicates options args with
  | Some err =>
      ∃ a, err = errorString ("duplicate argument: " +:+ a)
           ∧ HasPrefix a "--" = true ∧ a ∈ args ∧ 2 ≤ occurrences a (options ++ args)
  | None => NoDup options → NoDup (options ++ flags args)
  end.
Proof.
  induction args as [|arg args IH]; intros options; simpl.
  - unfold flags. rewrite filter_nil. by rewrite app_nil_r.
  - destruct (HasPrefix arg "--") eqn:Hp.
    + destruct (existsb _ options) eqn:Hex.
      * apply existsb_elem_of in Hex. exists arg. repeat split; [done | set_solver |].
        rewrite occurrences_app, occurrences_cons. rewrite decide_True by done.
        apply occurrences_pos in Hex. lia.
      * assert (arg ∉ options) as Hnotin.
        { intros Hin%existsb_elem_of. congruence. }
        specialize (IH (options ++ [arg])).
        destruct (checkDuplicates (options ++ [arg]) args) as [err|].
        -- destruct IH as (a & -> & Ha & Hin & Hocc). exists a.
           repeat split; [done | set_solver |].
           by rewrite <- app_assoc in Hocc.
        -- intros Hnd. unfold flags. rewrite filter_cons, decide_True by done.
           rewrite <- app_assoc in IH. apply IH.
           apply NoDup_app. repeat split; [done | | apply NoDup_singleton].
           intros x Hx ->%list_elem_of_singleton. done.
    + specialize (IH options). destruct (checkDuplicates options args) as [err|].
      * destruct IH as (a & -> & Ha & Hin & Hocc). exists a.
        repeat split; [done | set_solver |].
        rewrite occurrences_app, occurrences_cons. rewrite occurrences_app in Hocc. lia.
      * unfold flags. rewrite filter_cons, decide_False by congruence. apply IH.
Qed.

Lemma occurrences_flags a args :
  HasPrefix a "--" = true → occurrences a (flags args) = occurrences a args.
Proof.
  intros Ha. induction args as [|x args IH]; [done |].
  unfold flags. rewrite filter_cons. case_decide.
  - rewrite !occurrences_cons. unfold flags in IH. by rewrite IH.
  - rewrite occurrences_cons, decide_False by congruence. apply IH.
Qed.

(** The check reports an error exactly for arguments with a repeated flag,
    and the flag it names is a repeated one. *)
Lemma checkDuplicates_iff args :
  (∃ a, duplicatedFlag args a) ↔ is_Some (checkDuplicates [] args).
Proof.
  pose proof (checkDuplicates_spec args []) as H. split.
  - intros (a & Ha & Hocc). destruct (checkDuplicates [] args); [done |].
    exfalso. specialize (H (NoDup_nil_2)). simpl in H.
    apply (occurrences_NoDup a) in H. rewrite occurrences_flags in H by done. lia.
  - intros [err Herr]. rewrite Herr in H. destruct H as (a & _ & Ha & _ & Hocc).
    by exists a.
Qed.

Lemma checkDuplicates_names args err :
  checkDuplicates [] args = Some err →
  ∃ a, err = errorString ("duplicate argument: " +:+ a) ∧ duplicatedFlag args a.
Proof.
  intros Herr. pose proof (checkDuplicates_spec args []) as H. rewrite Herr in H.
  destruct H as (a & -> & Ha & _ & Hocc). by exists a.
Qed.

(** The results of one group are rearrangements of one another. *)
Lemma Parse_Permutation c a b : a ∈ Parse c → b ∈ Parse c → a ≡ₚ b.
Proof.
  destruct c; simpl; by intros ->%list_elem_of_singleton ->%list_elem_of_singleton.
Qed.

Lemma concat_Permutation_Forall2 {A} (f : A → list (list string)) xs pa pb :
  (∀ x p q, p ∈ f x → q ∈ f x → p ≡ₚ q) →
  Forall2 (λ x part, part ∈ f x) xs pa →
  Forall2 (λ x part, part ∈ f x) xs pb →
  concat pa ≡ₚ concat pb.
Proof.
  intros Hf Ha. revert pb. induction Ha as [|x p xs pa Hp _ IH]; intros pb Hb.
  - by inversion Hb.
  - inversion Hb as [|? q ? pb' Hq Hb']; subst. simpl.
    rewrite (Hf x p q Hp Hq). by rewrite (IH pb' Hb').
Qed.

Lemma group_Args_Permutation g a b : a ∈ group_Args g → b ∈ group_Args g → a ≡ₚ b.
Proof.
  unfold group_Args.
  intros (pa & Ha & ->)%elem_of_appendAll (pb & Hb & ->)%elem_of_appendAll. simpl.
  eapply (concat_Permutation_Forall2 (λ fld, Parse fld.2)); [| exact Ha | exact Hb].
  intros x p q. apply Parse_Permutation.
Qed.

Lemma duplicatedFlag_Permutation args1 args2 a :
  args1 ≡ₚ args2 → duplicatedFlag args1 a → duplicatedFlag args2 a.
Proof.
  intros Hp [Ha Hocc]. split; [done |]. by rewrite <- (occurrences_Permutation a _ _ Hp).
Qed.

Lemma run_nonempty E proc σ pdfg : run E proc σ pdfg ≠ [].
Proof.
  unfold run. apply bind_nonempty.
  - unfold checkDuplicateFlags. apply bind_nonempty; [apply group_Args_nonempty | done].
  - intros [err|]; [done |].
    apply bind_nonempty; [apply PDFGenerator_Args_nonempty |].
    intros args. by destruct (selectStdin _ _) as [[??]|].
Qed.

(** C2. The build returns.  It stops at the check, with the error
    "duplicate argument: " followed by the flag, exactly when some token
    that starts with "--" occurs more than once in the arguments of the
    global group; the flag named is such a token.  The check reads the
    global group only: documents with the same global group get the same
    verdict, whatever their cover, TOC and pages hold.  When the check
    fails nothing is spawned and the document, its output buffer included,
    is left as it was; when it passes, the build goes on to the process. *)
Theorem duplicate_flags_abort_build E proc σ (pdfg : PDFGenerator) :
  run E proc σ pdfg ≠ [] ∧
  (∀ pdfg', globalOptions pdfg' = globalOptions pdfg →
            checkDuplicateFlags pdfg' = checkDuplicateFlags pdfg) ∧
  ∀ out, out ∈ run E proc σ pdfg →
    ((∃ a, globalDuplicate pdfg a) ↔ (∃ a, abortedWith pdfg a out)) ∧
    (∀ a, abortedWith pdfg a out → globalDuplicate pdfg a) ∧
    (∀ rr, out = Some rr →
       (spawned rr = None ∧ after rr = pdfg ∧ outbuf (after rr) = outbuf pdfg
        ∧ ∃ a, abortedWith pdfg a out)
       ∨ (∃ cmd, spawned rr = Some cmd ∧ ¬ ∃ a, globalDuplicate pdfg a)).
Proof.
  split; [apply run_nonempty |]. split.
  { intros pdfg' Hg. unfold checkDuplicateFlags. by rewrite Hg. }
  intros out Hout. unfold run in Hout.
  apply list_elem_of_bind in Hout as (err & Hout & Hcheck).
  unfold checkDuplicateFlags in Hcheck.
  apply list_elem_of_bind in Hcheck as (gargs & ->%list_elem_of_ret & Hgargs).
  destruct (checkDuplicates [] gargs) as [err|] eqn:Hc.
  - apply list_elem_of_ret in Hout.
    destruct (checkDuplicates_names _ _ Hc) as (a & -> & Ha).
    assert (abortedWith pdfg a out) as Hab by done.
    assert (globalDuplicate pdfg a) as Hdup by (by exists gargs).
    repeat split.
    + intros _. by exists a.
    + intros _. by exists a.
    + intros a' Ha'. unfold abortedWith in Ha', Hab. rewrite Hab in Ha'.
      injection Ha' as Ha'. apply (inj (String.app _)) in Ha'. by subst a'.
    + intros rr Hrr. left. rewrite Hout in Hrr. injection Hrr as <-. simpl.
      repeat split. by exists a.
  - assert (¬ ∃ a, globalDuplicate pdfg a) as Hnodup.
    { intros (a & gargs' & Hg' & Ha).
      assert (is_Some (checkDuplicates [] gargs)) as [? ?]; [| congruence].
      apply checkDuplicates_iff. exists a.
      eapply duplicatedFlag_Permutation; [| exact Ha].
      by apply (group_Args_Permutation (globalOptions pdfg)). }
    apply list_elem_of_bind in Hout as (args & Hout & Hargs).
    assert (∀ a, ¬ abortedWith pdfg a out) as Hnab.
    { intros a Hab. unfold abortedWith in Hab.
      destruct (selectStdin _ _) as [[??]|];
        apply list_elem_of_ret in Hout; rewrite Hout in Hab; congruence. }
    repeat split.
    + intros H. by destruct Hnodup.
    + intros [a Ha]. by destruct (Hnab a).
    + intros a Ha. by destruct (Hnab a).
    + intros rr Hrr. right.
      destruct (selectStdin _ _) as [[stdin pages']|];
        apply list_elem_of_ret in Hout; rewrite Hout in Hrr; [| done].
      injection Hrr as <-. simpl. eauto.
Qed.

Lemma duplicate_flags_abort_build_witness :
  Forall (λ out, ∃ a, abortedWith duplicateOptionsDocument a out
                      ∧ globalDuplicate duplicateOptionsDocument a)
    (run (sampleEnv emptyJSON) sampleProcess ∅ duplicateOptionsDocument).
Proof.
  apply Forall_forall. intros out Hout.
  destruct (duplicate_flags_abort_build (sampleEnv emptyJSON) sampleProcess ∅
              duplicateOptionsDocument) as (_ & _ & H).
  destruct (H out Hout) as (Hiff & Hname & _).
  assert (∃ a, globalDuplicate duplicateOptionsDocument a) as Hdup.
  { exists "--margin-right", ["--margin-right"; "1"; "--margin-right"; "1cm"].
    split; [vm_compute; left | split; [reflexivity |]].
    assert (occurrences "--margin-right"
              ["--margin-right"; "1"; "--margin-right"; "1cm"] = 2) as ->
      by (vm_compute; reflexivity).
    lia. }
  apply Hiff in Hdup as [a Ha]. exists a. split; [done | by apply Hname].
Defined.

(** ** C3: AddPage merges the global defaults *)

Lemma getField_alterField n n' f g :
  getField n' (alterField n f g)
  = if decide (n = n') then f <$> getField n' g else getField n' g.
Proof.
  induction g as [|[m c] g IH]; simpl; [by case_decide |].
  destruct (decide (m = n)) as [->|Hm]; simpl.
  - by destruct (decide (n = n')).
  - destruct (decide (m = n')) as [->|Hm']; simpl.
    + by rewrite decide_False by congruence.
    + apply IH.
Qed.

(** The loop over the global map copies a pair exactly when the page has no
    entry under its key, in whatever order it runs. *)
Lemma copyAbsent_lookup kvs : ∀ page k,
  copyAbsent page kvs !! k
  = match page !! k with
    | Some v => Some v
    | None => (list_to_map kvs : gmap string string) !! k
    end.
Proof.
  induction kvs as [|[k0 v0] kvs IH]; intros page k; simpl.
  - rewrite lookup_empty. by destruct (page !! k).
  - unfold copyAbsent in *. simpl. rewrite IH. case_decide as Hk0.
    + destruct (page !! k) eqn:Hk; [done |].
      rewrite lookup_insert_ne; [done |]. intros ->. rewrite Hk in Hk0.
      by apply is_Some_None in Hk0.
    + apply eq_None_not_Some in Hk0.
      destruct (decide (k0 = k)) as [->|Hne].
      * by rewrite Hk0, !lookup_insert_eq.
      * by rewrite !lookup_insert_ne.
Qed.

Lemma copyAbsent_range (global page : gmap string string) kvs k :
  kvs ∈ rangeMap (Some global) →
  copyAbsent page kvs !! k
  = match page !! k with
    | Some v => Some v
    | None => global !! k
    end.
Proof.
  simpl. intros Hp%permutations_Permutation. rewrite copyAbsent_lookup.
  rewrite <- (list_to_map_proper _ _ (NoDup_fst_map_to_list global) Hp).
  by rewrite list_to_map_to_list.
Qed.

Lemma applyDefault_value name global g :
  is_Some (stringField name g) →
  stringValue name (applyDefault name global g) = mergedValue global (stringValue name g).
Proof.
  unfold applyDefault, mergedValue. intros [o Ho]. case_decide; [| done].
  unfold stringValue, stringField, alterString in *. rewrite getField_alterField.
  rewrite decide_True by done.
  destruct (getField name g) as [[]|]; simplify_eq. done.
Qed.

Lemma applyDefault_other name name' global g :
  name ≠ name' → getField name' (applyDefault name global g) = getField name' g.
Proof.
  intros Hne. unfold applyDefault, alterString. case_decide; [| done].
  rewrite getField_alterField. by rewrite decide_False.
Qed.

Lemma applyReplace_other name' global kvs g :
  "Replace" ≠ name' → getField name' (applyReplace global kvs g) = getField name' g.
Proof.
  intros Hne. unfold applyReplace, alterMap. destruct global; [| done].
  rewrite getField_alterField. by rewrite decide_False.
Qed.

Lemma applyReplace_value global kvs g :
  is_Some (mapField "Replace" g) →
  kvs ∈ rangeMap global →
  mergedReplace global (mapValue "Replace" g) (mapValue "Replace" (applyReplace global kvs g)).
Proof.
  intros [mo Hmo] Hkvs. unfold mergedReplace, applyReplace. destruct global as [gm|]; [| done].
  unfold mapValue, mapField, alterMap in *. rewrite getField_alterField.
  rewrite decide_True by done.
  destruct (getField "Replace" g) as [[]|]; simplify_eq. simpl.
  eexists. split; [done |]. intros k. by apply copyAbsent_range.
Qed.

Lemma stringValue_getField name g g' :
  getField name g = getField name g' → stringValue name g = stringValue name g'.
Proof. unfold stringValue, stringField. by intros ->. Qed.

Lemma stringField_getField name g g' :
  getField name g = getField name g' → stringField name g = stringField name g'.
Proof. unfold stringField. by intros ->. Qed.

Lemma mergeDefaults_spec pdfg kvs opts :
  declaresDefaults opts →
  kvs ∈ rangeMap (mo_value (replace pdfg)) →
  let opts' := mergeDefaults pdfg kvs opts in
  stringValue "UserStyleSheet" (pageOptions opts')
    = mergedValue (userStyleSheetPath pdfg) (stringValue "UserStyleSheet" (pageOptions opts)) ∧
  stringValue "HeaderHTML" (headerAndFooterOptions opts')
    = mergedValue (headerHTMLPath pdfg)
        (stringValue "HeaderHTML" (headerAndFooterOptions opts)) ∧
  stringValue "FooterHTML" (headerAndFooterOptions opts')
    = mergedValue (footerHTMLPath pdfg)
        (stringValue "FooterHTML" (headerAndFooterOptions opts)) ∧
  mergedReplace (mo_value (replace pdfg))
    (mapValue "Replace" (headerAndFooterOptions opts))
    (mapValue "Replace" (headerAndFooterOptions opts')).
Proof.
  intros (Hcss & Hhead & Hfoot & Hrep) Hkvs. destruct opts as [po hf].
  unfold mergeDefaults, on_pageOptions, on_headerAndFooterOptions. simpl in *.
  split; [by apply applyDefault_value |].
  split.
  { erewrite stringValue_getField by (by rewrite applyReplace_other, applyDefault_other).
    by apply applyDefault_value. }
  split.
  { erewrite stringValue_getField by (by rewrite applyReplace_other).
    rewrite applyDefault_value.
    - f_equal. apply stringValue_getField. by rewrite applyDefault_other.
    - erewrite stringField_getField; [exact Hfoot |]. by rewrite applyDefault_other. }
  assert (mapValue "Replace" hf
          = mapValue "Replace"
              (applyDefault "FooterHTML" (footerHTMLPath pdfg)
                 (applyDefault "HeaderHTML" (headerHTMLPath pdfg) hf))) as ->.
  { unfold mapValue, mapField. by rewrite !applyDefault_other. }
  apply applyReplace_value; [| done].
  unfold mapField. by rewrite !applyDefault_other.
Qed.

Lemma AddPage_nonempty pdfg p : AddPage pdfg p ≠ [].
Proof. unfold AddPage. apply bind_nonempty; [apply rangeMap_nonempty | done]. Qed.

Lemma pagesOf_app h a b : pagesOf h (a ++ b) = pagesOf h a ++ pagesOf h b.
Proof. unfold pagesOf. apply omap_app. Qed.

Lemma pagesOf_insert_other (h : gmap nat PageProvider) p page slice :
  p ∉ slice → pagesOf (<[p := page]> h) slice = pagesOf h slice.
Proof.
  induction slice as [|q slice IH]; intros Hp; [done |].
  apply not_elem_of_cons in Hp as [Hq Hp].
  change (q :: slice) with ([q] ++ slice). rewrite !pagesOf_app, IH by done.
  f_equal. unfold pagesOf. cbn [omap list_omap]. by rewrite lookup_insert_ne.
Qed.



(** For an address that the slice does not hold, the method on the pointer
    shows the pages that [AddPage] on the page gives. *)
Lemma AddPage_of_new_pointer (pdfg : PDFGenerator) (h : gmap nat PageProvider) slice p
    page outs :
  h !! p = Some page → p ∉ slice →
  PDFGenerator_AddPage pdfg h slice p = Some outs →
  (λ out, with_pages (pagesOf out.1 out.2) pdfg) <$> outs
  = AddPage (with_pages (pagesOf h slice) pdfg) page.
Proof.
  intros Hp Hnew. unfold PDFGenerator_AddPage, AddPage. rewrite Hp. simpl.
  intros [= <-].
  induction (rangeMap (mo_value (replace pdfg))) as [|kvs l IH]; [done |].
  simpl. f_equal; [| exact IH]. unfold with_pages, mergeDefaults. simpl. f_equal.
  rewrite pagesOf_app, pagesOf_insert_other by done. f_equal.
  unfold pagesOf. cbn [omap list_omap]. by rewrite lookup_insert_eq.
Qed.




(** ** C5: the derived-markup page computes its content once *)

Lemma MarkdownPage_Reader_again E E' mp r mp1 :
  MarkdownPage_Reader E mp = Some (r, mp1) →
  MarkdownPage_Reader E' mp1 = Some (r, mp1).
Proof.
  unfold MarkdownPage_Reader. intros H.
  destruct (readErr mp) as [err|] eqn:Herr.
  { simplify_eq. by rewrite Herr. }
  destruct (htmlCache mp) as [cache|] eqn:Hcache.
  { simplify_eq. by rewrite Herr, Hcache. }
  destruct (ReadFile E (InputPath mp)) as [mdBytesAll|err]; [| by simplify_eq].
  destruct (mdBytesToParse _ _) as [toParse|]; simpl in H; [| done].
  simplify_eq. simpl. by rewrite ?Herr.
Qed.

Lemma readerCalls_again Es : ∀ E mp r mp1,
  MarkdownPage_Reader E mp = Some (r, mp1) →
  readerCalls Es mp1 = Some (replicate (length Es) r, mp1).
Proof.
  induction Es as [|E' Es IH]; intros E mp r mp1 H; simpl; [done |].
  rewrite (MarkdownPage_Reader_again E E' mp r mp1 H).
  by rewrite (IH E' mp1 r mp1 (MarkdownPage_Reader_again E E' mp r mp1 H)).
Qed.

(** Without the skip flag the call cannot panic. *)
Lemma MarkdownPage_Reader_returns E mp :
  SkipFirstH1H2 mp = false → is_Some (MarkdownPage_Reader E mp).
Proof.
  intros Hskip. unfold MarkdownPage_Reader, mdBytesToParse. rewrite Hskip.
  destruct (readErr mp), (htmlCache mp), (ReadFile E (InputPath mp)); by eexists.
Qed.

Lemma Reader_settles_cases E mp r mp1 :
  MarkdownPage_Reader E mp = Some (r, mp1) →
  (∃ html, r = bytesReader html ∧ htmlCache mp1 = Some html ∧ readErr mp1 = None)
  ∨ (∃ err, r = errorReader err ∧ readErr mp1 = Some err).
Proof.
  unfold MarkdownPage_Reader. intros H.
  destruct (readErr mp) as [err|] eqn:Herr.
  { simplify_eq. right. by exists err. }
  destruct (htmlCache mp) as [cache|] eqn:Hcache.
  { simplify_eq. left. by exists cache. }
  destruct (ReadFile E (InputPath mp)) as [mdBytesAll|err].
  - destruct (mdBytesToParse _ _) as [toParse|]; simpl in H; [| done].
    simplify_eq. left. by eexists.
  - simplify_eq. right. by eexists.
Qed.

(** C5. Once a call of [Reader()] has returned, it settles all later calls:
    it returned either a reader over the converted bytes, from which the
    same bytes are read in full every time, or an [errorReader] whose every
    read fails with the stored error; and each later call returns that same
    reader and leaves the page as it is, whatever the file system and the
    markdown library would give by then. *)
Theorem Reader_settles_later_calls (E : Env) (mp : MarkdownPage) r mp1 :
  MarkdownPage_Reader E mp = Some (r, mp1) →
  ((∃ html, r = bytesReader html ∧ htmlCache mp1 = Some html ∧ readErr mp1 = None
            ∧ ∀ σ, ReadAll σ r = (inl html, σ))
   ∨ (∃ err, r = errorReader err ∧ readErr mp1 = Some err
             ∧ ∀ σ, ReadAll σ r = (inr err, σ)))
  ∧ ∀ Es, readerCalls Es mp1 = Some (replicate (length Es) r, mp1).
Proof.
  intros H. split; [| intros Es; by eapply readerCalls_again].
  destruct (Reader_settles_cases E mp r mp1 H) as [(html & -> & Hc & He)|(err & -> & He)].
  - left. by exists html.
  - right. by exists err.
Qed.

Lemma Reader_settles_later_calls_witness :
  ∃ r mp1,
    MarkdownPage_Reader (fileEnv "body") (NewMarkdownPage "doc.md") = Some (r, mp1)
    ∧ readerCalls [sampleEnv emptyJSON; sampleEnv emptyJSON] mp1 = Some ([r; r], mp1).
Proof.
  eexists _, _. split; [reflexivity |].
  refine (proj2 (Reader_settles_later_calls (fileEnv "body") (NewMarkdownPage "doc.md")
                   _ _ eq_refl) [sampleEnv emptyJSON; sampleEnv emptyJSON]).
Defined.

(** ** C9: the first page with a reader feeds standard input *)

Lemma Reader_again E E' p r p1 :
  Reader E p = Some (Some r, p1) → Reader E' p1 = Some (Some r, p1).
Proof.
  destruct p as [pg|pr|mp]; simpl.
  - intros H. by simplify_eq.
  - intros H. injection H as H1 <-. simpl. by rewrite H1.
  - destruct (MarkdownPage_Reader E mp) as [[r' mp1]|] eqn:Hr; [| done].
    intros H. simplify_eq. simpl.
    by rewrite (MarkdownPage_Reader_again E E' mp r mp1 Hr).
Qed.

(** The pages before the first one with a reader are looked at and left as
    they are; that page's reader becomes standard input; the pages after it
    are not even asked. *)
Lemma selectStdin_first E pre p rest r p1 :
  Forall (λ q, Reader E q = Some (None, q)) pre →
  Reader E p = Some (Some r, p1) →
  selectStdin E (pre ++ p :: rest) = Some (Some r, pre ++ p1 :: rest).
Proof.
  intros Hpre Hp. induction Hpre as [|q pre Hq _ IH]; simpl.
  - rewrite Hp. by rewrite (Reader_again E E p r p1 Hp).
  - by rewrite Hq, IH.
Qed.

(** A build that passes the check spawns the process, unless a markdown
    page panics while the pages are asked for their readers. *)
Lemma run_passes_check E proc σ (pdfg : PDFGenerator) out :
  (¬ ∃ a, globalDuplicate pdfg a) →
  out ∈ run E proc σ pdfg →
  ∃ args, args ∈ PDFGenerator_Args pdfg ∧
    out = match selectStdin E (pages pdfg) with
          | None => None
          | Some (stdin, pages') =>
              let cmd := {| Path := binPath pdfg; Args := args; Stdin := stdin;
                            Stdout := outWriter pdfg; Stderr := stdErr pdfg |} in
              Some {| result := processError pdfg (proc cmd σ);
                      spawned := Some cmd;
                      after := match outWriter pdfg with
                               | Some _ => with_pages pages' pdfg
                               | None => with_outbuf (stdoutBytes (proc cmd σ))
                                           (with_pages pages' (with_outbuf "" pdfg))
                               end |}
          end.
Proof.
  intros Hnodup Hout. unfold run in Hout.
  apply list_elem_of_bind in Hout as (err & Hout & Hcheck).
  unfold checkDuplicateFlags in Hcheck.
  apply list_elem_of_bind in Hcheck as (gargs & ->%list_elem_of_ret & Hgargs).
  destruct (checkDuplicates [] gargs) as [err|] eqn:Hc.
  { destruct Hnodup. destruct (checkDuplicates_names _ _ Hc) as (a & _ & Ha).
    by exists a, gargs. }
  apply list_elem_of_bind in Hout as (args & Hout & Hargs).
  exists args. split; [done |].
  replace (pages (match outWriter pdfg with
                  | Some _ => pdfg
                  | None => with_outbuf "" pdfg
                  end)) with (pages pdfg) in Hout by (by destruct (outWriter pdfg)).
  destruct (selectStdin E (pages pdfg)) as [[stdin pages']|];
    apply list_elem_of_ret in Hout; subst out; [| done].
  by destruct (outWriter pdfg).
Qed.

(** C9. Let the document have a page [p] whose [Reader()] is not nil, after
    pages whose [Reader()] is nil, and any pages at all behind it, stream
    pages included.  If the global group repeats no flag, the build is not
    rejected: every run spawns the process, with an argument vector of
    [Args()] (so with a "page" entry for every page), and with the reader of
    [p] as standard input.  The pages behind [p] are left untouched. *)
Theorem first_stream_feeds_stdin E proc σ (pdfg : PDFGenerator) pre p rest r p1 :
  pages pdfg = pre ++ p :: rest →
  Forall (λ q, Reader E q = Some (None, q)) pre →
  Reader E p = Some (Some r, p1) →
  (¬ ∃ a, globalDuplicate pdfg a) →
  run E proc σ pdfg ≠ [] ∧
  ∀ out, out ∈ run E proc σ pdfg →
    ∃ rr cmd, out = Some rr ∧ spawned rr = Some cmd ∧
      Stdin cmd = Some r ∧
      Args cmd ∈ PDFGenerator_Args pdfg ∧
      result rr = processError pdfg (proc cmd σ) ∧
      pages (after rr) = pre ++ p1 :: rest.
Proof.
  intros Hpages Hpre Hp Hnodup. split; [apply run_nonempty |].
  intros out Hout.
  destruct (run_passes_check E proc σ pdfg out Hnodup Hout) as (args & Hargs & ->).
  rewrite Hpages, (selectStdin_first E pre p rest r p1 Hpre Hp).
  eexists _, _. split; [reflexivity |]. simpl. repeat split; [done |].
  by destruct (outWriter pdfg).
Qed.

Lemma first_stream_feeds_stdin_witness :
  Forall (λ out, ∃ rr cmd, out = Some rr ∧ spawned rr = Some cmd
                           ∧ Stdin cmd = Some (storeReader 0)
                           ∧ Args cmd = ["page"; "-"; "page"; "-"; "-"])
    (run (sampleEnv emptyJSON) sampleProcess twoStreams twoStreamsDocument).
Proof.
  apply Forall_forall. intros out Hout.
  assert (¬ ∃ a, globalDuplicate twoStreamsDocument a) as Hnodup.
  { intros (a & gargs & Hg & _ & Hocc). vm_compute in Hg.
    apply list_elem_of_singleton in Hg. subst gargs. vm_compute in Hocc. lia. }
  destruct (first_stream_feeds_stdin (sampleEnv emptyJSON) sampleProcess twoStreams
              twoStreamsDocument [] (IsPageReader (NewPageReader (Some 0)))
              [IsPageReader (NewPageReader (Some 1))] (storeReader 0)
              (IsPageReader (NewPageReader (Some 0)))
              eq_refl (Forall_nil_2 _) eq_refl Hnodup) as [_ H].
  destruct (H out Hout) as (rr & cmd & Hrr & Hsp & Hin & Hargs & _).
  exists rr, cmd. repeat split; try done.
  vm_compute in Hargs. by apply list_elem_of_singleton in Hargs.
Defined.

(** ** C7: repeated calls of [Args] *)







(** The page with two custom headers: one result, which holds both. *)
Example Args_of_two_headers :
  ∃ r, PDFGenerator_Args twoHeadersDocument = [r] ∧
       r ≡ₚ ["page"; "https://example.com"; "--custom-header"; "X-A"; "1";
             "--custom-header"; "X-B"; "2"; "-"].
Proof. eexists. split; [vm_compute; reflexivity |]. reflexivity. Qed.

(** ** C8: the Letter scenario *)

(** The groups as modelled give the argument strings that the tests of the
    repository expect. *)
Example TestArgString_expected :
  testDocument ≫= ArgString = [expectedArgString].
Proof. vm_compute. reflexivity. Qed.

Example TestUnitOptions_expected :
  unitOptionsDocument ≫= ArgString
  = ["--margin-bottom 0.5cm --margin-left 2cm --margin-right 1mm --margin-top 10mm "
     +:+ "--page-height 10in --page-width 5.5in page https://www.google.com -"].
Proof. vm_compute. reflexivity. Qed.

(** C8. The arguments of the Letter scenario begin with --page-size
    Letter --margin-top 25mm page https://example.com and end with the
    sentinel "-"; there is nothing else in them.  The page size comes first
    in whatever order the two options and the page were set: a group emits
    its options in the order of their declaration. *)
Theorem letter_scenario_Args :
  letterDocument ≫= PDFGenerator_Args
  = [["--page-size"; "Letter"; "--margin-top"; "25mm"; "page"; "https://example.com"; "-"]]
  ∧ letterDocumentLate ≫= PDFGenerator_Args = letterDocument ≫= PDFGenerator_Args
  ∧ Forall (λ r, take 6 r = ["--page-size"; "Letter"; "--margin-top"; "25mm"; "page";
                             "https://example.com"]
                 ∧ last r = Some "-")
      (letterDocument ≫= PDFGenerator_Args).
Proof.
  split; [vm_compute; reflexivity |]. split; [vm_compute; reflexivity |].
  assert (letterDocument ≫= PDFGenerator_Args
          = [["--page-size"; "Letter"; "--margin-top"; "25mm"; "page";
              "https://example.com"; "-"]]) as -> by (vm_compute; reflexivity).
  by repeat constructor.
Qed.

(** ** C10: serialization consumes the stream pages *)

Lemma ReadAll_keeps_end σ r res σ' ref :
  ReadAll σ r = (res, σ') → σ !! ref = Some emptyReader → σ' !! ref = Some emptyReader.
Proof.
  destruct r as [ref'| |]; simpl; intros H Href; simplify_eq; try done.
  destruct (decide (ref' = ref)) as [->|Hne].
  - rewrite Href. simpl. by rewrite lookup_insert_eq.
  - by rewrite lookup_insert_ne.
Qed.

Lemma MarkdownPage_Reader_same E mp r mp' :
  MarkdownPage_Reader E mp = Some (r, mp') →
  InputPath mp' = InputPath mp ∧ SkipFirstH1H2 mp' = SkipFirstH1H2 mp
  ∧ MarkdownPage_PageOptions mp' = MarkdownPage_PageOptions mp.
Proof.
  unfold MarkdownPage_Reader. intros H.
  destruct (readErr mp); [by simplify_eq |].
  destruct (htmlCache mp); [by simplify_eq |].
  destruct (ReadFile E (InputPath mp)); [| by simplify_eq].
  destruct (mdBytesToParse _ _); simpl in H; [| done]. by simplify_eq.
Qed.

Lemma pageToJSON_step E σ p res σ' p' :
  pageToJSON E σ p = Some (res, σ', p') →
  samePage p p' ∧
  (∀ ref, σ !! ref = Some emptyReader → σ' !! ref = Some emptyReader) ∧
  (∀ jp, res = inl jp → settled σ' p').
Proof.
  unfold pageToJSON. destruct p as [pg|pr|mp].
  - intros H. simplify_eq. by split.
  - simpl. destruct (PageReader_Input pr) as [ref|] eqn:Hin; simpl.
    + destruct (default emptyReader (σ !! ref)) as [data err] eqn:Hrd. simpl.
      assert (∀ ref', σ !! ref' = Some emptyReader →
                      <[ref := {| r_data := ""; r_err := err |}]> σ !! ref'
                      = Some emptyReader) as Hkeep.
      { intros ref' Href'. destruct (decide (ref = ref')) as [->|Hne].
        - rewrite Href' in Hrd. unfold emptyReader in *. simpl in Hrd. simplify_eq.
          by rewrite lookup_insert_eq.
        - by rewrite lookup_insert_ne. }
      intros H. destruct err as [err|]; simplify_eq.
      * split; [done |]. split; [done |]. intros jp Hjp. discriminate Hjp.
      * split; [done |]. split; [done |]. intros jp _ ref' Href'. rewrite Hin in Href'.
        simplify_eq. by rewrite lookup_insert_eq.
    + intros H. simplify_eq. split; [done |]. split; [done |].
      intros jp _ ref' Href'. by rewrite Hin in Href'.
  - simpl. destruct (MarkdownPage_Reader E mp) as [[r mp']|] eqn:Hr; [| done].
    destruct (Reader_settles_cases E mp r mp' Hr) as [(html & -> & Hc & He)|(err & -> & He)];
      simpl; intros H; simplify_eq.
    + split; [| split; [done |]].
      * exists mp'. split; [done |]. by eapply MarkdownPage_Reader_same.
      * intros jp _. simpl. by rewrite Hc, He.
    + split; [| split; [done |]].
      * exists mp'. split; [done |]. by eapply MarkdownPage_Reader_same.
      * intros jp Hjp. discriminate Hjp.
Qed.

Lemma settled_keeps σ σ' p :
  (∀ ref, σ !! ref = Some emptyReader → σ' !! ref = Some emptyReader) →
  settled σ p → settled σ' p.
Proof. destruct p; simpl; [done | | done]. intros Hkeep Hp ref Href. eauto. Qed.

Lemma pagesToJSON_settles E ps : ∀ σ jps σ' ps',
  pagesToJSON E σ ps = Some (inl jps, σ', ps') →
  Forall2 samePage ps ps' ∧
  (∀ ref, σ !! ref = Some emptyReader → σ' !! ref = Some emptyReader) ∧
  Forall (settled σ') ps'.
Proof.
  induction ps as [|p ps IH]; intros σ jps σ' ps' H; simpl in H.
  - simplify_eq. by repeat constructor.
  - destruct (pageToJSON E σ p) as [[[[jp|err] σ1] p1]|] eqn:Hp; [| by simplify_eq | done].
    destruct (pagesToJSON E σ1 ps) as [[[[jps1|err] σ2] ps1]|] eqn:Hps;
      [| by simplify_eq | done].
    simplify_eq.
    destruct (pageToJSON_step _ _ _ _ _ _ Hp) as (Hsame & Hkeep1 & Hsettled).
    destruct (IH _ _ _ _ Hps) as (Hsames & Hkeep2 & Hsettleds).
    split; [by constructor |]. split; [by auto |].
    constructor; [| done]. eapply settled_keeps; [exact Hkeep2 |]. by eapply Hsettled.
Qed.

Lemma pagesToJSON_settled E σ ps :
  Forall (settled σ) ps →
  ∃ jps, pagesToJSON E σ ps = Some (inl jps, σ, ps) ∧ Forall2 (emptyBlob E) ps jps.
Proof.
  induction 1 as [|p ps Hp _ (jps & IH & Hblobs)]; simpl.
  { exists []. by split. }
  assert (∃ jp, pageToJSON E σ p = Some (inl jp, σ, p) ∧ emptyBlob E p jp) as (jp & -> & Hjp).
  { unfold pageToJSON. destruct p as [pg|pr|mp]; simpl in *.
    - by eexists.
    - destruct (PageReader_Input pr) as [ref|] eqn:Hin; simpl.
      + rewrite (Hp ref eq_refl). simpl. rewrite insert_id by (by apply Hp).
        eexists. split; [reflexivity |]. done.
      + eexists. split; [reflexivity |]. by intros [? ?].
    - destruct Hp as [[cache Hc] He]. unfold MarkdownPage_Reader. rewrite He, Hc. simpl.
      by eexists. }
  rewrite IH. exists (jp :: jps). split; [done | by constructor].
Qed.

Lemma samePage_reader ps ps' pr :
  Forall2 samePage ps ps' → IsPageReader pr ∈ ps → IsPageReader pr ∈ ps'.
Proof.
  induction 1 as [|p p' ps ps' Hp _ IH]; [done |].
  rewrite !elem_of_cons. intros [<-|Hin]; [left | right; by apply IH].
  by simpl in Hp.
Qed.



(** ** C4: the round trip through JSON *)

Lemma restorablePage_other σ ref rd p :
  readerRef p ≠ Some ref → restorablePage σ p → restorablePage (<[ref := rd]> σ) p.
Proof.
  destruct p as [pg|pr|mp]; simpl; [done | | done].
  intros Hne (ref' & rd' & Hin & Hl & He & Hd). exists ref', rd'.
  split; [done |]. split; [| done]. rewrite lookup_insert_ne; [done |]. congruence.
Qed.

Lemma pagesToJSON_restorable E ps : ∀ σ,
  restorablePages σ ps →
  ∃ jps σ', pagesToJSON E σ ps = Some (inl jps, σ', ps) ∧ Forall2 (recordOf E) ps jps.
Proof.
  induction ps as [|p ps IH]; intros σ [Hps Hnd]; simpl.
  { exists [], σ. by split. }
  apply Forall_cons in Hps as [Hp Hps].
  destruct p as [pg|pr|mp]; simpl in Hp; [| | done].
  - simpl in Hnd. destruct (IH σ (conj Hps Hnd)) as (jps & σ' & Hjps & Hrec).
    unfold pageToJSON. rewrite Hjps.
    eexists _, σ'. split; [reflexivity |]. constructor; [| done].
    destruct Hp as [Hne1 Hne2]. by repeat split.
  - destruct Hp as (ref & rd & Hin & Hl & He & Hd).
    simpl in Hnd. rewrite Hin in Hnd. simpl in Hnd. apply NoDup_cons in Hnd as [Hnotin Hnd].
    unfold pageToJSON. simpl. rewrite Hin. simpl. rewrite Hl. simpl. rewrite He.
    destruct (IH (<[ref := {| r_data := ""; r_err := None |}]> σ)) as (jps & σ' & Hjps & Hrec).
    { split; [| done]. rewrite Forall_forall in Hps |- *. intros q Hq.
      apply restorablePage_other; [| by apply Hps].
      intros Href. apply Hnotin. apply list_elem_of_omap. by exists q. }
    rewrite Hjps.
    eexists _, σ'. split; [reflexivity |]. constructor; [| done].
    repeat split; simpl. exists (r_data rd). by split.
Qed.

Lemma withOptions_Options p : withOptions p (Options p) = p.
Proof. by destruct p as [[]|[]|[]]. Qed.

Lemma AddPage_noDefaults pdfg p :
  noDefaults pdfg → AddPage pdfg p = [with_pages (pages pdfg ++ [p]) pdfg].
Proof.
  intros (Hc & Hh & Hf & Hr). unfold AddPage, mergeDefaults, applyDefault, applyReplace.
  rewrite Hc, Hh, Hf, Hr. simpl.
  destruct (Options p) as [po hf] eqn:Hopts. simpl.
  unfold on_pageOptions, on_headerAndFooterOptions. simpl.
  by rewrite <- Hopts, withOptions_Options.
Qed.

Lemma restorePages_records E jps : ∀ ps i σ pdfg,
  base64Sound E → noDefaults pdfg → Forall2 (recordOf E) ps jps →
  ∃ ps' σ', restorePages E i jps σ pdfg = [(inl (with_pages (pages pdfg ++ ps') pdfg), σ')]
            ∧ Forall2 sameArguments ps ps'.
Proof.
  induction jps as [|jp jps IH]; intros ps i σ pdfg Hb64 Hnd Hrec;
    inversion Hrec as [|p ? ps0 ? Hp Hps]; subst; simpl.
  { exists [], σ. split; [| constructor]. rewrite app_nil_r. by destruct pdfg. }
  destruct Hp as (Hopts & Hfile & Hkind).
  destruct p as [pg|pr|mp]; [| | done].
  - destruct Hkind as (Htype & Hne1 & Hne2). rewrite Htype. simpl in Hfile.
    rewrite decide_True by done. rewrite Hfile, decide_False by (by intros [?|?]).
    rewrite AddPage_noDefaults by done. simpl.
    destruct (IH ps0 (S i) σ
                (with_pages (pages pdfg ++ [IsPage {| Page_Input := Page_Input pg;
                    Page_PageOptions := jsonPage_PageOptions jp |}]) pdfg) Hb64)
      as (ps' & σ' & Hrest & Hsame); [by destruct pdfg | done |].
    rewrite Hrest. simpl. eexists (_ :: ps'), σ'. split.
    + rewrite <- app_assoc. simpl. by destruct pdfg.
    + constructor; [| done]. by split.
  - destruct Hkind as (Htype & buf & Hdata & Hbuf). rewrite Htype.
    rewrite decide_False by done. rewrite decide_True by done.
    destruct Hb64 as [Hdec Henc]. rewrite decide_False; cycle 1.
    { rewrite Hdata. by intros ?%Henc. }
    rewrite Hdata, Hdec. rewrite AddPage_noDefaults by done. simpl.
    destruct (IH ps0 (S i)
                (<[fresh (dom σ) := {| r_data := buf; r_err := None |}]> σ)
                (with_pages (pages pdfg ++ [IsPageReader
                   {| PageReader_Input := Some (fresh (dom σ));
                      PageReader_PageOptions := jsonPage_PageOptions jp |}]) pdfg)
                (conj Hdec Henc))
      as (ps' & σ' & Hrest & Hsame); [by destruct pdfg | done |].
    rewrite Hrest. simpl. eexists (_ :: ps'), σ'. split.
    + rewrite <- app_assoc. simpl. by destruct pdfg.
    + constructor; [| done]. by split.
Qed.

Lemma list_bind_ext_eq {A B} (f g : A → list B) (l : list A) :
  (∀ x, f x = g x) → l ≫= f = l ≫= g.
Proof.
  intros H. induction l as [|x l IH]; [done |].
  simpl. rewrite H. f_equal. exact IH.
Qed.

Lemma pageFragments_same p p' : sameArguments p p' → pageFragments p' = pageFragments p.
Proof. intros [Ho Hf]. unfold pageFragments, PageProvider_Args. by rewrite Ho, Hf. Qed.

Lemma appendAll_pageFragments ps ps' : ∀ args,
  Forall2 sameArguments ps ps' →
  appendAll pageFragments args ps' = appendAll pageFragments args ps.
Proof.
  intros args H. revert args. induction H as [|p p' ps ps' Hp _ IH]; intros args; simpl.
  - done.
  - rewrite (pageFragments_same p p' Hp). apply list_bind_ext_eq. intros s. apply IH.
Qed.

Lemma PDFGenerator_Args_same (d d' : PDFGenerator) :
  globalOptions d' = globalOptions d → outlineOptions d' = outlineOptions d →
  Cover d' = Cover d → TOC d' = TOC d → OutputFile d' = OutputFile d →
  Forall2 sameArguments (pages d) (pages d') →
  PDFGenerator_Args d' = PDFGenerator_Args d.
Proof.
  intros Hg Ho Hc Ht Hf Hp. unfold PDFGenerator_Args. rewrite Hg, Ho, Hc, Ht, Hf.
  apply list_bind_ext_eq. intros g. apply list_bind_ext_eq. intros o.
  apply list_bind_ext_eq. intros args1. apply list_bind_ext_eq. intros args2.
  by rewrite (appendAll_pageFragments _ _ args2 Hp).
Qed.

(** C4, as amended. Let the document write to its buffer (no output file),
    let its located pages have a locator other than "" and "-", let its
    stream pages have readers of their own that still give at least one
    byte and no error, let the executable be found and base64 be sound.
    Then [ToJSON()] gets as far as [json.Marshal], and whenever the JSON text
    layer encodes that record and decodes it back, [ToJSON()] succeeds,
    [NewPDFGeneratorFromJSON] succeeds on its bytes, and the document it
    returns has the same [Args()] results as the original. *)
Theorem JSON_round_trip_Args E σ (pdfg : PDFGenerator) path :
  findPath E = inl path →
  base64Sound E →
  OutputFile pdfg = "" →
  restorablePages σ (pages pdfg) →
  ∃ jps σ1,
    pagesToJSON E σ (pages pdfg) = Some (inl jps, σ1, pages pdfg) ∧
    ∀ b, Marshal E (jsonOf pdfg jps) = inl b →
         Unmarshal E b = inl (jsonOf pdfg jps) →
      ToJSON E σ pdfg = Some (inl b, σ1, pdfg) ∧
      ∃ d' σ2, NewPDFGeneratorFromJSON E σ1 b = [(inl d', σ2)]
               ∧ PDFGenerator_Args d' = PDFGenerator_Args pdfg.
Proof.
  intros Hpath Hb64 Hout Hpages.
  destruct (pagesToJSON_restorable E (pages pdfg) σ Hpages) as (jps & σ1 & Hjps & Hrec).
  exists jps, σ1. split; [done |]. intros b Hm Hu. split.
  { unfold ToJSON. rewrite Hjps, Hm. by destruct pdfg. }
  unfold NewPDFGeneratorFromJSON, NewPDFGenerator. rewrite Hu, Hpath. simpl.
  edestruct (restorePages_records E jps (pages pdfg) 0 σ1) as (ps' & σ2 & Hrest & Hsame);
    [exact Hb64 | | exact Hrec |]; cycle 1.
  { rewrite Hrest. eexists _, σ2. split; [reflexivity |].
    apply PDFGenerator_Args_same; simpl; try done. }
  by repeat split.
Qed.

Lemma JSON_round_trip_Args_witness :
  ∃ b σ1 d' σ2,
    ToJSON (sampleEnv roundTripRecord) streamStore roundTripDocument
      = Some (inl b, σ1, roundTripDocument)
    ∧ NewPDFGeneratorFromJSON (sampleEnv roundTripRecord) σ1 b = [(inl d', σ2)]
    ∧ PDFGenerator_Args d' = PDFGenerator_Args roundTripDocument.
Proof.
  assert (base64Sound (sampleEnv roundTripRecord)) as Hb64 by (by split).
  assert (restorablePages streamStore (pages roundTripDocument)) as Hpages.
  { split.
    - repeat constructor; try done. simpl. by eexists 0, _.
    - simpl. apply NoDup_singleton. }
  destruct (JSON_round_trip_Args (sampleEnv roundTripRecord) streamStore roundTripDocument
              _ eq_refl Hb64 eq_refl Hpages) as (jps & σ1 & Hjps & H).
  assert (pagesToJSON (sampleEnv roundTripRecord) streamStore (pages roundTripDocument)
          = Some (inl (Pages roundTripRecord),
                  <[0 := {| r_data := ""; r_err := None |}]> streamStore,
                  pages roundTripDocument)) as Hc by reflexivity.
  rewrite Hc in Hjps. injection Hjps as <- <-.
  destruct (H "{}" eq_refl eq_refl) as (Hto & d' & σ2 & Hfrom & Hargs).
  by exists "{}", (<[0 := {| r_data := ""; r_err := None |}]> streamStore), d', σ2.
Defined.

(** C4 as worded does not hold: the record that [ToJSON] writes has no
    output file, so the document read back ends its arguments with "-"
    where the original ends them with out.pdf. *)
Lemma JSON_round_trip_drops_output_file :
  ∃ b σ1 d' σ2,
    ToJSON (sampleEnv outputFileRecord) ∅ outputFileDocument
      = Some (inl b, σ1, outputFileDocument)
    ∧ Unmarshal (sampleEnv outputFileRecord) b = inl outputFileRecord
    ∧ NewPDFGeneratorFromJSON (sampleEnv outputFileRecord) σ1 b = [(inl d', σ2)]
    ∧ PDFGenerator_Args outputFileDocument = [["page"; "https://example.com"; "out.pdf"]]
    ∧ PDFGenerator_Args d' = [["page"; "https://example.com"; "-"]].
Proof.
  eexists "{}", ∅, _, ∅. split; [reflexivity |]. split; [reflexivity |].
  split; [reflexivity |]. split; vm_compute; reflexivity.
Qed.

(** ** C6: the leading heading block *)

Lemma app_String a s t : String a s +:+ t = String a (s +:+ t).
Proof. reflexivity. Qed.

Lemma app_empty_r s : s +:+ "" = s.
Proof. induction s as [|a s IH]; [done |]. by rewrite app_String, IH. Qed.

Lemma length_app_string s t : String.length (s +:+ t) = String.length s + String.length t.
Proof. induction s as [|a s IH]; [done |]. rewrite app_String. simpl. by rewrite IH. Qed.

Lemma rev_app_rev_app l a b :
  String.rev_app (String.rev_app l a) b = String.rev_app a (l +:+ b).
Proof.
  revert a b. induction l as [|c l IH]; intros a b; simpl; [done |].
  rewrite IH. simpl. by rewrite app_String.
Qed.

Lemma splitLines_line line : ∀ cur rest,
  hasNewline line = false →
  splitLines cur (line +:+ String newline rest)
  = String.rev (String.rev_app line cur) :: splitLines "" rest.
Proof.
  induction line as [|c line IH]; intros cur rest Hnl.
  - change ("" +:+ String newline rest) with (String newline rest). simpl.
    by rewrite ?decide_True.
  - simpl in Hnl. apply orb_false_elim in Hnl as [Hc Hnl].
    apply bool_decide_eq_false in Hc. rewrite app_String. simpl.
    rewrite decide_False by done. by rewrite IH.
Qed.

Lemma app_assoc_string a b c : (a +:+ b) +:+ c = a +:+ (b +:+ c).
Proof. induction a as [|x a IH]; [done |]. by rewrite !app_String, IH. Qed.

Lemma joinLines_app l k : joinLines (l ++ k) = joinLines l +:+ joinLines k.
Proof.
  induction l as [|x l IH]; [done |]. simpl. rewrite IH.
  by rewrite app_assoc_string, app_String.
Qed.

Lemma length_joinLines_cons line lines :
  String.length (joinLines (line :: lines))
  = String.length line + 1 + String.length (joinLines lines).
Proof. simpl. rewrite length_app_string. simpl. lia. Qed.

Lemma sliceFrom_app a b : sliceFrom (a +:+ b) (String.length a) = Some b.
Proof.
  unfold sliceFrom. rewrite length_app_string. rewrite decide_True by lia. f_equal.
  replace (String.length a + String.length b - String.length a)
    with (String.length b) by lia.
  induction a as [|c a IH].
  - change ("" +:+ b) with b. simpl.
    clear. induction b as [|c b IH]; [done |]. simpl. by rewrite IH.
  - rewrite app_String. simpl. exact IH.
Qed.

(** The scanner gives back the plain lines of a text, then goes on with
    what follows them. *)
Lemma scannerLines_prefix lines tail :
  Forall plainLine lines →
  scannerLines (joinLines lines +:+ tail) = lines ++ scannerLines tail.
Proof.
  unfold scannerLines. induction 1 as [|line lines (Hnl & Hcr & Hlen) _ IH]; [done |].
  simpl. rewrite app_assoc_string, app_String.
  rewrite splitLines_line by done. unfold String.rev.
  rewrite rev_app_rev_app. simpl. rewrite app_empty_r. simpl.
  by rewrite Hlen, Hcr, IH.
Qed.

(** The scan before the heading, and over the blank lines behind it. *)
Lemma skipScan_before pre lines off :
  Forall (λ l, isH1 l = false) pre →
  skipScan (pre ++ lines) off false
  = skipScan lines (off + String.length (joinLines pre)) false.
Proof.
  intros H. revert off. induction H as [|l pre Hl _ IH]; intros off.
  - simpl. f_equal. lia.
  - rewrite <- app_comm_cons. cbn [skipScan]. unfold isH1 in Hl. rewrite Hl.
    cbn [negb andb]. rewrite IH, length_joinLines_cons. f_equal. lia.
Qed.

Lemma skipScan_blanks blanks lines off :
  Forall (λ l, isBlank l = true) blanks →
  skipScan (blanks ++ lines) off true
  = skipScan lines (off + String.length (joinLines blanks)) true.
Proof.
  intros H. revert off. induction H as [|l blanks Hl _ IH]; intros off.
  - simpl. f_equal. lia.
  - rewrite <- app_comm_cons. cbn [skipScan]. unfold isBlank in Hl.
    apply bool_decide_eq_true in Hl. rewrite Hl.
    change (HasPrefix "" "## ") with false. change (HasPrefix "" "# ") with false.
    rewrite bool_decide_eq_false_2 by (by intros ?).
    rewrite bool_decide_eq_true_2 by done.
    cbn [negb andb]. rewrite IH, length_joinLines_cons. f_equal. lia.
Qed.

Lemma skipScan_none_before pre off :
  Forall (λ l, isH1 l = false) pre → skipScan pre off false = None.
Proof.
  intros H. rewrite <- (app_nil_r pre). by rewrite skipScan_before.
Qed.

Lemma skipScan_heading h1 lines off :
  isH1 h1 = true →
  skipScan (h1 :: lines) off false = skipScan lines (off + (String.length h1 + 1)) true.
Proof. intros H. cbn [skipScan]. unfold isH1 in H. by rewrite H. Qed.

Lemma mdBytesToParse_skipped skipped tail lines off :
  Forall plainLine skipped →
  scannerLines tail = lines →
  skipScan (skipped ++ lines) 0 false = Some off →
  off = String.length (joinLines skipped) →
  mdBytesToParse true (joinLines skipped +:+ tail) = Some tail.
Proof.
  intros Hplain Htail Hscan ->. unfold mdBytesToParse.
  rewrite scannerLines_prefix, Htail, Hscan by done. apply sliceFrom_app.
Qed.

(** What the scan of [Reader()] hands to the parser.  On its first call
    [Reader()] hands the parser the bytes [mdBytesToParse] picks from the
    file, and its reader gives the envelope around what the library makes
    of them.  Without the flag the whole source is parsed.  With the flag:
    if no scanned line is a top-level heading, or if the first such line is
    followed by blank lines only, the whole source is parsed; if the first
    top-level heading is followed, over blank lines only, by a second-level
    heading, the parser gets what follows that second heading line; if the
    first line after the heading that is not blank is not a second-level
    heading, the parser gets the source from that line on.  The last two
    cases are for lines that the scanner gives back as they are: ended by a
    line feed, without a carriage return at their end, and shorter than the
    scanner's buffer. *)
Lemma mdBytesToParse_cases :
  (∀ E mp src toParse,
     readErr mp = None → htmlCache mp = None →
     ReadFile E (InputPath mp) = inl src →
     mdBytesToParse (SkipFirstH1H2 mp) src = Some toParse →
     ∃ mp1, MarkdownPage_Reader E mp
            = Some (bytesReader (htmlOpen +:+ markdownToHTML E toParse +:+ htmlClose), mp1)) ∧
  (∀ src, mdBytesToParse false src = Some src) ∧
  (∀ src, Forall (λ l, isH1 l = false) (scannerLines src) →
          mdBytesToParse true src = Some src) ∧
  (∀ src pre h1 blanks,
     scannerLines src = pre ++ h1 :: blanks →
     Forall (λ l, isH1 l = false) pre → isH1 h1 = true →
     Forall (λ l, isBlank l = true) blanks →
     mdBytesToParse true src = Some src) ∧
  (∀ pre h1 blanks h2 tail,
     Forall (λ l, isH1 l = false) pre → isH1 h1 = true →
     Forall (λ l, isBlank l = true) blanks → isH2 h2 = true →
     Forall plainLine (pre ++ h1 :: blanks ++ [h2]) →
     mdBytesToParse true (joinLines (pre ++ h1 :: blanks ++ [h2]) +:+ tail) = Some tail) ∧
  (∀ pre h1 blanks line more tail,
     Forall (λ l, isH1 l = false) pre → isH1 h1 = true →
     Forall (λ l, isBlank l = true) blanks →
     scannerLines tail = line :: more → isH2 line = false → isBlank line = false →
     Forall plainLine (pre ++ h1 :: blanks) →
     mdBytesToParse true (joinLines (pre ++ h1 :: blanks) +:+ tail) = Some tail).
Proof.
  split.
  { intros E mp src toParse He Hc Hsrc Hparse. unfold MarkdownPage_Reader.
    rewrite He, Hc, Hsrc, Hparse. by eexists. }
  split; [done |]. split; [| split; [| split]].
  - intros src Hno. unfold mdBytesToParse. by rewrite skipScan_none_before.
  - intros src pre h1 blanks Hlines Hpre Hh1 Hblanks. unfold mdBytesToParse.
    rewrite Hlines, skipScan_before, skipScan_heading by done.
    rewrite <- (app_nil_r blanks). by rewrite skipScan_blanks.
  - intros pre h1 blanks h2 tail Hpre Hh1 Hblanks Hh2 Hplain.
    eapply mdBytesToParse_skipped; [done | done | |].
    + rewrite <- !app_assoc, <- !app_comm_cons, <- app_assoc.
      rewrite skipScan_before, skipScan_heading, skipScan_blanks by done.
      change ([h2] ++ scannerLines tail) with (h2 :: scannerLines tail).
      cbn [skipScan]. unfold isH2 in Hh2. rewrite Hh2. reflexivity.
    + rewrite joinLines_app, length_app_string, length_joinLines_cons.
      rewrite joinLines_app, length_app_string, length_joinLines_cons.
      change (String.length (joinLines [])) with 0. lia.
  - intros pre h1 blanks line more tail Hpre Hh1 Hblanks Htail Hh2 Hnb Hplain.
    eapply mdBytesToParse_skipped; [done | exact Htail | |].
    + rewrite <- !app_assoc, <- !app_comm_cons.
      rewrite skipScan_before, skipScan_heading, skipScan_blanks by done.
      cbn [skipScan]. unfold isH2 in Hh2. rewrite Hh2. unfold isBlank in Hnb.
      apply bool_decide_eq_false in Hnb.
      rewrite (bool_decide_eq_true_2 (TrimSpace line ≠ "")) by done.
      reflexivity.
    + rewrite joinLines_app, length_app_string, length_joinLines_cons. lia.
Qed.

(** The scenario of section 8: "# Title", a blank line, "## Subtitle", then
    the body.  The parser gets the body only. *)
Example title_subtitle_scenario :
  mdBytesToParse true (joinLines ["# Title"; ""; "## Subtitle"] +:+ "body text")
  = Some "body text".
Proof. vm_compute. reflexivity. Qed.

(** C6. The failing input: the line "intro", the heading "# Title" and the
    line "body", each ended by a line feed, in a page with the skip flag.
    The loop adds the length of "intro" to [byteOffset] (the branch before
    the heading), then that of the heading; at "body" it takes the slice
    from that offset, 14, so [Reader()] hands the parser "body" only and its
    reader gives the envelope around that.  By (b) of the claim, as by the
    comment at the slice expression, only the heading line is skipped, which
    leaves "intro" and "body". *)
Theorem text_before_heading_is_dropped :
  scannerLines (joinLines introLines) = introLines ∧
  skipScan introLines 0 false = Some 14 ∧
  mdBytesToParse true (joinLines introLines) = Some (joinLines ["body"]) ∧
  joinLines (specSkip introLines) = joinLines ["intro"; "body"] ∧
  MarkdownPage_Reader (fileEnv (joinLines introLines)) skippingPage
  = Some (bytesReader (htmlOpen +:+ joinLines ["body"] +:+ htmlClose),
          with_cache (Some (htmlOpen +:+ joinLines ["body"] +:+ htmlClose)) None
            skippingPage).
Proof. repeat split; vm_compute; reflexivity. Qed.

(** Two inputs on which the byte offset does not match the lines: a heading
    block at the very end of a source without final line feed makes the
    slice expression panic, and with CR LF line ends the parser gets the
    tail of the second heading line. *)
Example heading_block_at_end_panics :
  mdBytesToParse true ("# Title" +:+ String newline "## Subtitle") = None.
Proof. vm_compute. reflexivity. Qed.

Example heading_block_with_CRLF :
  mdBytesToParse true
    ("# T" +:+ String carriageReturn (String newline
       ("## S" +:+ String carriageReturn (String newline "body"))))
  = Some (String carriageReturn (String newline "body")).
Proof. vm_compute. reflexivity. Qed.

(** * Further properties of the package *)

(** ** The path of the executable is searched once *)

Lemma findPath_cached os store pdfg :
  GetPath store ≠ "" →
  PDFGenerator_findPath os store pdfg = (None, store, with_binPath (GetPath store) pdfg).
Proof. intros H. unfold PDFGenerator_findPath. simpl. by rewrite decide_True. Qed.

(** The three ways in which [findPath] ends. *)
Lemma findPath_outcome os store pdfg :
  (GetPath store ≠ "" ∧
   PDFGenerator_findPath os store pdfg = (None, store, with_binPath (GetPath store) pdfg)) ∨
  (GetPath store = "" ∧ ∃ path, path ≠ "" ∧
   PDFGenerator_findPath os store pdfg
   = (None, stringStore_Set store path, with_binPath path pdfg)) ∨
  (GetPath store = "" ∧ ∃ err,
   PDFGenerator_findPath os store pdfg = (Some err, store, with_binPath "" pdfg)).
Proof.
  destruct (decide (GetPath store ≠ "")) as [Hc|Hc].
  { left. split; [done |]. by apply findPath_cached. }
  right. assert (GetPath store = "") as Hempty by (by destruct (decide (GetPath store = ""))).
  unfold PDFGenerator_findPath. rewrite Hempty. simpl.
  assert (∀ r, foundPath r = true → r.1 ≠ "") as Hfound.
  { intros [path [e|]] Hr; [done |]. by apply bool_decide_eq_true in Hr. }
  assert (∀ r, errDot os r = true → ∃ err, r.2 = Some err) as Hdot.
  { intros [path [e|]] Hr; [by eexists | done]. }
  destruct (programDir os) as [exeDir|err]; [| right; split; [done |]; by eexists].
  destruct (foundPath (lookPath os (Join os exeDir exe))) eqn:H1.
  { left. split; [done |]. eexists. split; [by apply Hfound | done]. }
  destruct (errDot os (lookPath os exe)) eqn:Hd2.
  { right. split; [done |]. destruct (Hdot _ Hd2) as [err ->]. by eexists. }
  destruct (foundPath (lookPath os exe)) eqn:H2.
  { left. split; [done |]. eexists. split; [by apply Hfound | done]. }
  case_decide; [right; split; [done |]; by eexists |].
  destruct (errDot os (lookPath os (Join os (Getenv os "WKHTMLTOPDF_PATH") exe))) eqn:Hd3.
  { right. split; [done |]. destruct (Hdot _ Hd3) as [err ->]. by eexists. }
  destruct (foundPath (lookPath os (Join os (Getenv os "WKHTMLTOPDF_PATH") exe))) eqn:H3.
  { left. split; [done |]. eexists. split; [by apply Hfound | done]. }
  right. split; [done |]. by eexists.
Qed.

(** X1. The path of the executable is cached.  A call of [findPath] that
    succeeds leaves the path it found, which is not empty, both in the
    document and in the package variable, and from then on (as long as
    [SetPath] does not change the variable) every call, on any document and
    whatever the file system, the PATH and WKHTMLTOPDF_PATH hold by then,
    succeeds with that same path without changing the variable.  A
    call that fails leaves the package variable as it was, empty, and the
    document without a path.  In both cases nothing of the document but its
    path is changed. *)
Theorem findPath_searches_once (os : OS) (store : stringStore) (pdfg : PDFGenerator) :
  ∃ err store' pdfg',
    PDFGenerator_findPath os store pdfg = (err, store', pdfg') ∧
    pdfg' = with_binPath (binPath pdfg') pdfg ∧
    match err with
    | None =>
        binPath pdfg' = GetPath store' ∧ GetPath store' ≠ "" ∧
        (GetPath store ≠ "" → store' = store) ∧
        ∀ os2 pdfg2,
          PDFGenerator_findPath os2 store' pdfg2
          = (None, store', with_binPath (GetPath store') pdfg2)
    | Some _ => store' = store ∧ GetPath store = "" ∧ binPath pdfg' = ""
    end.
Proof.
  destruct (findPath_outcome os store pdfg)
    as [[Hc ->]|[[Hc (path & Hpath & ->)]|[Hc (err & ->)]]].
  - eexists _, _, _. split; [reflexivity |]. repeat split; try done.
    intros os2 pdfg2. by apply findPath_cached.
  - eexists _, _, _. split; [reflexivity |]. repeat split; try done.
    intros os2 pdfg2. by apply findPath_cached.
  - eexists _, _, _. split; [reflexivity |]. by repeat split.
Qed.

(** ** What a build leaves in the output buffer *)

(** The outcomes of [run], by the verdict of the check. *)
Lemma run_outcome E proc σ (pdfg : PDFGenerator) out :
  out ∈ run E proc σ pdfg →
  (∃ err, out = Some {| result := Some err; spawned := None; after := pdfg |}) ∨
  ∃ args, args ∈ PDFGenerator_Args pdfg ∧
    out = match selectStdin E (pages pdfg) with
          | None => None
          | Some (stdin, pages') =>
              let cmd := {| Path := binPath pdfg; Args := args; Stdin := stdin;
                            Stdout := outWriter pdfg; Stderr := stdErr pdfg |} in
              Some {| result := processError pdfg (proc cmd σ);
                      spawned := Some cmd;
                      after := match outWriter pdfg with
                               | Some _ => with_pages pages' pdfg
                               | None => with_outbuf (stdoutBytes (proc cmd σ))
                                           (with_pages pages' (with_outbuf "" pdfg))
                               end |}
          end.
Proof.
  intros Hout. unfold run in Hout.
  apply list_elem_of_bind in Hout as (err & Hout & Hcheck).
  destruct err as [err|].
  { left. apply list_elem_of_ret in Hout. by exists err. }
  right. apply list_elem_of_bind in Hout as (args & Hout & Hargs).
  exists args. split; [done |].
  replace (pages (match outWriter pdfg with
                  | Some _ => pdfg
                  | None => with_outbuf "" pdfg
                  end)) with (pages pdfg) in Hout by (by destruct (outWriter pdfg)).
  destruct (selectStdin E (pages pdfg)) as [[stdin pages']|];
    apply list_elem_of_ret in Hout; subst out; [| done].
  by destruct (outWriter pdfg).
Qed.

(** X2. After a build, [Bytes()] is exactly what this run of the process
    wrote to its standard output, whether the process failed or not: the
    buffer is emptied before the process starts, so nothing of an earlier
    build is left (TestBufferReset).  With a writer set by [SetOutput] the
    process writes there and the buffer keeps what it held; a build that
    stops at the duplicate-flag check leaves the buffer alone too. *)
Theorem run_output_buffer E proc σ (pdfg : PDFGenerator) out rr :
  out ∈ run E proc σ pdfg → out = Some rr →
  match spawned rr with
  | None => Bytes (after rr) = Bytes pdfg
  | Some cmd =>
      Stdout cmd = outWriter pdfg ∧
      match outWriter pdfg with
      | Some _ => Bytes (after rr) = Bytes pdfg
      | None => Bytes (after rr) = stdoutBytes (proc cmd σ)
      end
  end.
Proof.
  intros Hout Hrr. destruct (run_outcome _ _ _ _ _ Hout) as [[err ->]|(args & _ & Hrun)].
  { by simplify_eq. }
  rewrite Hrr in Hrun. destruct (selectStdin E (pages pdfg)) as [[stdin pages']|]; [| done].
  cbv zeta in Hrun. simplify_eq. simpl. split; [done |]. by destruct (outWriter pdfg).
Qed.

Lemma run_output_buffer_witness :
  Bytes rebuiltDocument = "%PDF-old" ∧
  Forall (λ out, ∃ rr, out = Some rr ∧ Bytes (after rr) = "%PDF-1" ∧ is_Some (result rr))
    (run (sampleEnv emptyJSON) failingProcess ∅ rebuiltDocument).
Proof.
  split; [reflexivity |]. apply Forall_forall. intros out Hout.
  pose proof (run_output_buffer (sampleEnv emptyJSON) failingProcess ∅ rebuiltDocument out)
    as H.
  assert (run (sampleEnv emptyJSON) failingProcess ∅ rebuiltDocument
          = [Some {| result := Some (errorString
                        ("Exit with code 1 due to network error" +:+ String newline ""
                         +:+ "exit status 1"));
                     spawned := Some {| Path := ""; Args := ["page"; "https://example.com"; "-"];
                                        Stdin := None; Stdout := None; Stderr := None |};
                     after := with_outbuf "%PDF-1" rebuiltDocument |}]) as Hrun
    by (vm_compute; reflexivity).
  pose proof Hout as Hout'. rewrite Hrun in Hout'. apply list_elem_of_singleton in Hout'.
  specialize (H _ Hout Hout'). simpl in H. destruct H as [_ H].
  eexists. split; [exact Hout' |]. split; [exact H | by eexists].
Defined.

(** ** How a build reports the failure of the process *)

(** X3. A build that got as far as the process returns nil exactly when
    [cmd.Run()] did.  When the process failed: if the context is done, its
    error is returned; else, if the process wrote to the package's own
    standard-error buffer (no [SetStderr]) and that text is not blank, a new
    error with the text, a line feed and the message of the process error,
    which does not wrap the process error; else the process error itself. *)
Theorem run_reports_process_error E proc σ (pdfg : PDFGenerator) out rr cmd :
  out ∈ run E proc σ pdfg → out = Some rr → spawned rr = Some cmd →
  let res := proc cmd σ in
  (result rr = None ↔ runErr res = None) ∧
  ∀ err, runErr res = Some err →
    match ctxErr res with
    | Some ctxErr => result rr = Some ctxErr
    | None =>
        if decide (stdErr pdfg = None ∧ TrimSpace (stderrBytes res) ≠ "")
        then result rr = Some (errorString (stderrBytes res +:+ String newline ""
                                            +:+ Error err))
        else result rr = Some err
    end.
Proof.
  intros Hout Hrr Hcmd. destruct (run_outcome _ _ _ _ _ Hout) as [[err ->]|(args & _ & Hrun)].
  { by simplify_eq. }
  rewrite Hrr in Hrun. destruct (selectStdin E (pages pdfg)) as [[stdin pages']|]; [| done].
  cbv zeta in Hrun. simplify_eq. simpl in Hcmd. simplify_eq. simpl. unfold processError.
  destruct (runErr (proc _ σ)) as [err|]; [| by split].
  split.
  { split; [| done]. destruct (ctxErr _); [done |]. destruct (stdErr pdfg); [done |].
    by case_decide. }
  intros ? [= <-]. destruct (ctxErr _); [done |].
  destruct (stdErr pdfg) as [w|].
  - rewrite decide_False; [done |]. by intros [? _].
  - destruct (decide (TrimSpace _ ≠ "")).
    + by rewrite decide_True.
    + rewrite decide_False; [done |]. by intros [_ ?].
Qed.

Lemma run_reports_process_error_witness :
  Forall (λ out, ∃ rr, out = Some rr ∧
            result rr = Some (errorString ("Exit with code 1 due to network error"
                                           +:+ String newline "" +:+ "exit status 1")))
    (run (sampleEnv emptyJSON) failingProcess ∅ rebuiltDocument).
Proof.
  apply Forall_forall. intros out Hout.
  destruct (run_outcome _ _ _ _ _ Hout) as [[err Herr]|(args & Hargs & Hrun)].
  { exfalso. subst out. vm_compute in Hout. apply list_elem_of_singleton in Hout.
    discriminate Hout. }
  simpl in Hrun. eexists. split; [exact Hrun |].
  pose proof (run_reports_process_error (sampleEnv emptyJSON) failingProcess ∅
                rebuiltDocument out _ _ Hout Hrun eq_refl) as [_ H].
  exact (H (errorString "exit status 1") eq_refl).
Defined.

(** ** The bytes that [Reader] hands to the markdown parser *)

Lemma sliceFrom_suffix b : ∀ off t,
  sliceFrom b off = Some t → ∃ skipped, b = skipped +:+ t ∧ String.length skipped = off.
Proof.
  unfold sliceFrom. induction b as [|c b IH]; intros off t H; case_decide as Hle; simplify_eq.
  - simpl in Hle. exists "". assert (off = 0) as -> by lia. by split.
  - destruct off as [|off].
    + exists "". split; [| done]. change ("" +:+ ?x) with x. simpl. f_equal.
      clear. induction b as [|c b IH]; [done |]. simpl. by f_equal.
    + simpl in Hle. destruct (IH off (String.substring off (String.length b - off) b))
        as (skipped & Hb & Hlen).
      { rewrite decide_True by lia. done. }
      exists (String c skipped). split; [| by simpl; rewrite Hlen].
      rewrite app_String. simpl. by rewrite <- Hb.
Qed.

Lemma sliceFrom_is_Some b off : off ≤ String.length b → is_Some (sliceFrom b off).
Proof. intros H. unfold sliceFrom. by rewrite decide_True. Qed.

Lemma length_rev_app s : ∀ acc,
  String.length (String.rev_app s acc) = String.length s + String.length acc.
Proof.
  induction s as [|c s IH]; intros acc; simpl; [done |]. rewrite IH. simpl. lia.
Qed.

Lemma length_rev s : String.length (String.rev s) = String.length s.
Proof. unfold String.rev. rewrite length_rev_app. simpl. lia. Qed.

Lemma length_dropCR line : String.length (dropCR line) ≤ String.length line.
Proof.
  unfold dropCR. destruct (String.rev line) as [|c r] eqn:Hrev; [done |].
  case_decide; [| done]. rewrite length_rev.
  pose proof (length_rev line) as Hl. rewrite Hrev in Hl. simpl in Hl. lia.
Qed.

Lemma linesLen_cons line lines :
  linesLen (line :: lines) = String.length line + 1 + linesLen lines.
Proof. done. Qed.

Lemma linesLen_scanTokens pieces : linesLen (scanTokens pieces) ≤ linesLen pieces.
Proof.
  induction pieces as [|p pieces IH]; [done |]. simpl.
  destruct (_ <? _)%N.
  - rewrite !linesLen_cons. pose proof (length_dropCR p). lia.
  - rewrite linesLen_cons. unfold linesLen at 1. simpl. lia.
Qed.

(** Every byte of a text whose last byte is a line feed is in one of the
    pieces that the scanner cuts, or is the line feed that ends a piece. *)
Lemma linesLen_splitLines data : ∀ cur,
  data ≠ "" → terminated data = true →
  linesLen (splitLines cur data) = String.length cur + String.length data.
Proof.
  induction data as [|c data IH]; intros cur Hne Hterm; [done |].
  simpl. case_decide as Hc.
  - rewrite linesLen_cons, length_rev. destruct data as [|d data].
    + simpl. rewrite ?decide_True by done. unfold linesLen. simpl. lia.
    + rewrite IH; [simpl; lia | done | done].
  - destruct data as [|d data].
    + simpl in Hterm. by apply bool_decide_eq_true in Hterm.
    + rewrite IH; [simpl; lia | done | done].
Qed.

Lemma linesLen_scannerLines data :
  terminated data = true → linesLen (scannerLines data) ≤ String.length data.
Proof.
  intros Hterm. unfold scannerLines.
  etrans; [apply linesLen_scanTokens |].
  destruct data as [|c data]; [done |].
  rewrite linesLen_splitLines by done. simpl. lia.
Qed.

(** The loop never counts more bytes than the lines it has seen. *)
Lemma skipScan_bound lines : ∀ off foundH1 n,
  skipScan lines off foundH1 = Some n → n ≤ off + linesLen lines.
Proof.
  induction lines as [|line lines IH]; intros off foundH1 n H; [done |].
  rewrite linesLen_cons. cbn [skipScan] in H.
  repeat match type of H with
         | (if ?b then _ else _) = _ => destruct b
         end; simplify_eq; try lia.
  all: apply IH in H; lia.
Qed.

Lemma mdBytesToParse_terminated flag src :
  terminated src = true → is_Some (mdBytesToParse flag src).
Proof.
  intros Hterm. unfold mdBytesToParse. destruct flag; [| done].
  destruct (skipScan (scannerLines src) 0 false) as [off|] eqn:Hscan; [| done].
  apply sliceFrom_is_Some. apply skipScan_bound in Hscan.
  pose proof (linesLen_scannerLines src Hterm). lia.
Qed.

(** X4. [Reader()] returns, without the run-time panic of the slice
    expression, for every markdown page without the skip flag, and with the
    flag for every file that is empty or ends in a line feed: the offset that
    the loop adds up then stays within the file. *)
Theorem Reader_returns_on_terminated_files (E : Env) (mp : MarkdownPage) :
  (SkipFirstH1H2 mp = true →
   ∀ src, ReadFile E (InputPath mp) = inl src → terminated src = true) →
  ∃ r mp', MarkdownPage_Reader E mp = Some (r, mp').
Proof.
  intros H. unfold MarkdownPage_Reader.
  destruct (readErr mp); [by eexists _, _ |].
  destruct (htmlCache mp); [by eexists _, _ |].
  destruct (ReadFile E (InputPath mp)) as [src|err] eqn:Hsrc; [| by eexists _, _].
  assert (is_Some (mdBytesToParse (SkipFirstH1H2 mp) src)) as [toParse ->].
  { destruct (SkipFirstH1H2 mp) eqn:Hflag; [| done].
    apply mdBytesToParse_terminated. by apply H. }
  simpl. by eexists _, _.
Qed.

Lemma Reader_returns_on_terminated_files_witness :
  ∃ r mp',
    MarkdownPage_Reader (fileEnv (joinLines ["# Title"; "## Subtitle"])) notesPage
    = Some (r, mp').
Proof.
  apply (Reader_returns_on_terminated_files
           (fileEnv (joinLines ["# Title"; "## Subtitle"])) notesPage).
  intros _ src [= <-]. reflexivity.
Defined.

(** X5. On its first call for a readable file, [Reader()] parses a suffix of
    the file and nothing else: the file is what was skipped followed by what
    the parser gets, and the reader gives the HTML envelope around the
    library's output for these bytes, which the page now caches.  Without
    the skip flag nothing is skipped. *)
Theorem Reader_parses_a_suffix (E : Env) (mp : MarkdownPage) src r mp' :
  readErr mp = None → htmlCache mp = None →
  ReadFile E (InputPath mp) = inl src →
  MarkdownPage_Reader E mp = Some (r, mp') →
  ∃ skipped toParse,
    src = skipped +:+ toParse ∧
    (SkipFirstH1H2 mp = false → skipped = "") ∧
    r = bytesReader (htmlOpen +:+ markdownToHTML E toParse +:+ htmlClose) ∧
    htmlCache mp' = Some (htmlOpen +:+ markdownToHTML E toParse +:+ htmlClose) ∧
    readErr mp' = None.
Proof.
  intros He Hc Hsrc. unfold MarkdownPage_Reader. rewrite He, Hc, Hsrc.
  destruct (mdBytesToParse (SkipFirstH1H2 mp) src) as [toParse|] eqn:Hparse; [| done].
  simpl. intros [= <- <-]. simpl.
  assert (∃ skipped, src = skipped +:+ toParse ∧ (SkipFirstH1H2 mp = false → skipped = ""))
    as (skipped & Hsplit & Hflag).
  { unfold mdBytesToParse in Hparse. destruct (SkipFirstH1H2 mp).
    - destruct (skipScan _ _ _) as [off|].
      + apply sliceFrom_suffix in Hparse as (skipped & -> & _). by exists skipped.
      + simplify_eq. by exists "".
    - simplify_eq. by exists "". }
  by exists skipped, toParse.
Qed.

Lemma Reader_parses_a_suffix_witness :
  ∃ skipped toParse r mp',
    MarkdownPage_Reader (fileEnv (joinLines ["# Title"; "## Subtitle"; "body"])) notesPage
    = Some (r, mp') ∧
    joinLines ["# Title"; "## Subtitle"; "body"] = skipped +:+ toParse ∧
    r = bytesReader (htmlOpen +:+ toParse +:+ htmlClose).
Proof.
  destruct (Reader_parses_a_suffix
              (fileEnv (joinLines ["# Title"; "## Subtitle"; "body"])) notesPage
              _ _ _ eq_refl eq_refl eq_refl eq_refl)
    as (skipped & toParse & Hsplit & _ & Hr & _).
  exists skipped, toParse. eexists _, _. split; [reflexivity |]. by split.
Defined.

(** ** [ToJSON] stops at the first page that cannot be read *)

Lemma pageToJSON_kind E σ p :
  pageToJSON E σ p
  = match p with
    | IsPage _ =>
        Some (inl {| Type_ := kindOf p; jsonPage_PageOptions := Options p;
                     jsonPage_InputFile := InputFile p; jsonPage_InputPath := "";
                     Base64PageData := "" |}, σ, p)
    | _ =>
        match Reader E p with
        | None => None
        | Some (None, p') =>
            Some (inl {| Type_ := kindOf p; jsonPage_PageOptions := Options p;
                         jsonPage_InputFile := InputFile p;
                         jsonPage_InputPath := match p with
                                               | IsMarkdownPage mp => InputPath mp
                                               | _ => ""
                                               end;
                         Base64PageData := "" |}, σ, p')
        | Some (Some r, p') =>
            match ReadAll σ r with
            | (inr err, σ') => Some (inr (readingError (kindOf p) err), σ', p')
            | (inl buf, σ') =>
                Some (inl {| Type_ := kindOf p; jsonPage_PageOptions := Options p;
                             jsonPage_InputFile := InputFile p;
                             jsonPage_InputPath := match p with
                                                   | IsMarkdownPage mp => InputPath mp
                                                   | _ => ""
                                                   end;
                             Base64PageData := EncodeToString E buf |}, σ', p')
            end
        end
    end.
Proof. by destruct p. Qed.

Lemma pagesToJSON_stops E pre : ∀ σ jps σ1 pre' p rest err σ2 p',
  pagesToJSON E σ pre = Some (inl jps, σ1, pre') →
  pageToJSON E σ1 p = Some (inr err, σ2, p') →
  pagesToJSON E σ (pre ++ p :: rest) = Some (inr err, σ2, pre' ++ p' :: rest).
Proof.
  induction pre as [|q pre IH]; intros σ jps σ1 pre' p rest err σ2 p' Hpre Hp; simpl in *.
  - simplify_eq. by rewrite Hp.
  - destruct (pageToJSON E σ q) as [[[[jq|errq] σq] q']|]; [| by simplify_eq | done].
    destruct (pagesToJSON E σq pre) as [[[[jps'|err'] σ'] ps']|] eqn:Hps;
      [| by simplify_eq | done].
    simplify_eq. by rewrite (IH _ _ _ _ _ rest _ _ _ Hps Hp).
Qed.

(** X6. Let the pages before [p] be serialized, and let the content of [p]
    (a stream page or a markdown page) fail to be read with the error
    [cause].  Then [ToJSON()] returns the error "error reading content for
    JSON serialization (from <kind>): <cause>", which wraps [cause], and no
    bytes.  It stops there: the pages behind [p] are as they were and their
    readers have not been read, while the readers of the pages before [p]
    stay drained. *)
Theorem ToJSON_stops_at_unreadable_page E σ (pdfg : PDFGenerator)
    pre p rest jps σ1 pre' r p' cause σ2 :
  pages pdfg = pre ++ p :: rest →
  pagesToJSON E σ pre = Some (inl jps, σ1, pre') →
  Reader E p = Some (Some r, p') →
  ReadAll σ1 r = (inr cause, σ2) →
  ToJSON E σ pdfg
  = Some (inr (wrapError ("error reading content for JSON serialization (from "
                          +:+ kindOf p +:+ "): " +:+ Error cause) cause),
          σ2, with_pages (pre' ++ p' :: rest) pdfg)
  ∧ (kindOf p = "reader" ∨ kindOf p = "markdown").
Proof.
  intros Hpages Hpre Hr Hread. unfold ToJSON. rewrite Hpages.
  assert (pageToJSON E σ1 p = Some (inr (readingError (kindOf p) cause), σ2, p')) as Hp.
  { rewrite pageToJSON_kind. destruct p as [pg|pr|mp]; [done | |]; by rewrite Hr, Hread. }
  rewrite (pagesToJSON_stops E pre _ _ _ _ _ rest _ _ _ Hpre Hp).
  split; [done |]. destruct p as [pg|pr|mp]; [done | by left | by right].
Qed.

Lemma ToJSON_stops_at_unreadable_page_witness :
  ∃ cause p',
    ToJSON (sampleEnv emptyJSON) streamStore unreadableDocument
    = Some (inr (wrapError ("error reading content for JSON serialization (from markdown): "
                            +:+ Error cause) cause),
            streamStore,
            with_pages [IsPage (NewPage "https://example.com"); p';
                        IsPageReader (NewPageReader (Some 0))] unreadableDocument)
    ∧ Error cause = "failed to read markdown file missing.md: open: no such file or directory".
Proof.
  eexists _, _. split.
  - refine (proj1 (ToJSON_stops_at_unreadable_page (sampleEnv emptyJSON) streamStore
              unreadableDocument [IsPage (NewPage "https://example.com")]
              (IsMarkdownPage (NewMarkdownPage "missing.md"))
              [IsPageReader (NewPageReader (Some 0))] _ _ _ _ _ _ _
              eq_refl eq_refl eq_refl eq_refl)).
  - reflexivity.
Defined.

(** ** Adding a page again *)

Lemma alterField_id n f g :
  (∀ c, getField n g = Some c → f c = c) → alterField n f g = g.
Proof.
  induction g as [|[m c] g IH]; intros H; simpl in *; [done |].
  case_decide.
  - by rewrite H.
  - by rewrite IH.
Qed.

Lemma alterField_alterField n f f' g :
  alterField n f (alterField n f' g) = alterField n (f ∘ f') g.
Proof.
  induction g as [|[m c] g IH]; simpl; [done |].
  case_decide; simpl.
  - by rewrite decide_True.
  - rewrite decide_False by done. by rewrite IH.
Qed.

Lemma alterField_ext n f f' g :
  (∀ c, getField n g = Some c → f c = f' c) → alterField n f g = alterField n f' g.
Proof.
  induction g as [|[m c] g IH]; intros H; simpl in *; [done |].
  case_decide.
  - by rewrite H.
  - by rewrite IH.
Qed.

(** A default that was applied is not applied again: a group that holds the
    field [name] as [applyDefault] left it is not changed by [applyDefault]. *)
Lemma applyDefault_stable name global g g' :
  getField name g' = getField name (applyDefault name global g) →
  applyDefault name global g' = g'.
Proof.
  intros Hfield. unfold applyDefault at 1. case_decide as Hc; [| done].
  destruct Hc as [Hglobal Hempty]. unfold alterString. apply alterField_id.
  intros c Hc. destruct c as [o| | | | |]; try done. exfalso.
  rewrite Hfield in Hc. unfold stringValue, stringField in Hempty. rewrite Hfield in Hempty.
  rewrite Hc in Hempty. simpl in Hempty.
  unfold applyDefault in Hc. case_decide as Hd.
  - unfold alterString in Hc. rewrite getField_alterField, decide_True in Hc by done.
    destruct (getField name g) as [[]|]; simpl in Hc; by simplify_eq.
  - apply Hd. split; [done |]. unfold stringValue, stringField. by rewrite Hc.
Qed.

Lemma copyAbsent_again (global page : gmap string string) kvs kvs' :
  kvs ∈ rangeMap (Some global) → kvs' ∈ rangeMap (Some global) →
  copyAbsent (copyAbsent page kvs) kvs' = copyAbsent page kvs.
Proof.
  intros H H'. apply map_eq. intros k.
  rewrite (copyAbsent_range global _ kvs' k H'), (copyAbsent_range global _ kvs k H).
  destruct (page !! k); [done |]. by destruct (global !! k).
Qed.

Lemma applyReplace_again global kvs kvs' g :
  kvs ∈ rangeMap global → kvs' ∈ rangeMap global →
  applyReplace global kvs' (applyReplace global kvs g) = applyReplace global kvs g.
Proof.
  intros H H'. unfold applyReplace. destruct global as [gm|]; [| done].
  unfold alterMap. rewrite alterField_alterField. apply alterField_ext.
  intros c _. destruct c as [| | | |mo|]; try done. simpl.
  by rewrite (copyAbsent_again gm _ kvs kvs').
Qed.

Lemma mergeDefaults_again pdfg kvs kvs' opts :
  kvs ∈ rangeMap (mo_value (replace pdfg)) → kvs' ∈ rangeMap (mo_value (replace pdfg)) →
  mergeDefaults pdfg kvs' (mergeDefaults pdfg kvs opts) = mergeDefaults pdfg kvs opts.
Proof.
  intros H H'. destruct opts as [po hf].
  unfold mergeDefaults, on_pageOptions, on_headerAndFooterOptions. simpl. f_equal.
  - by apply applyDefault_stable with (g := po).
  - set (h1 := applyDefault "HeaderHTML" (headerHTMLPath pdfg) hf).
    set (h2 := applyDefault "FooterHTML" (footerHTMLPath pdfg) h1).
    set (h3 := applyReplace (mo_value (replace pdfg)) kvs h2).
    rewrite (applyDefault_stable "HeaderHTML" _ hf h3); cycle 1.
    { unfold h3, h2. rewrite applyReplace_other by done.
      by rewrite applyDefault_other by done. }
    rewrite (applyDefault_stable "FooterHTML" _ h1 h3); cycle 1.
    { unfold h3. by rewrite applyReplace_other by done. }
    by apply applyReplace_again.
Qed.

Lemma Options_withOptions p opts : Options (withOptions p opts) = opts.
Proof. by destruct p. Qed.

Lemma withOptions_withOptions p opts opts' :
  withOptions (withOptions p opts) opts' = withOptions p opts'.
Proof. by destruct p. Qed.

(** X7. The merge of [AddPage] is idempotent.  A page as [AddPage] left it,
    added once more to the document (for instance after [ResetPages]), is
    appended with the options it has: the defaults that were copied into it
    are not copied again and nothing is overwritten, in whatever order the
    global placeholder map is visited. *)
Theorem AddPage_again_changes_nothing (pdfg : PDFGenerator) (p : PageProvider) d1 p1 d2 :
  d1 ∈ AddPage pdfg p → last (pages d1) = Some p1 →
  d2 ∈ AddPage (ResetPages d1) p1 →
  pages d2 = [p1].
Proof.
  unfold AddPage. intros (kvs & ->%list_elem_of_ret & Hkvs)%list_elem_of_bind Hlast.
  simpl in Hlast. rewrite last_snoc in Hlast. injection Hlast as <-.
  intros (kvs' & ->%list_elem_of_ret & Hkvs')%list_elem_of_bind. simpl in *.
  rewrite Options_withOptions, withOptions_withOptions.
  replace (mergeDefaults _ kvs' _) with (mergeDefaults pdfg kvs (Options p)); [done |].
  symmetry. by apply (mergeDefaults_again pdfg kvs kvs').
Qed.

Lemma AddPage_again_changes_nothing_witness :
  Forall (λ d1, ∃ p1, last (pages d1) = Some p1 ∧
            Forall (λ d2, pages d2 = [p1]) (AddPage (ResetPages d1) p1))
    (AddPage defaultsDocument ownFooterPage).
Proof.
  apply Forall_forall. intros d1 Hd1.
  assert (∃ p1, last (pages d1) = Some p1) as [p1 Hp1].
  { unfold AddPage in Hd1.
    apply list_elem_of_bind in Hd1 as (kvs & ->%list_elem_of_ret & _).
    simpl. by eexists. }
  exists p1. split; [done |]. apply Forall_forall. intros d2 Hd2.
  exact (AddPage_again_changes_nothing defaultsDocument ownFooterPage d1 p1 d2 Hd1 Hp1 Hd2).
Defined.

(** ** What [NewPDFGeneratorFromJSON] accepts, and what it makes of it *)

Lemma restoredDocument_noDefaults path jp : noDefaults (restoredDocument path jp).
Proof. by repeat split. Qed.

Lemma restoredFrom_weaken E σ σ' p page :
  σ ⊆ σ' → restoredFrom E σ p page → restoredFrom E σ' p page.
Proof.
  intros Hsub. destruct page as [pg|pr|mp]; simpl; [done | | done].
  intros (Ht & Ho & ref & buf & Hin & Hdec & Hl).
  split; [done |]. split; [done |]. exists ref, buf. split; [done |]. split; [done |].
  by eapply lookup_weaken.
Qed.

(** The loop over the page records, for a document without global defaults:
    the one outcome, which is an error exactly when a record is not valid. *)
Lemma restorePages_spec E jps : ∀ i σ pdfg,
  noDefaults pdfg →
  ∃ res σ', restorePages E i jps σ pdfg = [(res, σ')] ∧ σ ⊆ σ' ∧
    match res with
    | inl d =>
        Forall (validRecord E) jps ∧
        ∃ ps, d = with_pages (pages pdfg ++ ps) pdfg ∧
              Forall2 (restoredFrom E σ') jps ps ∧
              (∀ ref, ref ∈ omap readerRef ps → ref ∉ dom σ) ∧
              NoDup (omap readerRef ps)
    | inr _ => ¬ Forall (validRecord E) jps
    end.
Proof.
  induction jps as [|p jps IH]; intros i σ pdfg Hnd; simpl.
  { exists (inl pdfg), σ. split; [done |]. split; [done |]. split; [done |].
    exists []. rewrite app_nil_r. split; [by destruct pdfg |].
    split; [done |]. split; [by intros ref ?%elem_of_nil | constructor]. }
  assert (∀ page σ1,
            σ ⊆ σ1 → validRecord E p → restoredFrom E σ1 p page →
            (∀ ref, readerRef page = Some ref → (ref ∉ dom σ) ∧ (ref ∈ dom σ1)) →
            (readerRef page = None → σ1 = σ) →
            ∃ res σ', restorePages E (S i) jps σ1 (with_pages (pages pdfg ++ [page]) pdfg)
                      = [(res, σ')] ∧ σ ⊆ σ' ∧
              match res with
              | inl d =>
                  Forall (validRecord E) (p :: jps) ∧
                  ∃ ps, d = with_pages (pages pdfg ++ ps) pdfg ∧
                        Forall2 (restoredFrom E σ') (p :: jps) ps ∧
                        (∀ ref, ref ∈ omap readerRef ps → ref ∉ dom σ) ∧
                        NoDup (omap readerRef ps)
              | inr _ => ¬ Forall (validRecord E) (p :: jps)
              end) as Hstep.
  { intros page σ1 Hsub Hvalid Hpage Href Hnone.
    destruct (IH (S i) σ1 (with_pages (pages pdfg ++ [page]) pdfg))
      as (res & σ' & Hres & Hsub' & Hspec); [by destruct pdfg |].
    exists res, σ'. split; [done |]. split; [by etrans |].
    destruct res as [d|err]; [| by intros [_ ?]%Forall_cons].
    destruct Hspec as (Hvalids & ps & -> & Hps & Hrefs & Hnodup).
    split; [by constructor |]. exists (page :: ps). simpl.
    rewrite <- app_assoc. split; [done |].
    split; [constructor; [by eapply restoredFrom_weaken | done] |].
    destruct (readerRef page) as [ref|] eqn:Hpref; simpl.
    - destruct (Href ref eq_refl) as [Hfresh Hin]. split.
      + intros ref' [->|Hin']%elem_of_cons; [done |].
        intros Hd. apply (Hrefs ref' Hin'). by apply (subseteq_dom _ _ Hsub).
      + constructor; [| done]. intros Hin'. by apply (Hrefs ref Hin').
    - rewrite (Hnone eq_refl) in Hrefs. by split. }
  destruct (decide (Type_ p = "page")) as [Htype|Hnpage].
  { case_decide as Hfile.
    - exists (inr (errorString ("invalid InputFile value for page type on page "
                                +:+ formatInt i))), σ.
      split; [done |]. split; [done |].
      intros [[(_ & Hne1 & Hne2)|[(Ht & _)|(Ht & _)]] _]%Forall_cons;
        [by destruct Hfile | |]; by rewrite Htype in Ht.
    - rewrite AddPage_noDefaults by done. simpl. rewrite app_nil_r.
      apply Hstep; [done | | done | done | done].
      left. split; [done |]. split; [by intros ? ; apply Hfile; left
                                    | by intros ?; apply Hfile; right]. }
  destruct (decide (Type_ p = "reader")) as [Htype|Hnreader].
  { case_decide as Hdata.
    - exists (inr (errorString ("missing Base64PageData for reader type on page "
                                +:+ formatInt i))), σ.
      split; [done |]. split; [done |].
      intros [[(Ht & _)|[(_ & Hne & _)|(Ht & _)]] _]%Forall_cons; [done | done |].
      by rewrite Htype in Ht.
    - destruct (DecodeString E (Base64PageData p)) as [buf|err] eqn:Hdec.
      + rewrite AddPage_noDefaults by done. simpl. rewrite app_nil_r.
        assert (fresh (dom σ) ∉ dom σ) as Hfresh by apply is_fresh.
        apply Hstep.
        * apply insert_subseteq. by apply not_elem_of_dom.
        * right. left. split; [done |]. split; [done |]. by exists buf.
        * simpl. split; [done |]. split; [done |]. eexists _, buf.
          split; [done |]. split; [done |]. by rewrite lookup_insert_eq.
        * simpl. intros ref [= <-]. split; [done |]. rewrite dom_insert. set_solver.
        * done.
      + exists (inr (wrapError ("error decoding base64 input for reader type on page "
                                +:+ formatInt i +:+ ": " +:+ Error err) err)), σ.
        split; [done |]. split; [done |].
        intros [[(Ht & _)|[(_ & _ & buf & Hbuf)|(Ht & _)]] _]%Forall_cons;
          [done | congruence |]. by rewrite Htype in Ht. }
  destruct (decide (Type_ p = "markdown")) as [Htype|Hnmarkdown].
  { case_decide as Hpath.
    - exists (inr (errorString ("missing InputPath for markdown type on page "
                                +:+ formatInt i))), σ.
      split; [done |]. split; [done |].
      by intros [[(Ht & _)|[(Ht & _)|(_ & Hne)]] _]%Forall_cons.
    - rewrite AddPage_noDefaults by done. simpl. rewrite app_nil_r.
      apply Hstep; [done | | done | done | done].
      right. right. by split. }
  eexists (inr _), σ. split; [done |]. split; [done |].
  by intros [[(Ht & _)|[(Ht & _)|(Ht & _)]] _]%Forall_cons.
Qed.

(** X8. [NewPDFGeneratorFromJSON] has one outcome, and it is a document
    exactly when the bytes decode to a record, the executable is found, and
    every page record is valid: a "page" with a locator other than "" and
    "-", a "reader" with content that is not empty and is base64, or a
    "markdown" with a path; any other record, a record of another type
    included, makes it fail.  It leaves the readers of the store as they
    are. *)
Theorem NewPDFGeneratorFromJSON_accepts_valid_records (E : Env) (σ : gmap nat reader)
    (jsonReader : bytes) :
  ∃ res σ', NewPDFGeneratorFromJSON E σ jsonReader = [(res, σ')] ∧ σ ⊆ σ' ∧
    ((∃ d, res = inl d) ↔
     ∃ jp path, Unmarshal E jsonReader = inl jp ∧ findPath E = inl path
                ∧ Forall (validRecord E) (Pages jp)).
Proof.
  unfold NewPDFGeneratorFromJSON, NewPDFGenerator.
  destruct (Unmarshal E jsonReader) as [jp|err].
  2: { eexists (inr _), σ. split; [done |]. split; [done |].
       split; [by intros [d ?] | by intros (? & ? & ? & _)]. }
  destruct (findPath E) as [path|err].
  2: { eexists (inr _), σ. split; [done |]. split; [done |].
       split; [by intros [d ?] | by intros (? & ? & _ & ? & _)]. }
  destruct (restorePages_spec E (Pages jp) 0 σ (restoredDocument path jp)
              (restoredDocument_noDefaults path jp)) as (res & σ' & Hres & Hsub & Hspec).
  exists res, σ'. split; [exact Hres |]. split; [done |].
  destruct res as [d|err].
  - split; [| by eexists]. intros _. exists jp, path. by destruct Hspec.
  - split; [by intros [d ?] |]. intros (jp' & path' & [= <-] & _ & Hvalid). done.
Qed.

(** X9. What [NewPDFGeneratorFromJSON] returns.  The four option groups are
    those of the record, the path is the one found, and nothing else is set:
    no output file, no global defaults, an empty buffer.  There is one page
    per page record, in order, with exactly the options of the record (no
    default is merged into them): a located page with the record's locator;
    a stream page over a new reader of its own that holds the decoded
    content; a markdown page for the record's path that has no skip flag
    and no cached content, whatever page wrote the record, so its content is
    read again from the file. *)
Theorem NewPDFGeneratorFromJSON_restores (E : Env) (σ : gmap nat reader)
    (jsonReader : bytes) d σ' :
  NewPDFGeneratorFromJSON E σ jsonReader = [(inl d, σ')] →
  ∃ jp path, Unmarshal E jsonReader = inl jp ∧ findPath E = inl path ∧
    d = with_pages (pages d) (restoredDocument path jp) ∧
    Forall2 (restoredFrom E σ') (Pages jp) (pages d) ∧
    (∀ ref, ref ∈ omap readerRef (pages d) → ref ∉ dom σ) ∧
    NoDup (omap readerRef (pages d)).
Proof.
  unfold NewPDFGeneratorFromJSON, NewPDFGenerator.
  destruct (Unmarshal E jsonReader) as [jp|err]; [| done].
  destruct (findPath E) as [path|err]; [| done].
  destruct (restorePages_spec E (Pages jp) 0 σ (restoredDocument path jp)
              (restoredDocument_noDefaults path jp)) as (res & σ1 & Hres & Hsub & Hspec).
  unfold restoredDocument in Hres. simpl. rewrite Hres. intros [= -> ->].
  destruct Hspec as (_ & ps & -> & Hps & Hrefs & Hnodup).
  exists jp, path. split; [done |]. split; [done |]. simpl. by repeat split.
Qed.

Lemma restored_pages_of_record (E : Env) (σ : gmap nat reader)
    (jsonReader : bytes) d σ' :
  NewPDFGeneratorFromJSON E σ jsonReader = [(inl d, σ')] →
  ∃ jp path, Unmarshal E jsonReader = inl jp ∧ findPath E = inl path ∧
    d = with_pages (pages d) (restoredDocument path jp) ∧
    Forall2 (restoredFrom E σ') (Pages jp) (pages d).
Proof.
  unfold NewPDFGeneratorFromJSON, NewPDFGenerator.
  destruct (Unmarshal E jsonReader) as [jp|err]; [| done].
  destruct (findPath E) as [path|err]; [| done].
  destruct (restorePages_spec E (Pages jp) 0 σ (restoredDocument path jp)
              (restoredDocument_noDefaults path jp)) as (res & σ1 & Hres & Hsub & Hspec).
  unfold restoredDocument in Hres. simpl. rewrite Hres. intros [= -> ->].
  destruct Hspec as (_ & ps & -> & Hps & Hrefs & Hnodup).
  exists jp, path. split; [done |]. split; [done |]. simpl. by repeat split.
Qed.

Lemma NewPDFGeneratorFromJSON_restores_witness :
  ∃ d σ' mp,
    NewPDFGeneratorFromJSON (sampleEnv markdownRecord) ∅ "{}" = [(inl d, σ')]
    ∧ pages d = [IsMarkdownPage mp; IsPageReader (NewPageReader (Some 0))]
    ∧ SkipFirstH1H2 mp = false ∧ htmlCache mp = None
    ∧ σ' !! 0 = Some {| r_data := "<p>content</p>"; r_err := None |}.
Proof.
  assert (∃ d σ', NewPDFGeneratorFromJSON (sampleEnv markdownRecord) ∅ "{}" = [(inl d, σ')]
                  ∧ pages d = [IsMarkdownPage (NewMarkdownPage "notes.md");
                               IsPageReader (NewPageReader (Some 0))])
    as (d & σ' & Hrun & Hpages).
  { eexists _, _. split; [vm_compute; reflexivity | reflexivity]. }
  destruct (NewPDFGeneratorFromJSON_restores (sampleEnv markdownRecord) ∅ "{}" d σ' Hrun)
    as (jp & path & Hjp & _ & _ & Hps & _).
  injection Hjp as <-. rewrite Hpages in Hps.
  apply Forall2_cons in Hps as [Hmd Hps]. apply Forall2_cons in Hps as [Hrd _].
  destruct Hmd as [_ Hmp]. destruct Hrd as (_ & _ & ref & buf & Hin & Hbuf & Hl).
  injection Hin as <-. injection Hbuf as <-.
  exists d, σ', (NewMarkdownPage "notes.md"). by repeat split.
Defined.

(** ** A document serialized twice *)

Lemma pageToJSON_record E σ p jp σ' p' :
  pageToJSON E σ p = Some (inl jp, σ', p') →
  Type_ jp = kindOf p ∧ jsonPage_PageOptions jp = Options p
  ∧ jsonPage_InputFile jp = InputFile p.
Proof.
  rewrite pageToJSON_kind. intros H.
  destruct p as [pg|pr|mp]; [by simplify_eq | |];
    (destruct (Reader E _) as [[[r|] q]|]; [| by simplify_eq | done];
     destruct (ReadAll σ r) as [[buf|err] σ1]; by simplify_eq).
Qed.

Lemma pagesToJSON_records E ps : ∀ σ jps σ' ps',
  pagesToJSON E σ ps = Some (inl jps, σ', ps') →
  Forall2 (λ p jp, Type_ jp = kindOf p ∧ jsonPage_PageOptions jp = Options p
                   ∧ jsonPage_InputFile jp = InputFile p) ps jps.
Proof.
  induction ps as [|p ps IH]; intros σ jps σ' ps' H; simpl in H.
  - simplify_eq. constructor.
  - destruct (pageToJSON E σ p) as [[[[jp|err] σ1] p1]|] eqn:Hp; [| by simplify_eq | done].
    destruct (pagesToJSON E σ1 ps) as [[[[jps1|err] σ2] ps1]|] eqn:Hps;
      [| by simplify_eq | done].
    simplify_eq. constructor; [by eapply pageToJSON_record | by eapply IH].
Qed.

(** X10. A document with a stream page cannot be saved twice.  After a
    [ToJSON()] that succeeded, a second [ToJSON()] still reaches
    [json.Marshal], but with no content for the stream page (base64 encodes
    no bytes as the empty string), and [NewPDFGeneratorFromJSON] rejects
    every text that decodes to this second record. *)
Theorem second_ToJSON_cannot_be_loaded E σ (pdfg : PDFGenerator) b σ1 pdfg1 E2 :
  ToJSON E σ pdfg = Some (inl b, σ1, pdfg1) →
  (∃ pr, IsPageReader pr ∈ pages pdfg ∧ is_Some (PageReader_Input pr)) →
  EncodeToString E2 "" = "" →
  ∃ jps,
    pagesToJSON E2 σ1 (pages pdfg1) = Some (inl jps, σ1, pages pdfg1) ∧
    ToJSON E2 σ1 pdfg1 = Some (Marshal E2 (jsonOf pdfg1 jps), σ1, pdfg1) ∧
    ∀ b2 σ2, Unmarshal E2 b2 = inl (jsonOf pdfg1 jps) →
      ∃ err σ3, NewPDFGeneratorFromJSON E2 σ2 b2 = [(inr err, σ3)].
Proof.
  unfold ToJSON at 1. intros H (pr & Hpr & Hin) Henc.
  destruct (pagesToJSON E σ (pages pdfg)) as [[[[jps|err] σ'] ps1]|] eqn:Hps;
    [| by simplify_eq | done].
  simplify_eq.
  destruct (pagesToJSON_settles _ _ _ _ _ _ Hps) as (Hsame & _ & Hsettled).
  destruct (pagesToJSON_settled E2 σ1 ps1 Hsettled) as (jps2 & Hjps2 & Hblobs).
  exists jps2. split; [done |]. split.
  { unfold ToJSON. simpl. rewrite Hjps2. by destruct pdfg. }
  intros b2 σ2 Hb2.
  assert (¬ Forall (validRecord E2) jps2) as Hinvalid.
  { pose proof (pagesToJSON_records _ _ _ _ _ _ Hjps2) as Htypes.
    apply (samePage_reader _ _ _ Hsame) in Hpr.
    apply list_elem_of_lookup in Hpr as [i Hi].
    destruct (Forall2_lookup_l _ _ _ _ _ Hblobs Hi) as (jp & Hjp & Hblob).
    destruct (Forall2_lookup_l _ _ _ _ _ Htypes Hi) as (jp' & Hjp' & Htype & _).
    rewrite Hjp in Hjp'. injection Hjp' as <-. simpl in Hblob, Htype.
    specialize (Hblob Hin). rewrite Henc in Hblob.
    intros Hall. rewrite Forall_lookup in Hall.
    destruct (Hall i jp Hjp) as [(Ht & _)|[(_ & Hne & _)|(Ht & _)]];
      [by rewrite Htype in Ht | done | by rewrite Htype in Ht]. }
  unfold NewPDFGeneratorFromJSON, NewPDFGenerator. rewrite Hb2.
  destruct (findPath E2) as [path|err]; [| by eexists _, _].
  destruct (restorePages_spec E2 jps2 0 σ2
              (restoredDocument path (jsonOf (with_pages ps1 pdfg) jps2))
              (restoredDocument_noDefaults _ _)) as (res & σ3 & Hres & _ & Hspec).
  unfold restoredDocument in Hres. simpl in *. rewrite Hres.
  destruct res as [d|err]; [by destruct Hspec | by eexists _, _].
Qed.

Lemma second_ToJSON_cannot_be_loaded_witness :
  ∃ b σ1 err σ3,
    ToJSON (sampleEnv emptyJSON) streamStore streamDocument
      = Some (inl b, σ1, streamDocument)
    ∧ ToJSON (sampleEnv drainedRecord) σ1 streamDocument = Some (inl "{}", σ1, streamDocument)
    ∧ NewPDFGeneratorFromJSON (sampleEnv drainedRecord) ∅ "{}" = [(inr err, σ3)].
Proof.
  destruct (second_ToJSON_cannot_be_loaded (sampleEnv emptyJSON) streamStore streamDocument
              _ _ _ (sampleEnv drainedRecord) eq_refl) as (jps & Hjps & Hto & Hfrom).
  { exists (NewPageReader (Some 0)). split; [left | by eexists]. }
  { reflexivity. }
  assert (jps = Pages drainedRecord) as ->.
  { vm_compute in Hjps. by injection Hjps. }
  destruct (Hfrom "{}" ∅ eq_refl) as (err & σ3 & Herr).
  eexists _, _, err, σ3. split; [reflexivity |]. split; [reflexivity | exact Herr].
Defined.

(** ** A build without a reader *)

Lemma selectStdin_none E ps :
  Forall noReader ps → selectStdin E ps = Some (None, ps).
Proof.
  induction 1 as [|p ps Hp _ IH]; [done |]. simpl.
  destruct p as [pg|pr|mp]; simpl in Hp; [| | done].
  - simpl. by rewrite IH.
  - simpl. rewrite Hp. simpl. by rewrite IH.
Qed.

(** X11. When no page of the document has a reader (located pages, and
    stream pages made with a nil reader), the build gives the process no
    standard input, though the arguments name "-" as the input of every
    stream page; the pages are left as they are.  The build does not stop
    for it: it returns, and unless the duplicate-flag check fails the
    process is spawned. *)
Theorem run_without_reader_has_no_stdin E proc σ (pdfg : PDFGenerator) out :
  Forall noReader (pages pdfg) →
  out ∈ run E proc σ pdfg →
  ∃ rr, out = Some rr ∧
    match spawned rr with
    | None => ∃ a, globalDuplicate pdfg a
    | Some cmd =>
        Stdin cmd = None ∧ Args cmd ∈ PDFGenerator_Args pdfg ∧
        pages (after rr) = pages pdfg ∧
        ∀ pr, IsPageReader pr ∈ pages pdfg →
              ∃ l k, Args cmd = l ++ ["page"; "-"] ++ k
    end.
Proof.
  intros Hnone Hout.
  destruct (run_outcome _ _ _ _ _ Hout) as [[err ->]|(args & Hargs & ->)].
  { eexists. split; [done |]. simpl.
    unfold run in Hout. apply list_elem_of_bind in Hout as (e & Hout & Hcheck).
    unfold checkDuplicateFlags in Hcheck.
    apply list_elem_of_bind in Hcheck as (gargs & ->%list_elem_of_ret & Hgargs).
    destruct (checkDuplicates [] gargs) as [e|] eqn:Hc.
    - destruct (checkDuplicates_names _ _ Hc) as (a & _ & Ha). by exists a, gargs.
    - apply list_elem_of_bind in Hout as (? & Hout & _).
      destruct (selectStdin _ _) as [[??]|]; by apply list_elem_of_ret in Hout. }
  rewrite (selectStdin_none E _ Hnone). eexists. split; [done |]. simpl.
  split; [done |]. split; [done |]. split; [by destruct (outWriter pdfg) |].
  intros pr Hpr.
  apply PDFGenerator_Args_parts in Hargs as (g & o & c & t & ps & _ & _ & _ & _ & Hps & ->).
  apply list_elem_of_lookup in Hpr as [i Hi].
  destruct (Forall2_lookup_l _ _ _ _ _ Hps Hi) as (part & Hpart & a & _ & ->).
  apply list_elem_of_lookup_2, list_elem_of_split in Hpart as (ps1 & ps2 & ->).
  rewrite concat_app. simpl.
  exists (g ++ o ++ c ++ t ++ concat ps1), (a ++ concat ps2 ++ [outputTarget pdfg]).
  rewrite <- !app_assoc. do 5 f_equal. simpl. by rewrite <- app_assoc.
Qed.

Lemma run_without_reader_has_no_stdin_witness :
  Forall (λ out, ∃ rr cmd, out = Some rr ∧ spawned rr = Some cmd ∧ Stdin cmd = None
                           ∧ Args cmd = ["page"; "https://example.com"; "page"; "-"; "-"])
    (run (sampleEnv emptyJSON) sampleProcess ∅ nilReaderDocument).
Proof.
  apply Forall_forall. intros out Hout.
  destruct (run_without_reader_has_no_stdin (sampleEnv emptyJSON) sampleProcess ∅
              nilReaderDocument out) as (rr & -> & Hrr); [| exact Hout |].
  { by repeat constructor. }
  vm_compute in Hout. apply list_elem_of_singleton in Hout. injection Hout as ->.
  simpl in Hrr. eexists _, _. split; [reflexivity |]. split; [reflexivity |].
  split; [apply Hrr | reflexivity].
Defined.

(** ** The option kinds in JSON *)

(** X12. The JSON methods of the six option kinds carry every field: the
    flag name and the value, and for the numeric kinds the mark that says
    whether the option is set.  What [MarshalJSON] writes for an option,
    [UnmarshalJSON] reads back as that same option, into whatever option it
    is called on, provided [encoding/json] decodes the bytes to the struct
    they were encoded from; so an option that is not set stays unset, with
    its value, and a nil map stays nil.  When the decoder fails,
    [UnmarshalJSON] returns its error and leaves the option as it was. *)
Theorem option_JSON_round_trip :
  (∀ J (o recv : boolOption) b,
     boolOption_MarshalJSON J o = inl b → inverts J b →
     boolOption_UnmarshalJSON J recv b = (o, None)) ∧
  (∀ J (o recv : stringOption) b,
     stringOption_MarshalJSON J o = inl b → inverts J b →
     stringOption_UnmarshalJSON J recv b = (o, None)) ∧
  (∀ J (o recv : uintOption) b,
     uintOption_MarshalJSON J o = inl b → inverts J b →
     uintOption_UnmarshalJSON J recv b = (o, None)) ∧
  (∀ J (o recv : floatOption) b,
     floatOption_MarshalJSON J o = inl b → inverts J b →
     floatOption_UnmarshalJSON J recv b = (o, None)) ∧
  (∀ J (o recv : mapOption) b,
     mapOption_MarshalJSON J o = inl b → inverts J b →
     mapOption_UnmarshalJSON J recv b = (o, None)) ∧
  (∀ J (o recv : sliceOption) b,
     sliceOption_MarshalJSON J o = inl b → inverts J b →
     sliceOption_UnmarshalJSON J recv b = (o, None)) ∧
  (∀ J (recv : boolOption) b err,
     json_Unmarshal J b = inr err → boolOption_UnmarshalJSON J recv b = (recv, Some err)) ∧
  (∀ J (recv : stringOption) b err,
     json_Unmarshal J b = inr err → stringOption_UnmarshalJSON J recv b = (recv, Some err)) ∧
  (∀ J (recv : uintOption) b err,
     json_Unmarshal J b = inr err → uintOption_UnmarshalJSON J recv b = (recv, Some err)) ∧
  (∀ J (recv : floatOption) b err,
     json_Unmarshal J b = inr err → floatOption_UnmarshalJSON J recv b = (recv, Some err)) ∧
  (∀ J (recv : mapOption) b err,
     json_Unmarshal J b = inr err → mapOption_UnmarshalJSON J recv b = (recv, Some err)) ∧
  (∀ J (recv : sliceOption) b err,
     json_Unmarshal J b = inr err → sliceOption_UnmarshalJSON J recv b = (recv, Some err)).
Proof.
  split_and!.
  1-6: intros J [] recv b Hm Hinv; apply Hinv in Hm;
    unfold boolOption_UnmarshalJSON, stringOption_UnmarshalJSON,
      uintOption_UnmarshalJSON, floatOption_UnmarshalJSON, mapOption_UnmarshalJSON,
      sliceOption_UnmarshalJSON; by rewrite Hm.
  all: intros J recv b err Hu;
    unfold boolOption_UnmarshalJSON, stringOption_UnmarshalJSON,
      uintOption_UnmarshalJSON, floatOption_UnmarshalJSON, mapOption_UnmarshalJSON,
      sliceOption_UnmarshalJSON; by rewrite Hu.
Qed.

(** ** The runner's [-replace] flag *)

Lemma cutAtEquals_None s : hasEquals s = false → cutAtEquals s = None.
Proof.
  induction s as [|c s IH]; [done |]. cbn [hasEquals cutAtEquals].
  intros [Hc Hs]%orb_false_elim. apply bool_decide_eq_false in Hc.
  destruct (decide (c = equalsSign)); [done |]. by rewrite IH.
Qed.

Lemma cutAtEquals_app k v :
  hasEquals k = false → cutAtEquals (k +:+ String equalsSign v) = Some (k, v).
Proof.
  induction k as [|c k IH]; cbn [hasEquals].
  - intros _. change ("" +:+ ?x) with x. cbn [cutAtEquals].
    by destruct (decide (equalsSign = equalsSign)).
  - intros [Hc Hk]%orb_false_elim. apply bool_decide_eq_false in Hc.
    rewrite app_String. cbn [cutAtEquals].
    destruct (decide (c = equalsSign)); [done |]. by rewrite IH.
Qed.

Lemma hasEquals_cut s :
  hasEquals s = true → ∃ k v, s = k +:+ String equalsSign v ∧ hasEquals k = false.
Proof.
  induction s as [|c s IH]; [done |]. cbn [hasEquals].
  destruct (bool_decide (c = equalsSign)) eqn:Hc; cbn [orb].
  - intros _. apply bool_decide_eq_true in Hc as ->. by exists "", s.
  - intros (k & v & -> & Hk)%IH. exists (String c k), v. split; [done |].
    cbn [hasEquals]. by rewrite Hc.
Qed.

(** X13. [replaceMap.Set] cuts its argument at the first "=": the text
    before it is the key, which may be empty, and all the rest, further "="
    included, is the value stored under that key, in place of what the map
    held there.  An argument without "=" is rejected with the error "invalid
    format for replace flag: <argument>. Use key=value" and the map is not
    touched.  Every argument is of one of the two forms.  On a nil map an
    argument with "=" panics. *)
Theorem replaceMap_Set_cuts_at_first_equals :
  (∀ m k v, hasEquals k = false →
     replaceMap_Set (Some m) (k +:+ String equalsSign v) = Some (Some (<[k := v]> m), None)) ∧
  (∀ r value, hasEquals value = false →
     replaceMap_Set r value
     = Some (r, Some (errorString ("invalid format for replace flag: " +:+ value
                                   +:+ ". Use key=value")))) ∧
  (∀ value, hasEquals value = false ∨
            ∃ k v, value = k +:+ String equalsSign v ∧ hasEquals k = false) ∧
  (∀ value, hasEquals value = true → replaceMap_Set None value = None).
Proof.
  split; [| split; [| split]].
  - intros m k v Hk. unfold replaceMap_Set, SplitN2. by rewrite cutAtEquals_app.
  - intros r value Hv. unfold replaceMap_Set, SplitN2. by rewrite cutAtEquals_None.
  - intros value. destruct (hasEquals value) eqn:Hv; [right | by left].
    by apply hasEquals_cut.
  - intros value (k & v & -> & Hk)%hasEquals_cut.
    unfold replaceMap_Set, SplitN2. by rewrite cutAtEquals_app.
Qed.

(** ** The flag that the duplicate check names *)

Lemma checkDuplicates_first args : ∀ options,
  match checkDuplicates options args with
  | Some err =>
      ∃ pre a rest,
        args = pre ++ a :: rest ∧ err = errorString ("duplicate argument: " +:+ a) ∧
        HasPrefix a "--" = true ∧ a ∈ options ++ flags pre ∧
        (NoDup options → NoDup (options ++ flags pre))
  | None => NoDup options → NoDup (options ++ flags args)
  end.
Proof.
  induction args as [|arg args IH]; intros options; simpl.
  - unfold flags. rewrite filter_nil. by rewrite app_nil_r.
  - destruct (HasPrefix arg "--") eqn:Hp.
    + destruct (existsb _ options) eqn:Hex.
      * apply existsb_elem_of in Hex. exists [], arg, args.
        unfold flags. rewrite filter_nil, app_nil_r. by repeat split.
      * assert (arg ∉ options) as Hnotin.
        { intros Hin%existsb_elem_of. congruence. }
        assert (NoDup options → NoDup (options ++ [arg])) as Hnd.
        { intros Hnd. apply NoDup_app. repeat split; [done | | apply NoDup_singleton].
          intros x Hx ->%list_elem_of_singleton. done. }
        specialize (IH (options ++ [arg])).
        destruct (checkDuplicates (options ++ [arg]) args) as [err|].
        -- destruct IH as (pre & a & rest & -> & -> & Ha & Hin & Hno).
           exists (arg :: pre), a, rest.
           unfold flags in *. rewrite filter_cons, decide_True by done.
           rewrite <- app_assoc in Hin, Hno. by repeat split; auto.
        -- unfold flags in *. rewrite filter_cons, decide_True by done.
           rewrite <- app_assoc in IH. auto.
    + specialize (IH options). destruct (checkDuplicates options args) as [err|].
      * destruct IH as (pre & a & rest & -> & -> & Ha & Hin & Hno).
        exists (arg :: pre), a, rest.
        unfold flags in *. rewrite filter_cons, decide_False by congruence.
        by repeat split.
      * unfold flags in *. by rewrite filter_cons, decide_False by congruence.
Qed.

(** X14. The duplicate-flag check names the first repeat.  When it fails,
    the arguments of the global group are some tokens among which no flag
    token (one that starts with "--") occurs twice, followed by a flag token
    that is among them already: that token is the one the error names.
    When it passes, no flag token of the global group's arguments occurs
    twice. *)
Theorem checkDuplicateFlags_names_first_repeat (pdfg : PDFGenerator) (err : option error) :
  err ∈ checkDuplicateFlags pdfg →
  ∃ gargs, gargs ∈ group_Args (globalOptions pdfg) ∧
    match err with
    | Some e =>
        ∃ pre a rest,
          gargs = pre ++ a :: rest ∧ e = errorString ("duplicate argument: " +:+ a) ∧
          HasPrefix a "--" = true ∧ a ∈ flags pre ∧ NoDup (flags pre)
    | None => NoDup (flags gargs)
    end.
Proof.
  unfold checkDuplicateFlags.
  intros (gargs & ->%list_elem_of_ret & Hgargs)%list_elem_of_bind.
  exists gargs. split; [done |].
  pose proof (checkDuplicates_first gargs []) as H.
  destruct (checkDuplicates [] gargs) as [e|].
  - destruct H as (pre & a & rest & -> & -> & Ha & Hin & Hno).
    exists pre, a, rest. repeat split; try done. apply Hno. constructor.
  - apply H. constructor.
Qed.

Lemma checkDuplicateFlags_names_first_repeat_witness :
  ∃ gargs, gargs ∈ group_Args (globalOptions duplicateOptionsDocument) ∧
    ∃ pre a rest,
      gargs = pre ++ a :: rest ∧
      errorString "duplicate argument: --margin-right"
      = errorString ("duplicate argument: " +:+ a) ∧
      HasPrefix a "--" = true ∧ a ∈ flags pre ∧ NoDup (flags pre).
Proof.
  apply (checkDuplicateFlags_names_first_repeat duplicateOptionsDocument
           (Some (errorString "duplicate argument: --margin-right"))).
  vm_compute. left.
Defined.

(** ** The round trip through JSON, for every kind of page *)

Lemma restoredFrom_record E σ p jp p' :
  Type_ jp = kindOf p ∧ jsonPage_PageOptions jp = Options p
  ∧ jsonPage_InputFile jp = InputFile p →
  restoredFrom E σ jp p' →
  kindOf p' = kindOf p ∧ sameArguments p p'.
Proof.
  intros (Htype & Hopts & Hfile) Hp'. unfold sameArguments.
  destruct p' as [pg'|pr'|mp']; simpl in Hp'.
  - destruct Hp' as [Ht ->]. simpl. rewrite <- Htype, Ht. by repeat split.
  - destruct Hp' as (Ht & Ho & _). simpl. rewrite <- Htype, Ht, Ho. repeat split; try done.
    rewrite Ht in Htype. by destruct p.
  - destruct Hp' as [Ht ->]. simpl. rewrite <- Htype, Ht. repeat split; try done.
    rewrite Ht in Htype. by destruct p.
Qed.

(** X15. Let [ToJSON()] get as far as [json.Marshal] on a document without
    output file.  Whatever [NewPDFGeneratorFromJSON] makes of the record
    written has the arguments of that document: its [Args()] results are
    the same, and its pages are of the same kinds, with the same locators
    and options, markdown pages included.  A markdown page comes back
    without its skip flag and without its converted content. *)
Theorem JSON_round_trip_keeps_Args E σ (pdfg : PDFGenerator) jps σ1 ps1 :
  OutputFile pdfg = "" →
  pagesToJSON E σ (pages pdfg) = Some (inl jps, σ1, ps1) →
  ToJSON E σ pdfg = Some (Marshal E (jsonOf pdfg jps), σ1, with_pages ps1 pdfg) ∧
  ∀ E2 σ2 b2 d' σ3,
    Unmarshal E2 b2 = inl (jsonOf pdfg jps) →
    NewPDFGeneratorFromJSON E2 σ2 b2 = [(inl d', σ3)] →
    PDFGenerator_Args d' = PDFGenerator_Args pdfg ∧
    Forall2 (λ p p', kindOf p' = kindOf p ∧ sameArguments p p') (pages pdfg) (pages d') ∧
    ∀ mp', IsMarkdownPage mp' ∈ pages d' →
           SkipFirstH1H2 mp' = false ∧ htmlCache mp' = None ∧ readErr mp' = None.
Proof.
  intros Hout Hps. split; [unfold ToJSON; by rewrite Hps |].
  intros E2 σ2 b2 d' σ3 Hb2 Hload.
  destruct (restored_pages_of_record E2 σ2 b2 d' σ3 Hload)
    as (jp & path & Hjp & _ & Hd' & Hpages).
  rewrite Hb2 in Hjp. injection Hjp as <-. simpl in Hpages.
  pose proof (pagesToJSON_records _ _ _ _ _ _ Hps) as Hrecs.
  assert (Forall2 (λ p p', kindOf p' = kindOf p ∧ sameArguments p p') (pages pdfg) (pages d'))
    as Hsame.
  { clear -Hrecs Hpages. revert Hpages. generalize (pages d').
    induction Hrecs as [|p jp ps jps Hp _ IH]; intros ps' Hps'.
    - inversion Hps'. constructor.
    - inversion Hps' as [|? p' ? ps'' Hp' Hps'']; subst. constructor; [| by apply IH].
      by eapply restoredFrom_record. }
  split; [| split; [done |]].
  - rewrite Hd'. apply PDFGenerator_Args_same; simpl; try done.
    eapply Forall2_impl; [exact Hsame |]. by intros p p' [_ ?].
  - intros mp' Hin. apply list_elem_of_lookup in Hin as [i Hi].
    destruct (Forall2_lookup_r _ _ _ _ _ Hpages Hi) as (jp & _ & Hjp).
    simpl in Hjp. destruct Hjp as [_ ->]. done.
Qed.

Lemma JSON_round_trip_keeps_Args_witness :
  ∃ d' σ3,
    ToJSON (fileEnv "# Title") ∅ notesDocument
    = Some (inl "{}", ∅, with_pages [IsMarkdownPage
              (with_cache (Some (htmlOpen +:+ "# Title" +:+ htmlClose)) None notesPage)]
              notesDocument)
    ∧ NewPDFGeneratorFromJSON (sampleEnv notesRecord) ∅ "{}" = [(inl d', σ3)]
    ∧ PDFGenerator_Args d' = PDFGenerator_Args notesDocument
    ∧ ∀ mp', IsMarkdownPage mp' ∈ pages d' → SkipFirstH1H2 mp' = false.
Proof.
  assert (pagesToJSON (fileEnv "# Title") ∅ (pages notesDocument)
          = Some (inl (Pages notesRecord), ∅,
                  [IsMarkdownPage (with_cache (Some (htmlOpen +:+ "# Title" +:+ htmlClose))
                                     None notesPage)])) as Hpages
    by (vm_compute; reflexivity).
  destruct (JSON_round_trip_keeps_Args (fileEnv "# Title") ∅ notesDocument
              (Pages notesRecord) _ _ eq_refl Hpages) as [Hto Hfrom].
  assert (∃ d' σ3, NewPDFGeneratorFromJSON (sampleEnv notesRecord) ∅ "{}" = [(inl d', σ3)])
    as (d' & σ3 & Hload) by (eexists _, _; vm_compute; reflexivity).
  exists d', σ3. split; [exact Hto |]. split; [exact Hload |].
  destruct (Hfrom (sampleEnv notesRecord) ∅ "{}" d' σ3 eq_refl Hload) as (Hargs & _ & Hmd).
  split; [exact Hargs |]. intros mp' Hin. by destruct (Hmd mp' Hin).
Defined.

(** ** The cover page of the example program *)

Lemma rev_app_app s : ∀ acc, String.rev_app s acc = String.rev_app s "" +:+ acc.
Proof.
  induction s as [|c s IH]; intros acc; simpl; [done |].
  rewrite (IH (String c acc)), (IH (String c "")). by rewrite app_assoc_string.
Qed.

Lemma rev_String c s : String.rev (String c s) = String.rev s +:+ String c "".
Proof. unfold String.rev. simpl. apply rev_app_app. Qed.

Lemma rev_app_distr a b : String.rev (a +:+ b) = String.rev b +:+ String.rev a.
Proof.
  induction a as [|c a IH].
  - change ("" +:+ b) with b. by rewrite app_empty_r.
  - rewrite app_String, !rev_String, IH. by rewrite app_assoc_string.
Qed.

Lemma rev_involutive s : String.rev (String.rev s) = s.
Proof.
  induction s as [|c s IH]; [done |]. rewrite rev_String, rev_app_distr, IH. done.
Qed.

Lemma stripPrefix_app p t : stripPrefix p (p +:+ t) = Some t.
Proof.
  induction p as [|c p IH]; [by destruct t |].
  rewrite app_String. simpl. by rewrite decide_True.
Qed.

Lemma stripPrefix_Some p : ∀ s t, stripPrefix p s = Some t → s = p +:+ t.
Proof.
  induction p as [|c p IH]; intros s t; simpl.
  - by intros [= ->].
  - destruct s as [|d s]; [done |]. case_decide; [| done]. subst d.
    intros ->%IH. by rewrite app_String.
Qed.

Lemma HasPrefix_stripPrefix s p : HasPrefix s p = true → ∃ t, stripPrefix p s = Some t.
Proof.
  unfold HasPrefix. revert p. induction s as [|d s IH]; intros [|c p]; simpl;
    try done; try (intros _; by eexists).
  destruct (Ascii.ascii_dec c d) as [->|]; [| done].
  rewrite decide_True by done. apply IH.
Qed.

Lemma stripOne_Some runes s t :
  stripOne runes s = Some t → ∃ r, r ∈ runes ∧ s = r +:+ t.
Proof.
  unfold stripOne. intros H.
  destruct (list_find _ _) as [[i o]|] eqn:Hfind; [| done]. simpl in H. subst o.
  apply list_find_Some in Hfind as (Hi & _ & _).
  apply list_lookup_fmap_Some in Hi as (r & Hr & Hs).
  exists r. split; [by eapply list_elem_of_lookup_2 |]. by apply stripPrefix_Some.
Qed.

Lemma stripOne_None runes s r :
  stripOne runes s = None → r ∈ runes → stripPrefix r s = None.
Proof.
  unfold stripOne. intros H Hr.
  destruct (list_find _ _) as [[i o]|] eqn:Hfind.
  - simpl in H. subst o. apply list_find_Some in Hfind as (_ & [? ?] & _). done.
  - apply list_find_None in Hfind. rewrite Forall_forall in Hfind.
    destruct (stripPrefix r s) as [t|] eqn:Hs; [| done].
    exfalso. apply (Hfind (Some t)); [| by eexists].
    apply list_elem_of_fmap. by exists r.
Qed.

Lemma trimLeftWith_suffix runes fuel : ∀ s, ∃ p, s = p +:+ trimLeftWith runes fuel s.
Proof.
  induction fuel as [|fuel IH]; intros s; simpl; [by exists "" |].
  destruct (stripOne runes s) as [s'|] eqn:Hs; [| by exists ""].
  apply stripOne_Some in Hs as (r & _ & ->). destruct (IH s') as [p Hp].
  exists (r +:+ p). by rewrite app_assoc_string, <- Hp.
Qed.

Lemma trimLeftWith_done runes fuel : ∀ s,
  Forall (λ r, r ≠ "") runes → String.length s ≤ fuel →
  stripOne runes (trimLeftWith runes fuel s) = None.
Proof.
  induction fuel as [|fuel IH]; intros s Hne Hlen; simpl.
  - destruct s; [| simpl in Hlen; lia].
    destruct (stripOne runes "") as [t|] eqn:Hs; [| done].
    apply stripOne_Some in Hs as (r & Hr & Heq). rewrite Forall_forall in Hne.
    destruct r; [by destruct (Hne _ Hr) | done].
  - destruct (stripOne runes s) as [s'|] eqn:Hs; [| done].
    apply IH; [done |]. apply stripOne_Some in Hs as (r & Hr & ->).
    rewrite Forall_forall in Hne. specialize (Hne r Hr).
    rewrite length_app_string in Hlen. destruct r; [done |]. simpl in Hlen. lia.
Qed.

Lemma trimLeftWith_empty_starts runes fuel s :
  trimLeftWith runes fuel s = "" → s ≠ "" → ∃ r t, r ∈ runes ∧ s = r +:+ t.
Proof.
  destruct fuel as [|fuel]; simpl; [done |].
  destruct (stripOne runes s) as [s'|] eqn:Hs; [| done].
  intros _ _. apply stripOne_Some in Hs as (r & Hr & ->). by exists r, s'.
Qed.

Lemma trimLeftWith_empty_ends runes fuel : ∀ s,
  trimLeftWith runes fuel s = "" → s ≠ "" → ∃ r y, r ∈ runes ∧ s = y +:+ r.
Proof.
  induction fuel as [|fuel IH]; intros s; simpl; [done |].
  destruct (stripOne runes s) as [s'|] eqn:Hs; [| done].
  intros Hempty _. apply stripOne_Some in Hs as (r & Hr & ->).
  destruct (decide (s' = "")) as [->|Hne].
  - exists r, "". split; [done |]. by rewrite app_empty_r.
  - destruct (IH s' Hempty Hne) as (r' & y & Hr' & ->).
    exists r', (r +:+ y). split; [done |]. by rewrite app_assoc_string.
Qed.

Lemma length_zero_string s : String.length s = 0 → s = "".
Proof. by destruct s. Qed.

(** What [strings.TrimSpace] returns does not end in white space. *)
Lemma TrimSpace_no_space_end s y r : r ∈ spaceRunes → TrimSpace s ≠ y +:+ r.
Proof.
  intros Hr Heq. unfold TrimSpace in Heq.
  set (l := trimLeftWith spaceRunes (String.length s) s) in *.
  set (t := trimLeftWith (String.rev <$> spaceRunes) (String.length l) (String.rev l)) in *.
  assert (stripOne (String.rev <$> spaceRunes) t = None) as Hdone.
  { apply trimLeftWith_done; [| by rewrite length_rev].
    apply Forall_forall. intros x Hx.
    assert (Forall (λ r, r ≠ "") (String.rev <$> spaceRunes)) as Hall
      by (vm_compute; repeat constructor; discriminate).
    rewrite Forall_forall in Hall. by apply Hall. }
  assert (t = String.rev r +:+ String.rev y) as Ht.
  { rewrite <- rev_app_distr, <- Heq. by rewrite rev_involutive. }
  pose proof (stripOne_None _ t (String.rev r) Hdone) as Hnone.
  rewrite Ht, stripPrefix_app in Hnone. discriminate Hnone.
  apply list_elem_of_fmap. by exists r.
Qed.

(** A text that [strings.TrimSpace] empties is empty or ends in white
    space. *)
Lemma TrimSpace_empty s : TrimSpace s = "" → s = "" ∨ ∃ r y, r ∈ spaceRunes ∧ s = y +:+ r.
Proof.
  unfold TrimSpace.
  set (l := trimLeftWith spaceRunes (String.length s) s).
  intros Hrev. apply (f_equal String.length) in Hrev. rewrite length_rev in Hrev.
  apply length_zero_string in Hrev.
  destruct (decide (s = "")) as [|Hs]; [by left |]. right.
  destruct (decide (l = "")) as [Hl|Hl].
  - by apply (trimLeftWith_empty_ends spaceRunes (String.length s)).
  - destruct (trimLeftWith_suffix spaceRunes (String.length s) s) as [p Hp].
    fold l in Hp.
    apply trimLeftWith_empty_starts in Hrev as (r' & t' & Hr' & Ht').
    2: { intros Hz. apply (f_equal String.length) in Hz. rewrite length_rev in Hz.
         by apply length_zero_string in Hz. }
    apply list_elem_of_fmap in Hr' as (r & -> & Hr).
    exists r, (p +:+ String.rev t'). split; [done |].
    rewrite Hp at 1. rewrite app_assoc_string. f_equal.
    rewrite <- (rev_involutive l), Ht', rev_app_distr. by rewrite rev_involutive.
Qed.

(** A heading line has a title. *)
Lemma headingTitle_nonempty prefix q line :
  prefix = q +:+ " " → HasPrefix (TrimSpace line) prefix = true → headingTitle prefix line ≠ "".
Proof.
  intros Hq Hp Hempty. unfold headingTitle, TrimPrefix in Hempty.
  destruct (HasPrefix_stripPrefix _ _ Hp) as [rest Hrest]. rewrite Hrest in Hempty.
  simpl in Hempty. apply stripPrefix_Some in Hrest.
  assert (" " ∈ spaceRunes) as Hspace by (vm_compute; do 5 right; left).
  destruct (TrimSpace_empty _ Hempty) as [->|(r & y & Hr & ->)].
  - rewrite app_empty_r, Hq in Hrest. by apply (TrimSpace_no_space_end line q " ").
  - rewrite <- app_assoc_string in Hrest. by apply (TrimSpace_no_space_end line _ r Hr) in Hrest.
Qed.

Lemma coverScan_before pre lines h1Title h2Title :
  Forall (λ l, isH1 l = false) pre →
  coverScan (pre ++ lines) false h1Title h2Title = coverScan lines false h1Title h2Title.
Proof.
  induction 1 as [|l pre Hl _ IH]; [done |].
  rewrite <- app_comm_cons. cbn [coverScan]. unfold isH1 in Hl. rewrite Hl.
  cbn [negb andb]. exact IH.
Qed.

Lemma coverScan_heading h1 lines h1Title h2Title :
  isH1 h1 = true →
  coverScan (h1 :: lines) false h1Title h2Title = coverScan lines true (headingTitle "# " h1) h2Title.
Proof. intros H. cbn [coverScan]. unfold isH1 in H. by rewrite H. Qed.

Lemma coverScan_blanks blanks lines h1Title h2Title :
  Forall (λ l, isBlank l = true) blanks →
  coverScan (blanks ++ lines) true h1Title h2Title = coverScan lines true h1Title h2Title.
Proof.
  induction 1 as [|l blanks Hl _ IH]; [done |].
  rewrite <- app_comm_cons. cbn [coverScan]. unfold isBlank in Hl.
  apply bool_decide_eq_true in Hl. rewrite Hl.
  change (HasPrefix "" "## ") with false.
  rewrite (bool_decide_eq_false_2 ("" ≠ "")) by (by intros ?).
  cbn [negb andb]. rewrite andb_false_r. exact IH.
Qed.

Lemma coverScan_subtitle h2 lines h1Title :
  isH2 h2 = true → coverScan (h2 :: lines) true h1Title "" = (h1Title, headingTitle "## " h2, true).
Proof. intros H. cbn [coverScan]. unfold isH2 in H. by rewrite H. Qed.

Lemma coverScan_text line lines h1Title h2Title :
  isH2 line = false → isBlank line = false →
  coverScan (line :: lines) true h1Title h2Title = (h1Title, h2Title, true).
Proof.
  intros H2 Hb. cbn [coverScan]. unfold isH2 in H2. rewrite H2, andb_false_r.
  unfold isBlank in Hb. apply bool_decide_eq_false in Hb.
  by rewrite (bool_decide_eq_true_2 (TrimSpace line ≠ "")).
Qed.

Lemma length_joinLines lines : String.length (joinLines lines) = linesLen lines.
Proof.
  induction lines as [|l lines IH]; [done |].
  by rewrite length_joinLines_cons, linesLen_cons, IH.
Qed.

Lemma linesLen_app l k : linesLen (l ++ k) = linesLen l + linesLen k.
Proof.
  induction l as [|x l IH]; [done |].
  rewrite <- app_comm_cons, !linesLen_cons, IH. lia.
Qed.

(** X16. The cover page of the example program shows the headings that
    [MarkdownPage.Reader] skips with the skip flag, for every markdown file.
    If the first top-level heading is followed, over blank lines only, by a
    second-level heading, [createCoverPage] writes the cover with the text
    of both headings, neither empty, and the author, and [Reader] parses the
    file from the byte offset that the lines up to and including the second
    heading add up to, each counted with one byte for its line end.  If the
    first line behind the heading that is not blank is no second-level
    heading, the cover has the first title and an empty second one, and
    [Reader] parses the file from the offset of that line.  When the write
    succeeds [createCoverPage] returns the path of the cover and no error. *)
Theorem cover_shows_the_skipped_headings (fs : FS) markdownPath coverPath author src
    pre h1 blanks :
  os_Open fs markdownPath = inl src →
  Forall (λ l, isH1 l = false) pre → isH1 h1 = true →
  Forall (λ l, isBlank l = true) blanks →
  (∀ h2 rest,
     scannerLines src = pre ++ h1 :: blanks ++ h2 :: rest → isH2 h2 = true →
     let html := coverTemplate (headingTitle "# " h1) (headingTitle "## " h2) author in
     headingTitle "# " h1 ≠ "" ∧ headingTitle "## " h2 ≠ "" ∧
     written (createCoverPage fs markdownPath coverPath author) = Some (coverPath, html) ∧
     (os_WriteFile fs coverPath html = None →
      createCoverPage fs markdownPath coverPath author
      = {| returnedPath := coverPath; returnedErr := None;
           written := Some (coverPath, html) |}) ∧
     mdBytesToParse true src = sliceFrom src (linesLen (pre ++ h1 :: blanks ++ [h2]))) ∧
  (∀ line rest,
     scannerLines src = pre ++ h1 :: blanks ++ line :: rest →
     isH2 line = false → isBlank line = false →
     let html := coverTemplate (headingTitle "# " h1) "" author in
     headingTitle "# " h1 ≠ "" ∧
     written (createCoverPage fs markdownPath coverPath author) = Some (coverPath, html) ∧
     (os_WriteFile fs coverPath html = None →
      createCoverPage fs markdownPath coverPath author
      = {| returnedPath := coverPath; returnedErr := None;
           written := Some (coverPath, html) |}) ∧
     mdBytesToParse true src = sliceFrom src (linesLen (pre ++ h1 :: blanks))).
Proof.
  intros Hopen Hpre Hh1 Hblanks.
  assert (headingTitle "# " h1 ≠ "") as Ht1 by (by apply (headingTitle_nonempty "# " "#")).
  split.
  - intros h2 rest Hlines Hh2 html.
    assert (headingTitle "## " h2 ≠ "") as Ht2 by (by apply (headingTitle_nonempty "## " "##")).
    assert (coverScan (scannerLines src) false "" "" = (headingTitle "# " h1, headingTitle "## " h2, true))
      as Hscan.
    { rewrite Hlines, coverScan_before, coverScan_heading by done.
      by rewrite coverScan_blanks, coverScan_subtitle. }
    unfold createCoverPage. rewrite Hopen. unfold scannerLines in Hscan. rewrite Hscan.
    rewrite decide_False by done. fold html.
    split; [done |]. split; [done |]. split; [by destruct (os_WriteFile _ _ _) |].
    split; [by intros -> |].
    unfold mdBytesToParse. fold (scannerLines src). rewrite Hlines.
    rewrite skipScan_before, skipScan_heading by done.
    rewrite skipScan_blanks by done. cbn [skipScan]. unfold isH2 in Hh2. rewrite Hh2.
    cbn [andb negb]. f_equal.
    rewrite !linesLen_app, !linesLen_cons, !linesLen_app, !linesLen_cons.
    rewrite !length_joinLines. change (linesLen []) with 0. lia.
  - intros line rest Hlines Hh2 Hnb html.
    assert (coverScan (scannerLines src) false "" "" = (headingTitle "# " h1, "", true)) as Hscan.
    { rewrite Hlines, coverScan_before, coverScan_heading by done.
      by rewrite coverScan_blanks, coverScan_text. }
    unfold createCoverPage. rewrite Hopen. unfold scannerLines in Hscan. rewrite Hscan.
    rewrite decide_False by done. fold html.
    split; [done |]. split; [by destruct (os_WriteFile _ _ _) |].
    split; [by intros -> |].
    unfold mdBytesToParse. fold (scannerLines src). rewrite Hlines.
    rewrite skipScan_before, skipScan_heading by done.
    rewrite skipScan_blanks by done. cbn [skipScan]. unfold isH2 in Hh2. rewrite Hh2.
    unfold isBlank in Hnb. apply bool_decide_eq_false in Hnb.
    rewrite (bool_decide_eq_true_2 (TrimSpace line ≠ "")) by done.
    cbn [andb negb]. f_equal.
    rewrite !linesLen_app, !linesLen_cons, !length_joinLines. lia.
Qed.

Lemma cover_shows_the_skipped_headings_witness :
  createCoverPage (oneFile (joinLines ["# Title"; ""; "## Subtitle"; "body"]))
    "notes.md" "cover.html" "LocalRivet"
  = {| returnedPath := "cover.html"; returnedErr := None;
       written := Some ("cover.html", coverTemplate "Title" "Subtitle" "LocalRivet") |}
  ∧ mdBytesToParse true (joinLines ["# Title"; ""; "## Subtitle"; "body"])
    = Some (joinLines ["body"]).
Proof.
  destruct (cover_shows_the_skipped_headings
              (oneFile (joinLines ["# Title"; ""; "## Subtitle"; "body"]))
              "notes.md" "cover.html" "LocalRivet"
              (joinLines ["# Title"; ""; "## Subtitle"; "body"]) [] "# Title" [""])
    as [H _]; [reflexivity | constructor | reflexivity | by repeat constructor |].
  destruct (H "## Subtitle" ["body"] eq_refl eq_refl) as (_ & _ & _ & Hret & Hparse).
  split; [exact (Hret eq_refl) | exact Hparse].
Defined.

(** X17. Where the cover and the body disagree.  If no line of the file is
    a top-level heading, [createCoverPage] fails with "no H1 title found in
    markdown file" and writes nothing; if the first top-level heading is
    followed by blank lines only, it writes a cover with that title and an
    empty second one.  In both cases, when no line is too long for the
    scanner, [MarkdownPage.Reader] skips nothing even with the skip flag, so
    in the second case the title is on the cover and in the body too. *)
Theorem cover_without_heading_block (fs : FS) markdownPath coverPath author src :
  os_Open fs markdownPath = inl src →
  scanErr (splitLines "" src) = None →
  (Forall (λ l, isH1 l = false) (scannerLines src) →
   createCoverPage fs markdownPath coverPath author
   = {| returnedPath := "";
        returnedErr := Some (errorString "no H1 title found in markdown file");
        written := None |} ∧
   mdBytesToParse true src = Some src) ∧
  (∀ pre h1 blanks,
     scannerLines src = pre ++ h1 :: blanks →
     Forall (λ l, isH1 l = false) pre → isH1 h1 = true →
     Forall (λ l, isBlank l = true) blanks →
     written (createCoverPage fs markdownPath coverPath author)
     = Some (coverPath, coverTemplate (headingTitle "# " h1) "" author) ∧
     mdBytesToParse true src = Some src).
Proof.
  intros Hopen Herr. split.
  - intros Hno. split.
    + assert (coverScan (scannerLines src) false "" "" = ("", "", false)) as Hscan.
      { rewrite <- (app_nil_r (scannerLines src)). by rewrite coverScan_before. }
      unfold createCoverPage. rewrite Hopen. unfold scannerLines in Hscan.
      by rewrite Hscan, Herr.
    + unfold mdBytesToParse. by rewrite skipScan_none_before.
  - intros pre h1 blanks Hlines Hpre Hh1 Hblanks.
    assert (headingTitle "# " h1 ≠ "") as Ht1 by (by apply (headingTitle_nonempty "# " "#")).
    split.
    + assert (coverScan (scannerLines src) false "" "" = (headingTitle "# " h1, "", false)) as Hscan.
      { rewrite Hlines, coverScan_before, coverScan_heading by done.
        rewrite <- (app_nil_r blanks). by rewrite coverScan_blanks. }
      unfold createCoverPage. rewrite Hopen. unfold scannerLines in Hscan.
      rewrite Hscan, Herr. rewrite decide_False by done.
      by destruct (os_WriteFile _ _ _).
    + unfold mdBytesToParse. rewrite Hlines, skipScan_before, skipScan_heading by done.
      rewrite <- (app_nil_r blanks). by rewrite skipScan_blanks.
Qed.

Lemma cover_without_heading_block_witness :
  written (createCoverPage (oneFile (joinLines ["# Title"; ""])) "notes.md" "cover.html"
             "LocalRivet")
  = Some ("cover.html", coverTemplate "Title" "" "LocalRivet")
  ∧ mdBytesToParse true (joinLines ["# Title"; ""]) = Some (joinLines ["# Title"; ""]).
Proof.
  destruct (cover_without_heading_block (oneFile (joinLines ["# Title"; ""]))
              "notes.md" "cover.html" "LocalRivet" (joinLines ["# Title"; ""])
              eq_refl eq_refl) as [_ H].
  apply (H [] "# Title" [""]); [reflexivity | constructor | reflexivity |].
  by repeat constructor.
Defined.

(** ** The runner: the flags reach the page *)

Lemma foldl_insert_lookup (kvs : list (string * string)) : ∀ (m0 : gmap string string) k,
  NoDup kvs.*1 →
  foldl (λ m kv, <[kv.1 := kv.2]> m) m0 kvs !! k
  = match (list_to_map kvs : gmap string string) !! k with
    | Some v => Some v
    | None => m0 !! k
    end.
Proof.
  induction kvs as [|[k0 v0] kvs IH]; intros m0 k Hnd; simpl.
  - by rewrite lookup_empty.
  - apply NoDup_cons in Hnd as [Hk0 Hnd]. rewrite IH by done.
    destruct (decide (k0 = k)) as [->|Hne].
    + rewrite !lookup_insert_eq.
      by rewrite (not_elem_of_list_to_map_1 kvs k Hk0).
    + by rewrite !lookup_insert_ne.
Qed.

Lemma foldl_SetReplace kvs : ∀ pdfg,
  foldl (λ pdfg kv, SetReplace pdfg kv.1 kv.2) pdfg kvs
  = with_defaults (userStyleSheetPath pdfg) (headerHTMLPath pdfg) (footerHTMLPath pdfg)
      {| mo_option := mo_option (replace pdfg);
         mo_value := match kvs with
                     | [] => mo_value (replace pdfg)
                     | _ => Some (foldl (λ m kv, <[kv.1 := kv.2]> m)
                                    (default ∅ (mo_value (replace pdfg))) kvs)
                     end |} pdfg.
Proof.
  induction kvs as [|[k v] kvs IH]; intros pdfg.
  - simpl. by destruct pdfg as [? ? ? ? ? ? ? ? []].
  - simpl. rewrite IH. unfold SetReplace, with_defaults, mapOption_Set. simpl.
    f_equal. f_equal. by destruct kvs.
Qed.

Lemma foldl_insert_range (M : gmap string string) kvs :
  kvs ∈ rangeMap (Some M) → foldl (λ m kv, <[kv.1 := kv.2]> m) ∅ kvs = M.
Proof.
  simpl. intros Hp%permutations_Permutation. apply map_eq. intros k.
  rewrite foldl_insert_lookup.
  - rewrite <- (list_to_map_proper _ _ (NoDup_fst_map_to_list M) Hp).
    rewrite list_to_map_to_list, lookup_empty. by destruct (M !! k).
  - rewrite <- Hp. apply NoDup_fst_map_to_list.
Qed.

Lemma setIfGiven_keeps name value (pdfg : PDFGenerator) :
  userStyleSheetPath (setIfGiven name value pdfg) = userStyleSheetPath pdfg ∧
  headerHTMLPath (setIfGiven name value pdfg) = headerHTMLPath pdfg ∧
  footerHTMLPath (setIfGiven name value pdfg) = footerHTMLPath pdfg ∧
  replace (setIfGiven name value pdfg) = replace pdfg ∧
  pages (setIfGiven name value pdfg) = pages pdfg ∧
  Cover (setIfGiven name value pdfg) = Cover pdfg.
Proof. unfold setIfGiven. by case_decide. Qed.

(** The document before the loop over the replacements. *)
Lemma applySettings_defaults f coverFound (pdfg : PDFGenerator) :
  noDefaults pdfg →
  let d := applySettings f coverFound pdfg in
  userStyleSheetPath d = themePath f ∧ headerHTMLPath d = headerPath f ∧
  footerHTMLPath d = footerPath f ∧ mo_value (replace d) = None ∧
  pages d = pages pdfg ∧
  cover_Input (Cover d) = (if decide (coverFile f ≠ "" ∧ coverFound = true)
                           then coverFile f else cover_Input (Cover pdfg)).
Proof.
  intros (Hc & Hh & Hf & Hr). unfold applySettings. cbv zeta.
  set (d0 := setIfGiven "MarginRightUnit" _ _).
  assert (userStyleSheetPath d0 = "" ∧ headerHTMLPath d0 = "" ∧ footerHTMLPath d0 = ""
          ∧ mo_value (replace d0) = None ∧ pages d0 = pages pdfg ∧ Cover d0 = Cover pdfg)
    as (Hc0 & Hh0 & Hf0 & Hr0 & Hp0 & Hcv0).
  { unfold d0.
    repeat match goal with
           | |- context [setIfGiven ?n ?v ?p] =>
               destruct (setIfGiven_keeps n v p) as (-> & -> & -> & -> & -> & ->)
           end.
    done. }
  clearbody d0.
  destruct (decide (themePath f ≠ "")) as [Ht|Ht]; [| apply dec_stable in Ht];
    (destruct (decide (footerPath f ≠ "")) as [Hfo|Hfo]; [| apply dec_stable in Hfo]);
    (destruct (decide (headerPath f ≠ "")) as [Hhe|Hhe]; [| apply dec_stable in Hhe]);
    destruct (decide (coverFile f ≠ "")) as [Hco|Hco]; destruct coverFound; simpl;
    rewrite ?Hc0, ?Hh0, ?Hf0, ?Hr0, ?Hp0, ?Hcv0, ?Ht, ?Hfo, ?Hhe;
    (split; [done |]); (split; [done |]); (split; [done |]); (split; [done |]);
    (split; [done |]);
    first [ by rewrite decide_True by done
          | by rewrite decide_False by (by intros [? ?]) ].
Qed.

(** What the flags leave in the document, before the page is added. *)
Lemma applyFlags_defaults f coverFound (pdfg d : PDFGenerator) :
  noDefaults pdfg → d ∈ applyFlags f coverFound pdfg →
  userStyleSheetPath d = themePath f ∧ headerHTMLPath d = headerPath f ∧
  footerHTMLPath d = footerPath f ∧
  mo_value (replace d) = (if decide (replacements f = ∅) then None
                          else Some (replacements f)) ∧
  pages d = pages pdfg ∧
  cover_Input (Cover d) = (if decide (coverFile f ≠ "" ∧ coverFound = true)
                           then coverFile f else cover_Input (Cover pdfg)).
Proof.
  intros Hnd Hd. unfold applyFlags in Hd.
  apply list_elem_of_bind in Hd as (kvs & ->%list_elem_of_ret & Hkvs).
  rewrite foldl_SetReplace.
  destruct (applySettings_defaults f coverFound pdfg Hnd) as (Hc & Hh & Hf & Hr & Hp & Hcv).
  simpl. rewrite Hr. simpl.
  split; [done |]. split; [done |]. split; [done |]. split; [| by split].
  pose proof (foldl_insert_range _ _ Hkvs) as Hfold. rewrite Hfold.
  simpl in Hkvs. apply permutations_Permutation in Hkvs.
  destruct kvs as [|kv kvs].
  - apply Permutation_nil_r in Hkvs. apply map_to_list_empty_iff in Hkvs.
    by rewrite decide_True.
  - rewrite decide_False; [done |]. intros Hempty. rewrite Hempty, map_to_list_empty in Hkvs.
    by apply Permutation_nil_cons in Hkvs.
Qed.

(** X18. In the runner the flags reach the page.  [main] sets the theme,
    the header, the footer and the replacements on the document before it
    adds the one page, which is new, so the page that the document holds
    at its end is the page made of the input, and its own options hold the
    theme as its user style sheet, the header and the footer files of the
    flags (nothing where a flag is empty), and exactly the replacements of
    the command line as its replace map (no map when there are none), in
    whatever order the map of replacements is visited.  The cover is set
    when its flag is given and the file is found. *)
Theorem runner_page_carries_the_flags (f : RunnerFlags) coverFound lowered tmpName ref
    (pdfg : PDFGenerator) docs :
  noDefaults pdfg →
  runnerDocument f coverFound lowered tmpName ref pdfg = Some docs →
  docs ≠ [] ∧
  ∀ d, d ∈ docs →
    ∃ p page,
      runnerPage f lowered tmpName ref = Some p ∧
      pages d = pages pdfg ++ [page] ∧
      page = withOptions p (Options page) ∧
      stringValue "UserStyleSheet" (pageOptions (Options page)) = themePath f ∧
      stringValue "HeaderHTML" (headerAndFooterOptions (Options page)) = headerPath f ∧
      stringValue "FooterHTML" (headerAndFooterOptions (Options page)) = footerPath f ∧
      mapValue "Replace" (headerAndFooterOptions (Options page))
      = (if decide (replacements f = ∅) then None else Some (replacements f)) ∧
      cover_Input (Cover d) = (if decide (coverFile f ≠ "" ∧ coverFound = true)
                               then coverFile f else cover_Input (Cover pdfg)).
Proof.
  intros Hnd. unfold runnerDocument.
  destruct (runnerPage f lowered tmpName ref) as [p|] eqn:Hp; [| done].
  intros [= <-].
  assert (Options p = NewPageOptions) as Hopts.
  { unfold runnerPage in Hp. repeat case_decide; by simplify_eq. }
  split.
  { apply bind_nonempty; [| intros ?; apply AddPage_nonempty].
    unfold applyFlags. apply bind_nonempty; [apply rangeMap_nonempty | done]. }
  intros d (d0 & Hd & Hd0)%list_elem_of_bind.
  destruct (applyFlags_defaults _ _ _ _ Hnd Hd0) as (Hc & Hh & Hf & Hr & Hpages & Hcover).
  unfold AddPage in Hd. apply list_elem_of_bind in Hd as (kvs & ->%list_elem_of_ret & Hkvs).
  exists p, (withOptions p (mergeDefaults d0 kvs (Options p))). split; [done |].
  split; [simpl; by rewrite Hpages |].
  rewrite Options_withOptions. split; [done |].
  destruct (mergeDefaults_spec d0 kvs (Options p)) as (Hcss & Hhead & Hfoot & Hrep);
    [by rewrite Hopts; repeat split; eexists | done |].
  cbv zeta in Hcss, Hhead, Hfoot, Hrep.
  rewrite Hcss, Hhead, Hfoot, Hc, Hh, Hf, Hopts.
  change (stringValue "UserStyleSheet" (pageOptions NewPageOptions)) with "".
  change (stringValue "HeaderHTML" (headerAndFooterOptions NewPageOptions)) with "".
  change (stringValue "FooterHTML" (headerAndFooterOptions NewPageOptions)) with "".
  assert (∀ global, mergedValue global "" = global) as Hmerged.
  { intros global. unfold mergedValue.
    destruct (decide (global ≠ "" ∧ "" = "")) as [|Hg]; [done |].
    destruct (decide (global = "")) as [->|]; [done |]. by destruct Hg. }
  rewrite !Hmerged. split; [done |]. split; [done |]. split; [done |]. split; [| done].
  rewrite Hr, Hopts in Hrep.
  change (mapValue "Replace" (headerAndFooterOptions NewPageOptions)) with
    (@None (gmap string string)) in Hrep.
  unfold mergedReplace in Hrep. case_decide; [done |].
  destruct Hrep as (m & -> & Hm). f_equal. apply map_eq. intros k. by rewrite Hm.
Qed.

Lemma runner_page_carries_the_flags_witness :
  ∃ docs, runnerDocument sampleFlags true "html" "" 0 NewPDFPreparer = Some docs ∧
    Forall (λ d, ∃ opts',
              pages d = [IsPageReader {| PageReader_Input := Some 0;
                                         PageReader_PageOptions := opts' |}] ∧
              stringValue "UserStyleSheet" (pageOptions opts') = "theme.css" ∧
              stringValue "FooterHTML" (headerAndFooterOptions opts') = "footer.html" ∧
              mapValue "Replace" (headerAndFooterOptions opts')
              = Some {[ "author" := "LocalRivet"; "date" := "today" ]} ∧
              cover_Input (Cover d) = "cover.html") docs.
Proof.
  eexists. split; [reflexivity |]. apply Forall_forall. intros d Hd.
  destruct (runner_page_carries_the_flags sampleFlags true "html" "" 0 NewPDFPreparer _
              ltac:(by repeat split) eq_refl) as [_ H].
  destruct (H d Hd) as (p & page & Hp & Hpages & Hpage & Hcss & _ & Hfoot & Hrep & Hcover).
  injection Hp as <-. exists (Options page). split; [by rewrite Hpages, Hpage |].
  split; [exact Hcss |]. split; [exact Hfoot |]. split; [| exact Hcover].
  rewrite Hrep. rewrite decide_False; [done |].
  intros Hempty. apply (f_equal (λ m : gmap string string, m !! "author")) in Hempty.
  vm_compute in Hempty. discriminate Hempty.
Defined.

(** ** A line that is too long for the scanner *)

Lemma scanErr_ErrTooLong pieces err : scanErr pieces = Some err → err = ErrTooLong.
Proof.
  induction pieces as [|p pieces IH]; [done |]. simpl.
  destruct (_ <? _)%N; [exact IH | by intros [= <-]].
Qed.

(** X19. A line of 65536 bytes or more ends the scan of a markdown file.
    When no line before it is a top-level heading, [MarkdownPage.Reader]
    with the skip flag parses the whole file and reports nothing, since it
    looks at the scanner's error only after it has found the place to
    resume, while [createCoverPage] fails on the same file with "error
    scanning markdown file: bufio.Scanner: token too long", which wraps the
    scanner's error, and writes no cover. *)
Theorem long_line_ends_the_scan (fs : FS) markdownPath coverPath author src err :
  os_Open fs markdownPath = inl src →
  scanErr (splitLines "" src) = Some err →
  Forall (λ l, isH1 l = false) (scannerLines src) →
  mdBytesToParse true src = Some src ∧
  createCoverPage fs markdownPath coverPath author
  = {| returnedPath := "";
       returnedErr := Some (wrapError ("error scanning markdown file: "
                                       +:+ "bufio.Scanner: token too long") ErrTooLong);
       written := None |}.
Proof.
  intros Hopen Herr Hno. split.
  - unfold mdBytesToParse. by rewrite skipScan_none_before.
  - assert (coverScan (scannerLines src) false "" "" = ("", "", false)) as Hscan.
    { rewrite <- (app_nil_r (scannerLines src)). by rewrite coverScan_before. }
    unfold createCoverPage. rewrite Hopen. unfold scannerLines in Hscan.
    rewrite Hscan, Herr. by rewrite (scanErr_ErrTooLong _ _ Herr).
Qed.

Lemma hasNewline_letters n : hasNewline (letters n) = false.
Proof. induction n as [|n IH]; [done |]. simpl. by rewrite IH. Qed.

Lemma length_letters n : String.length (letters n) = n.
Proof. induction n as [|n IH]; [done |]. simpl. by rewrite IH. Qed.

Lemma splitLines_long_line n rest :
  (MaxScanTokenSize ≤ N.of_nat n)%N →
  scanErr (splitLines "" (letters n +:+ String newline rest)) = Some ErrTooLong
  ∧ scannerLines (letters n +:+ String newline rest) = [].
Proof.
  intros Hn. unfold scannerLines.
  rewrite splitLines_line by apply hasNewline_letters.
  fold (String.rev (letters n)). rewrite rev_involutive. simpl.
  rewrite length_letters. by rewrite (proj2 (N.ltb_ge _ _) Hn).
Qed.

Lemma long_line_ends_the_scan_witness :
  mdBytesToParse true (letters (N.to_nat 65536) +:+ String newline "# Title")
  = Some (letters (N.to_nat 65536) +:+ String newline "# Title")
  ∧ returnedErr
      (createCoverPage (oneFile (letters (N.to_nat 65536) +:+ String newline "# Title"))
         "notes.md" "cover.html" "LocalRivet")
    = Some (wrapError "error scanning markdown file: bufio.Scanner: token too long"
              ErrTooLong).
Proof.
  destruct (splitLines_long_line (N.to_nat 65536) "# Title") as [Herr Hlines].
  { rewrite N2Nat.id. reflexivity. }
  destruct (long_line_ends_the_scan
              (oneFile (letters (N.to_nat 65536) +:+ String newline "# Title"))
              "notes.md" "cover.html" "LocalRivet"
              (letters (N.to_nat 65536) +:+ String newline "# Title") ErrTooLong)
    as [Hparse Hcover].
  - reflexivity.
  - exact Herr.
  - rewrite Hlines. constructor.
  - split; [exact Hparse |]. by rewrite Hcover.
Defined.
